(** * Verification of the sandwich agent's orchestration core

    A shallow embedding of four modules of [src/sandwich/agent]:
    - [state_machine.py]  (module [StateMachine] below),
    - [error_handler.py]  (module [ErrorHandler]),
    - [forager.py]        (module [Forager]),
    - [selector.py]       (module [Selector]).

    Python objects mutated through [self] are threaded as explicit state,
    raised exceptions are an [Outcome], and the ambient effects the four
    modules use (the [logging] module, [uuid4], [datetime.now],
    [random.choice]) live in a [World] that every method threads along. *)

From Stdlib Require Import ZArith List Bool Lia.
From Corelib Require Import SpecFloat.
From Corelib Require PrimFloat FloatOps.
From stdpp Require Import base gmap strings list fin_maps.

Local Open Scope string_scope.
Local Open Scope list_scope.
Local Open Scope Z_scope.

(** ** The Python runtime the modules rely on *)

Module Py.

(** A call either returns a value or raises. *)
Inductive Outcome (E A : Type) : Type :=
| Returned (a : A)
| Raised (e : E).
Arguments Returned {E A} a.
Arguments Raised {E A} e.

Definition is_returned {E A} (o : Outcome E A) : bool :=
  match o with Returned _ => true | Raised _ => false end.

(** [float] is IEEE 754 binary64; its operations are the ones of
    [SpecFloat] at precision 53 and maximal exponent 1024. *)
Definition float : Type := spec_float.
Definition prec : Z := 53.
Definition emax : Z := 1024.
Definition fadd : float -> float -> float := SFadd prec emax.
Definition fsub : float -> float -> float := SFsub prec emax.
Definition fmul : float -> float -> float := SFmul prec emax.
Definition fdiv : float -> float -> float := SFdiv prec emax.
(** [a < b], [a <= b], [a == b] on floats; [a > b] is [flt b a] and
    [a >= b] is [fle b a]. *)
Definition flt : float -> float -> bool := SFltb.
Definition fle : float -> float -> bool := SFleb.
Definition feq : float -> float -> bool := SFeqb.

Definition UUID : Type := N.
Definition datetime : Type := N.

(** Values of type [Any] stored in payload dictionaries. *)
Inductive Value : Type :=
| VNone
| VBool (b : bool)
| VInt (z : Z)
| VFloat (f : float)
| VStr (s : string).

(** [logging]: a record keeps its level, its format string and the
    arguments, unformatted, as [logging.LogRecord] does. *)
Inductive LogLevel : Type := DEBUG | INFO | WARNING | ERROR.

Inductive LogArg : Type :=
| ArgStr (s : string)
| ArgInt (z : Z)
| ArgFloat (f : float)
| ArgUUID (u : UUID).

Record LogRecord : Type := mkLog {
  levelname : LogLevel;
  msg : string;
  args : list LogArg
}.

(** The world outside the program: what the next calls of [uuid4],
    [datetime.now] and [random] will answer, how many such answers have
    been consumed, and the log written so far (oldest first). *)
Record World : Type := mkWorld {
  uuid4_at : nat -> UUID;
  now_at : nat -> datetime;
  random_at : nat -> nat;
  ticks : nat;
  log : list LogRecord
}.

(** A world for the examples: identifiers and times count up, nothing is
    logged yet. *)
Definition w0 : World := mkWorld N.of_nat N.of_nat id 0%nat [].

Definition tick (w : World) : World :=
  mkWorld (uuid4_at w) (now_at w) (random_at w) (S (ticks w)) (log w).

Definition emit (r : LogRecord) (w : World) : World :=
  mkWorld (uuid4_at w) (now_at w) (random_at w) (ticks w) (log w ++ [r]).

(** Computations over an object [S] (the [self] of a method) in a world,
    which may raise an [E]. *)
Definition M (S E A : Type) : Type := S -> World -> Outcome E A * S * World.

Definition ret {S E A} (a : A) : M S E A := fun s w => (Returned a, s, w).

Definition raise {S E A} (e : E) : M S E A := fun s w => (Raised e, s, w).

Definition bind {S E A B} (m : M S E A) (k : A -> M S E B) : M S E B :=
  fun s w =>
    match m s w with
    | (Returned a, s', w') => k a s' w'
    | (Raised e, s', w') => (Raised e, s', w')
    end.

Definition get {S E} : M S E S := fun s w => (Returned s, s, w).

Definition put {S E} (s : S) : M S E unit := fun _ w => (Returned tt, s, w).

Definition logger {S E} (lvl : LogLevel) (fmt : string) (a : list LogArg) : M S E unit :=
  fun s w => (Returned tt, s, emit (mkLog lvl fmt a) w).

Definition uuid4 {S E} : M S E UUID :=
  fun s w => (Returned (uuid4_at w (ticks w)), s, tick w).

Definition datetime_now {S E} : M S E datetime :=
  fun s w => (Returned (now_at w (ticks w)), s, tick w).

(** [random.choice(seq)] on a non-empty sequence. *)
Definition random_choice {S E A} (x : A) (xs : list A) : M S E A :=
  fun s w =>
    (Returned (nth (random_at w (ticks w) mod length (x :: xs))%nat (x :: xs) x), s, tick w).

End Py.

Import Py.

Notation "x <~ m ;; k" := (bind m (fun x => k))
  (at level 100, m at next level, right associativity).
Notation "m ;;; k" := (bind m (fun _ => k))
  (at level 100, right associativity).

(** ** [sandwich/agent/state_machine.py] *)

Module state_machine.

Inductive AgentState : Type :=
| IDLE
| FORAGING
| PREPROCESSING
| IDENTIFYING
| SELECTING
| ASSEMBLING
| VALIDATING
| STORING
| ERROR_RECOVERY
| SESSION_END.

(** [AgentState.value] *)
Definition value (s : AgentState) : string :=
  match s with
  | IDLE => "idle"
  | FORAGING => "foraging"
  | PREPROCESSING => "preprocessing"
  | IDENTIFYING => "identifying"
  | SELECTING => "selecting"
  | ASSEMBLING => "assembling"
  | VALIDATING => "validating"
  | STORING => "storing"
  | ERROR_RECOVERY => "error_recovery"
  | SESSION_END => "session_end"
  end.

(** A [dict[str, AgentState]] literal: its items in insertion order, which
    is the order [keys()] lists them in. No row repeats a key. *)
Definition Row : Type := list (string * AgentState).

(** [event in row] *)
Definition contains (row : Row) (event : string) : bool :=
  existsb (fun kv => String.eqb (fst kv) event) row.

(** [row[event]], [None] standing for [KeyError]. *)
Definition getitem (row : Row) (event : string) : option AgentState :=
  snd <$> find (fun kv => String.eqb (fst kv) event) row.

(** [list(row.keys())] *)
Definition keys (row : Row) : list string := map fst row.

(** The table has a row for each of the ten states, so
    [TRANSITIONS.get(s, {})] and [TRANSITIONS[s]] are both [TRANSITIONS s]. *)
Definition TRANSITIONS (s : AgentState) : Row :=
  match s with
  | IDLE =>
      [("start_foraging", FORAGING); ("end_session", SESSION_END)]
  | FORAGING =>
      [("content_found", PREPROCESSING); ("forage_failed", IDLE);
       ("error", ERROR_RECOVERY)]
  | PREPROCESSING =>
      [("content_accepted", IDENTIFYING); ("content_rejected", IDLE);
       ("error", ERROR_RECOVERY)]
  | IDENTIFYING =>
      [("candidates_found", SELECTING); ("no_candidates", IDLE);
       ("error", ERROR_RECOVERY)]
  | SELECTING =>
      [("candidate_selected", ASSEMBLING); ("none_viable", IDLE);
       ("error", ERROR_RECOVERY)]
  | ASSEMBLING =>
      [("assembly_complete", VALIDATING); ("error", ERROR_RECOVERY)]
  | VALIDATING =>
      [("accepted", STORING); ("review", STORING); ("rejected", IDLE);
       ("error", ERROR_RECOVERY)]
  | STORING =>
      [("stored", IDLE); ("error", ERROR_RECOVERY)]
  | ERROR_RECOVERY =>
      [("recovered", IDLE); ("fatal", SESSION_END)]
  | SESSION_END => []
  end.

(** [repr] of a list of the table's keys, as the f-string of the error
    message prints it. The keys are plain identifiers, whose [repr] is the
    key between single quotes. *)
Definition repr_keys (ks : list string) : string :=
  "[" +:+ String.concat ", " (map (fun k => "'" +:+ k +:+ "'") ks) +:+ "]".

Module InvalidTransitionError.
(** The exception object: its two attributes and the message handed to
    [Exception.__init__]. *)
Record t : Type := mk {
  current_state : AgentState;
  event : string;
  message : string
}.

(** [InvalidTransitionError.__init__] *)
Definition __init__ (current_state : AgentState) (event : string) : t :=
  mk current_state event
    ("Invalid transition: " +:+ value current_state +:+ " + '" +:+ event +:+ "' "
     +:+ "(valid events: " +:+ repr_keys (keys (TRANSITIONS current_state)) +:+ ")").
End InvalidTransitionError.

(** What a method of the machine can raise: the module's own error, or the
    [KeyError] of a failed subscript. *)
Inductive Exn : Type :=
| InvalidTransition (e : InvalidTransitionError.t)
| KeyError (key : string).

Module StateCheckpoint.
Record t : Type := mk {
  checkpoint_id : UUID;
  session_id : UUID;
  state : AgentState;
  timestamp : datetime;
  data : gmap string Value;
  transition_reason : string
}.
End StateCheckpoint.

(** The fields of a [StateMachine] object. *)
Record StateMachine : Type := mkStateMachine {
  session_id : UUID;
  current_state : AgentState;
  checkpoints : list StateCheckpoint.t
}.

(** [StateMachine(session_id)]: [session_id or uuid4()]; a [UUID] object is
    always truthy. *)
Definition __init__ (session_id : option UUID) (w : World) : StateMachine * World :=
  match session_id with
  | Some u => (mkStateMachine u IDLE [], w)
  | None => (mkStateMachine (uuid4_at w (ticks w)) IDLE [], tick w)
  end.

Definition can_transition (event : string) : M StateMachine Exn bool :=
  self <~ get ;;
  ret (contains (TRANSITIONS (current_state self)) event).

(** [data or {}] *)
Definition data_or_empty (data : option (gmap string Value)) : gmap string Value :=
  match data with
  | Some d => if decide (d = ∅) then ∅ else d
  | None => ∅
  end.

Definition transition (event : string) (data : option (gmap string Value))
  : M StateMachine Exn AgentState :=
  ok <~ can_transition event ;;
  if negb ok then
    self <~ get ;;
    raise (InvalidTransition (InvalidTransitionError.__init__ (current_state self) event))
  else
    self <~ get ;;
    match getitem (TRANSITIONS (current_state self)) event with
    | None => raise (KeyError event)
    | Some new_state =>
        let old_state := current_state self in
        checkpoint_id <~ uuid4 ;;
        timestamp <~ datetime_now ;;
        let checkpoint :=
          StateCheckpoint.mk checkpoint_id (session_id self) new_state timestamp
            (data_or_empty data)
            (value old_state +:+ " --[" +:+ event +:+ "]--> " +:+ value new_state) in
        put (mkStateMachine (session_id self) (current_state self)
               (checkpoints self ++ [checkpoint])) ;;;
        self <~ get ;;
        put (mkStateMachine (session_id self) new_state (checkpoints self)) ;;;
        logger INFO "Transition: %s --[%s]--> %s"
          [ArgStr (value old_state); ArgStr event; ArgStr (value new_state)] ;;;
        ret new_state
    end.

Definition recover_from_checkpoint (checkpoint : StateCheckpoint.t)
  : M StateMachine Exn unit :=
  self <~ get ;;
  put (mkStateMachine (session_id self) (StateCheckpoint.state checkpoint)
         (checkpoints self)) ;;;
  self <~ get ;;
  put (mkStateMachine (StateCheckpoint.session_id checkpoint) (current_state self)
         (checkpoints self)) ;;;
  self <~ get ;;
  put (mkStateMachine (session_id self) (current_state self)
         (checkpoints self ++ [checkpoint])) ;;;
  logger INFO "Recovered to state %s from checkpoint %s"
    [ArgStr (value (StateCheckpoint.state checkpoint));
     ArgUUID (StateCheckpoint.checkpoint_id checkpoint)].

(** [self.checkpoints[-1] if self.checkpoints else None] *)
Definition get_latest_checkpoint (self : StateMachine) : option StateCheckpoint.t :=
  last (checkpoints self).

(** *** Driving a machine *)

(** A caller issuing [transition] calls one after the other, catching what
    each raises: the outcomes in call order, and the machine and world
    left behind. *)
Fixpoint run (calls : list (string * option (gmap string Value)))
    (self : StateMachine) (w : World)
  : list (Outcome Exn AgentState) * StateMachine * World :=
  match calls with
  | [] => ([], self, w)
  | (event, data) :: rest =>
      match transition event data self w with
      | (o, self', w') =>
          match run rest self' w' with
          | (os, self'', w'') => (o :: os, self'', w'')
          end
      end
  end.

(** The machines a program can hold: a newly built one, and whatever
    [transition] (returning or raising) and [recover_from_checkpoint]
    leave of a machine it could already hold. *)
Inductive reachable : StateMachine -> Prop :=
| reach_init sid w : reachable (fst (__init__ sid w))
| reach_transition self event data w :
    reachable self -> reachable (snd (fst (transition event data self w)))
| reach_recover self checkpoint w :
    reachable self -> reachable (snd (fst (recover_from_checkpoint checkpoint self w))).

(** What a checkpoint records apart from its own identifier and the time
    it was taken at. *)
Definition content (c : StateCheckpoint.t)
  : UUID * AgentState * gmap string Value * string :=
  (StateCheckpoint.session_id c, StateCheckpoint.state c,
   StateCheckpoint.data c, StateCheckpoint.transition_reason c).

End state_machine.

(** ** [sandwich/agent/error_handler.py] *)

Module error_handler.

(** The four classes [determine_recovery_event] tests with [isinstance]. *)
Inductive ErrorClass : Type :=
| FatalError
| ContentError
| ParseError
| RetryableError.

(** Modelled from the spec: [sandwich/errors/exceptions.py], which declares
    [SandwichError] and its subclasses, is not among the sources. Per the
    ErrorTaxonomy of section 6 a failure value exposes one discriminant tag
    drawn from fatal, content, parse, retryable, other, plus a free-text
    reason. *)
Inductive Tag : Type :=
| fatal
| content
| parse
| retryable
| other.

(** A [SandwichError] instance: its tag, the name of its class
    ([type(error).__name__]), [str(error)] and [error.reason]. *)
Record SandwichError : Type := mkSandwichError {
  tag : Tag;
  type_name : string;
  str : string;
  reason : string
}.

(** [isinstance(error, cls)] under that taxonomy. *)
Definition isinstance (error : SandwichError) (cls : ErrorClass) : bool :=
  match tag error, cls with
  | fatal, FatalError => true
  | content, ContentError => true
  | parse, ParseError => true
  | retryable, RetryableError => true
  | _, _ => false
  end.

(** The function has no [self]; it only writes to the log. *)
Definition determine_recovery_event (error : SandwichError) : M unit Empty_set string :=
  if isinstance error FatalError then
    logger ERROR "Fatal error: %s (reason=%s)"
      [ArgStr (str error); ArgStr (reason error)] ;;;
    ret "fatal"
  else if isinstance error ContentError then
    logger WARNING "Content error: %s (reason=%s)"
      [ArgStr (str error); ArgStr (reason error)] ;;;
    ret "recovered"
  else if isinstance error ParseError then
    logger WARNING "Parse error: %s" [ArgStr (str error)] ;;;
    ret "recovered"
  else if isinstance error RetryableError then
    logger WARNING "Retryable error (after max retries): %s (reason=%s)"
      [ArgStr (str error); ArgStr (reason error)] ;;;
    ret "recovered"
  else
    logger WARNING "Unknown error type %s: %s"
      [ArgStr (type_name error); ArgStr (str error)] ;;;
    ret "recovered".

End error_handler.

(** ** [sandwich/agent/forager.py] *)

Module forager.

(** [sandwich/sources/base.py] *)
Record SourceResult : Type := mkSourceResult {
  content : string;
  url : option string;
  title : option string;
  content_type : string;
  metadata : gmap string Value
}.

(** Something raised by a source: whether its class derives from
    [Exception] (what [except Exception] catches) and its [str]. *)
Record Raisable : Type := mkRaisable {
  is_Exception : bool;
  str : string
}.

(** A [ContentSource]: the abstract class fixes [name], [tier] and the two
    asynchronous fetch methods; what they answer is up to the source and
    the world. *)
Record ContentSource : Type := mkContentSource {
  name : string;
  tier : Z;
  fetch : option string -> World -> Outcome Raisable SourceResult * World;
  fetch_random : World -> Outcome Raisable SourceResult * World
}.

Record ForagerConfig : Type := mkForagerConfig {
  max_patience : Z;
  tier_1_sources : list string;
  tier_2_sources : list string;
  tier_3_sources : list string;
  successes_to_promote : Z;
  failures_to_demote : Z
}.

(** [ForagerConfig()] *)
Definition default_config : ForagerConfig :=
  mkForagerConfig 5 ["wikipedia"] ["web_search"] [] 5 3.

Record ForagingResult : Type := mkForagingResult {
  source_result : SourceResult;
  source_name : string;
  curiosity_prompt : option string;
  log_id : UUID
}.

(** The fields of a [Forager] object ([llm] is only used by
    [generate_curiosity], which no other method calls). *)
Record Forager : Type := mkForager {
  sources : gmap Z (list ContentSource);
  config : ForagerConfig;
  current_tier : Z;
  consecutive_failures : Z;
  consecutive_successes : Z
}.

(** [Forager(sources, llm, config)]: [config or ForagerConfig()]. *)
Definition __init__ (sources : gmap Z (list ContentSource))
    (config : option ForagerConfig) : Forager :=
  mkForager sources (default default_config config) 1 0 0.

(** The loop of [_get_tier_sources] over
    [range(self.current_tier, 0, -1)], [n] tiers being left to visit:
    [n], [n - 1], ..., [1]. *)
Fixpoint walk_down (sources : gmap Z (list ContentSource)) (n : nat)
  : list ContentSource :=
  match n with
  | O => []
  | S k =>
      match sources !! Z.of_nat n with
      | Some (s :: ss) => s :: ss
      | _ => walk_down sources k
      end
  end.

Definition _get_tier_sources (self : Forager) : list ContentSource :=
  walk_down (sources self) (Z.to_nat (current_tier self)).

(** The truth value of an [Optional[str]]. *)
Definition truthy (s : option string) : bool :=
  match s with
  | Some s => negb (String.eqb s EmptyString)
  | None => false
  end.

(** [await] of a source's coroutine inside the forager. *)
Definition await {A} (call : World -> Outcome Raisable A * World)
  : M Forager Raisable A :=
  fun self w => match call w with (o, w') => (o, self, w') end.

(** [try: body except Exception as e: handler e] *)
Definition try_except {A} (body : M Forager Raisable A)
    (handler : Raisable -> M Forager Raisable A) : M Forager Raisable A :=
  fun self w =>
    match body self w with
    | (Raised e, self', w') =>
        if is_Exception e then handler e self' w' else (Raised e, self', w')
    | r => r
    end.

Definition forage (curiosity : option string)
  : M Forager Raisable (option ForagingResult) :=
  self <~ get ;;
  match _get_tier_sources self with
  | [] =>
      logger WARNING "No sources available for tier %d" [ArgInt (current_tier self)] ;;;
      ret None
  | s :: ss =>
      source <~ random_choice s ss ;;
      fetched <~ try_except
        (result <~ (if truthy curiosity
                    then await (fetch source curiosity)
                    else await (fetch_random source)) ;;
         ret (Some result))
        (fun e =>
           logger WARNING "Source '%s' failed: %s" [ArgStr (name source); ArgStr (str e)] ;;;
           ret None) ;;
      match fetched with
      | None => ret None
      | Some result =>
          if String.eqb (content result) EmptyString then
            logger INFO "Source '%s' returned empty content for query '%s'"
              [ArgStr (name source); ArgStr (default "None" curiosity)] ;;;
            ret None
          else
            log_id <~ uuid4 ;;
            ret (Some (mkForagingResult result (name source) curiosity log_id))
      end
  end.

(** [max(self.sources.keys())], [None] on an empty mapping. *)
Definition max_key (sources : gmap Z (list ContentSource)) : option Z :=
  foldr (fun k acc => Some (from_option (Z.max k) k acc)) None (elements (dom sources)).

(** [max(self.sources.keys()) if self.sources else 1] *)
Definition max_tier (self : Forager) : Z :=
  default 1 (max_key (sources self)).

Definition record_success : M Forager Raisable unit :=
  self <~ get ;;
  put (mkForager (sources self) (config self) (current_tier self)
         0 (consecutive_successes self)) ;;;
  self <~ get ;;
  put (mkForager (sources self) (config self) (current_tier self)
         (consecutive_failures self) (consecutive_successes self + 1)) ;;;
  self <~ get ;;
  if successes_to_promote (config self) <=? consecutive_successes self then
    if current_tier self <? max_tier self then
      let old_tier := current_tier self in
      put (mkForager (sources self) (config self) (current_tier self + 1)
             (consecutive_failures self) (consecutive_successes self)) ;;;
      self <~ get ;;
      put (mkForager (sources self) (config self) (current_tier self)
             (consecutive_failures self) 0) ;;;
      self <~ get ;;
      logger INFO "Tier promotion: %d → %d (after %d successes)"
        [ArgInt old_tier; ArgInt (current_tier self);
         ArgInt (successes_to_promote (config self))]
    else ret tt
  else ret tt.

Definition record_failure : M Forager Raisable unit :=
  self <~ get ;;
  put (mkForager (sources self) (config self) (current_tier self)
         (consecutive_failures self) 0) ;;;
  self <~ get ;;
  put (mkForager (sources self) (config self) (current_tier self)
         (consecutive_failures self + 1) (consecutive_successes self)) ;;;
  self <~ get ;;
  if failures_to_demote (config self) <=? consecutive_failures self then
    if 1 <? current_tier self then
      let old_tier := current_tier self in
      put (mkForager (sources self) (config self) (current_tier self - 1)
             (consecutive_failures self) (consecutive_successes self)) ;;;
      self <~ get ;;
      put (mkForager (sources self) (config self) (current_tier self)
             0 (consecutive_successes self)) ;;;
      self <~ get ;;
      logger INFO "Tier demotion: %d → %d (after %d failures)"
        [ArgInt old_tier; ArgInt (current_tier self);
         ArgInt (failures_to_demote (config self))]
    else ret tt
  else ret tt.

(** *** Driving a forager *)

Inductive Call : Type := Success | Failure.

Definition record (c : Call) : M Forager Raisable unit :=
  match c with
  | Success => record_success
  | Failure => record_failure
  end.

(** The forager left by a sequence of [record_success] and
    [record_failure] calls (neither raises). *)
Fixpoint records (calls : list Call) (self : Forager) (w : World) : Forager * World :=
  match calls with
  | [] => (self, w)
  | c :: rest =>
      match record c self w with
      | (_, self', w') => records rest self' w'
      end
  end.

End forager.

(** ** [sandwich/agent/selector.py] *)

Module selector.

(** Float literals of the module, by their binary64 representation. *)
Definition f0_0 : float := S754_zero false.
Definition f1_0 : float := S754_finite false 4503599627370496 (-52).
Definition f0_4 : float := S754_finite false 7205759403792794 (-54).
Definition f0_3 : float := S754_finite false 5404319552844595 (-54).
Definition f0_2 : float := S754_finite false 7205759403792794 (-55).

(** Modelled from the spec: [sandwich/agent/identifier.py], which declares
    the dataclass [CandidateStructure], is not among the sources. Per
    section 3 a candidate has bread-top text, bread-bottom text, filler
    text, a structure-type tag, a confidence and a rationale string; the
    field names are the ones [select_candidate] and the tests use. *)
Record CandidateStructure : Type := mkCandidate {
  bread_top : string;
  bread_bottom : string;
  filling : string;
  structure_type : string;
  confidence : float;
  rationale : string
}.

(** [a == b] on candidates, the equality a dataclass generates: field by
    field. ([list.index] also accepts the very same object; on a candidate
    whose confidence is not NaN, which is all [select_candidate] looks up,
    that adds nothing.) *)
Definition candidate_eqb (a b : CandidateStructure) : bool :=
  String.eqb (bread_top a) (bread_top b)
  && String.eqb (bread_bottom a) (bread_bottom b)
  && String.eqb (filling a) (filling b)
  && String.eqb (structure_type a) (structure_type b)
  && feq (confidence a) (confidence b)
  && String.eqb (rationale a) (rationale b).

Record SelectionConfig : Type := mkSelectionConfig {
  min_confidence : float;
  novelty_weight : float;
  diversity_weight : float
}.

(** [SelectionConfig()] *)
Definition default_config : SelectionConfig := mkSelectionConfig f0_4 f0_3 f0_2.

Module SelectedCandidate.
Record t : Type := mk {
  candidate : CandidateStructure;
  final_score : float;
  novelty_bonus : float;
  diversity_bonus : float;
  rationale : string
}.
End SelectedCandidate.

(** [candidates.index(cand)] raises [ValueError] when nothing matches. *)
Inductive Exn : Type := ValueError.

(** [candidates.index(cand)], counting from [i]. *)
Fixpoint index_from (i : nat) (candidates : list CandidateStructure)
    (cand : CandidateStructure) : option nat :=
  match candidates with
  | [] => None
  | c :: rest => if candidate_eqb c cand then Some i else index_from (S i) rest cand
  end.

(** The builtins [max(a, b)] and [min(a, b)] on floats: the first argument
    stays unless the second is strictly beyond it. *)
Definition max2 (a b : float) : float := if flt a b then b else a.
Definition min2 (a b : float) : float := if flt b a then b else a.

(** [max(iterable)] over a non-empty iterable. *)
Definition max_of (x : float) (xs : list float) : float := fold_left max2 xs x.

(** The truth value of an optional list. *)
Definition nonempty {A} (l : option (list A)) : bool :=
  match l with
  | Some (_ :: _) => true
  | _ => false
  end.

Section Interpreter.

(** What the interpreter supplies and this development leaves open: the
    builtin [sum] over floats (whose summation algorithm changed between
    interpreter versions), [x ** 0.5], and the rendering of floats by
    [format(x, '.Nf')] and [str(x)]. *)
Variable sum : list float -> float.
Variable pow_half : float -> float.
Variable format_f : nat -> float -> string.
Variable str_float : float -> string.

Definition _cosine_similarity (a b : list float) : float :=
  let dot := sum (map (fun xy => fmul (fst xy) (snd xy)) (zip a b)) in
  let norm_a := pow_half (sum (map (fun x => fmul x x) a)) in
  let norm_b := pow_half (sum (map (fun x => fmul x x) b)) in
  if feq norm_a f0_0 || feq norm_b f0_0 then f0_0
  else fdiv dot (fmul norm_a norm_b).

(** The novelty bonus of one candidate. *)
Definition novelty (candidates : list CandidateStructure)
    (corpus_embeddings candidate_embeddings : option (list (list float)))
    (cand : CandidateStructure) : M unit Exn float :=
  if nonempty corpus_embeddings && nonempty candidate_embeddings then
    match index_from 0 candidates cand with
    | None => raise ValueError
    | Some orig_idx =>
        match default [] candidate_embeddings !! orig_idx,
              default [] corpus_embeddings with
        | Some cand_emb, corpus_emb :: corpus_embs =>
            let max_sim :=
              max_of (_cosine_similarity cand_emb corpus_emb)
                     (map (_cosine_similarity cand_emb) corpus_embs) in
            let novelty_bonus := fsub f1_0 max_sim in
            ret (max2 f0_0 (min2 f1_0 novelty_bonus))
        | _, _ => ret f1_0
        end
    end
  else ret f1_0.

(** The diversity bonus of one candidate. *)
Definition diversity (type_frequencies : option (gmap string float))
    (cand : CandidateStructure) : float :=
  match type_frequencies with
  | Some tf =>
      if decide (tf = ∅) then f1_0
      else match tf !! structure_type cand with
           | Some freq =>
               let diversity_bonus := fsub f1_0 freq in
               max2 f0_0 (min2 f1_0 diversity_bonus)
           | None => f1_0
           end
  | None => f1_0
  end.

(** The [for i, cand in enumerate(viable)] loop, [best] being the best
    candidate so far. *)
Fixpoint loop (cfg : SelectionConfig) (candidates : list CandidateStructure)
    (corpus_embeddings candidate_embeddings : option (list (list float)))
    (type_frequencies : option (gmap string float))
    (viable : list CandidateStructure) (best : option SelectedCandidate.t)
  : M unit Exn (option SelectedCandidate.t) :=
  match viable with
  | [] => ret best
  | cand :: rest =>
      novelty_bonus <~ novelty candidates corpus_embeddings candidate_embeddings cand ;;
      let diversity_bonus := diversity type_frequencies cand in
      let final_score :=
        fadd (fadd (confidence cand) (fmul (novelty_weight cfg) novelty_bonus))
             (fmul (diversity_weight cfg) diversity_bonus) in
      let rationale :=
        "confidence=" +:+ format_f 2 (confidence cand) +:+ ", "
        +:+ "novelty_bonus=" +:+ format_f 2 novelty_bonus
        +:+ " (w=" +:+ str_float (novelty_weight cfg) +:+ "), "
        +:+ "diversity_bonus=" +:+ format_f 2 diversity_bonus
        +:+ " (w=" +:+ str_float (diversity_weight cfg) +:+ "), "
        +:+ "final=" +:+ format_f 3 final_score in
      logger DEBUG "Candidate '%s/%s': %s"
        [ArgStr (String.substring 0 30 (bread_top cand));
         ArgStr (String.substring 0 30 (filling cand)); ArgStr rationale] ;;;
      let selected :=
        SelectedCandidate.mk cand final_score novelty_bonus diversity_bonus rationale in
      loop cfg candidates corpus_embeddings candidate_embeddings type_frequencies rest
        (match best with
         | None => Some selected
         | Some b =>
             if flt (SelectedCandidate.final_score b) final_score
             then Some selected else best
         end)
  end.

Definition select_candidate (candidates : list CandidateStructure)
    (corpus_embeddings candidate_embeddings : option (list (list float)))
    (type_frequencies : option (gmap string float))
    (config : option SelectionConfig)
  : M unit Exn (option SelectedCandidate.t) :=
  let cfg := default default_config config in
  match candidates with
  | [] => ret None
  | _ :: _ =>
      let viable :=
        List.filter (fun c => fle (min_confidence cfg) (confidence c)) candidates in
      match viable with
      | [] =>
          logger INFO "All %d candidates below min_confidence=%.2f"
            [ArgInt (Z.of_nat (length candidates)); ArgFloat (min_confidence cfg)] ;;;
          ret None
      | _ :: _ =>
          best <~ loop cfg candidates corpus_embeddings candidate_embeddings
                    type_frequencies viable None ;;
          match best with
          | Some b =>
              logger INFO "Selected candidate: type=%s, %s"
                [ArgStr (structure_type (SelectedCandidate.candidate b));
                 ArgStr (SelectedCandidate.rationale b)] ;;;
              ret best
          | None => ret best
          end
      end
  end.

(** The value a call returns, [None] when it raises. *)
Definition selected (candidates : list CandidateStructure)
    (corpus_embeddings candidate_embeddings : option (list (list float)))
    (type_frequencies : option (gmap string float))
    (config : option SelectionConfig) (w : World)
  : option (option SelectedCandidate.t) :=
  match select_candidate candidates corpus_embeddings candidate_embeddings
          type_frequencies config tt w with
  | (Returned r, _, _) => Some r
  | (Raised _, _, _) => None
  end.

(** The final score of a candidate when both bonuses are [1.0]. *)
Definition plain_score (cfg : SelectionConfig) (c : CandidateStructure) : float :=
  fadd (fadd (confidence c) (fmul (novelty_weight cfg) f1_0))
       (fmul (diversity_weight cfg) f1_0).

End Interpreter.

End selector.

(** * Properties of the state machine *)

Module StateMachineSpec.
Import state_machine.

(** ** Lookups in a row *)

Lemma contains_keys (row : Row) (event : string) :
  contains row event = true <-> event ∈ keys row.
Proof.
  unfold contains, keys. induction row as [|[k s] row IH]; simpl.
  - split; [discriminate | intros H; inversion H].
  - rewrite orb_true_iff, IH, elem_of_cons, String.eqb_eq. intuition congruence.
Qed.

Lemma contains_false_keys (row : Row) (event : string) :
  contains row event = false <-> event ∉ keys row.
Proof.
  rewrite <- contains_keys. destruct (contains row event); split; congruence.
Qed.

Lemma contains_getitem (row : Row) (event : string) :
  contains row event = true -> exists s, getitem row event = Some s.
Proof.
  unfold contains, getitem. induction row as [|[k s] row IH]; simpl; [discriminate|].
  destruct (String.eqb k event); simpl; eauto.
Qed.

(** ** The two ways a call of [transition] ends *)

Lemma transition_illegal (self : StateMachine) (event : string) data (w : World) :
  contains (TRANSITIONS (current_state self)) event = false ->
  transition event data self w =
    (Raised (InvalidTransition
               (InvalidTransitionError.__init__ (current_state self) event)),
     self, w).
Proof.
  intros H. unfold transition, can_transition, bind, get, ret, raise. simpl.
  rewrite H. reflexivity.
Qed.

(** The checkpoint a legal call appends. *)
Definition appended (self : StateMachine) (event : string)
    (data : option (gmap string Value)) (new_state : AgentState) (w : World)
  : StateCheckpoint.t :=
  StateCheckpoint.mk (uuid4_at w (ticks w)) (session_id self) new_state
    (now_at w (S (ticks w))) (data_or_empty data)
    (value (current_state self) +:+ " --[" +:+ event +:+ "]--> " +:+ value new_state).

Lemma transition_legal (self : StateMachine) (event : string) data (w : World) new_state :
  getitem (TRANSITIONS (current_state self)) event = Some new_state ->
  transition event data self w =
    (Returned new_state,
     mkStateMachine (session_id self) new_state
       (checkpoints self ++ [appended self event data new_state w]),
     emit (mkLog INFO "Transition: %s --[%s]--> %s"
             [ArgStr (value (current_state self)); ArgStr event;
              ArgStr (value new_state)])
          (tick (tick w))).
Proof.
  intros H. unfold transition, can_transition, bind, get, ret, raise. simpl.
  assert (Hc : contains (TRANSITIONS (current_state self)) event = true).
  { unfold contains, getitem in *.
    destruct (find _ _) as [kv|] eqn:Hf; [|discriminate].
    apply existsb_exists. exists kv. apply find_some in Hf. tauto. }
  rewrite Hc. simpl. rewrite H. reflexivity.
Qed.

(** Every call ends in one of these two ways. *)
Lemma transition_cases (self : StateMachine) (event : string) data (w : World) :
  (contains (TRANSITIONS (current_state self)) event = false /\
   transition event data self w =
     (Raised (InvalidTransition
                (InvalidTransitionError.__init__ (current_state self) event)),
      self, w))
  \/ (exists new_state,
        getitem (TRANSITIONS (current_state self)) event = Some new_state /\
        transition event data self w =
          (Returned new_state,
           mkStateMachine (session_id self) new_state
             (checkpoints self ++ [appended self event data new_state w]),
           emit (mkLog INFO "Transition: %s --[%s]--> %s"
                   [ArgStr (value (current_state self)); ArgStr event;
                    ArgStr (value new_state)])
                (tick (tick w)))).
Proof.
  destruct (contains (TRANSITIONS (current_state self)) event) eqn:Hc.
  - right. destruct (contains_getitem _ _ Hc) as [s Hs].
    exists s. split; [exact Hs | by apply transition_legal].
  - left. split; [reflexivity | by apply transition_illegal].
Qed.

Lemma recover_result (self : StateMachine) (c : StateCheckpoint.t) (w : World) :
  recover_from_checkpoint c self w =
    (Returned tt,
     mkStateMachine (StateCheckpoint.session_id c) (StateCheckpoint.state c)
       (checkpoints self ++ [c]),
     emit (mkLog INFO "Recovered to state %s from checkpoint %s"
             [ArgStr (value (StateCheckpoint.state c));
              ArgUUID (StateCheckpoint.checkpoint_id c)]) w).
Proof. reflexivity. Qed.

(** A newly built machine for the examples below. *)
Definition m0 : StateMachine := fst (__init__ None w0).

(** C1. For every state S and every event E that S's row of the
    transition table does not list, [transition(E)] on a machine whose
    current state is S raises [InvalidTransitionError]; the error carries
    the current state, the attempted event and, in its message, the list of
    the row's legal events; the machine, and so its [current_state], is
    left as it was. *)
Theorem transition_rejects_unlisted_event
    (S : AgentState) (E : string) (self : StateMachine) data (w : World) :
  current_state self = S ->
  E ∉ keys (TRANSITIONS S) ->
  exists err self',
    transition E data self w = (Raised (InvalidTransition err), self', w)
    /\ InvalidTransitionError.current_state err = S
    /\ InvalidTransitionError.event err = E
    /\ InvalidTransitionError.message err =
         "Invalid transition: " +:+ value S +:+ " + '" +:+ E +:+ "' (valid events: "
         +:+ repr_keys (keys (TRANSITIONS S)) +:+ ")"
    /\ current_state self' = S.
Proof.
  intros <- Hnot. apply contains_false_keys in Hnot.
  exists (InvalidTransitionError.__init__ (current_state self) E), self.
  split; [by apply transition_illegal|]. repeat split.
Qed.

Lemma transition_rejects_unlisted_event_witness :
  exists err self',
    transition "accepted" None m0 w0 = (Raised (InvalidTransition err), self', w0)
    /\ InvalidTransitionError.current_state err = IDLE
    /\ InvalidTransitionError.event err = "accepted"
    /\ InvalidTransitionError.message err =
         "Invalid transition: idle + 'accepted' (valid events: ['start_foraging', 'end_session'])"
    /\ current_state self' = IDLE.
Proof.
  apply (transition_rejects_unlisted_event IDLE "accepted" m0 None w0).
  - reflexivity.
  - apply contains_false_keys. reflexivity.
Defined.

(** C9. [SESSION_END] is terminal: on a machine whose current state is
    [SESSION_END], [can_transition] answers false for every event and
    [transition] raises [InvalidTransitionError] for every event and
    payload. *)
Theorem session_end_is_terminal
    (self : StateMachine) (event : string) data (w : World) :
  current_state self = SESSION_END ->
  can_transition event self w = (Returned false, self, w)
  /\ transition event data self w =
       (Raised (InvalidTransition
                  (InvalidTransitionError.__init__ SESSION_END event)),
        self, w).
Proof.
  intros H. split.
  - unfold can_transition, bind, get, ret. rewrite H. reflexivity.
  - rewrite <- H. apply transition_illegal. rewrite H. reflexivity.
Qed.

(** The machine after [end_session], in [SESSION_END]. *)
Definition m_end : StateMachine :=
  snd (fst (transition "end_session" None m0 (snd (__init__ None w0)))).

Lemma session_end_is_terminal_witness :
  can_transition "start_foraging" m_end w0 = (Returned false, m_end, w0)
  /\ transition "start_foraging" None m_end w0 =
       (Raised (InvalidTransition
                  (InvalidTransitionError.__init__ SESSION_END "start_foraging")),
        m_end, w0).
Proof.
  apply (session_end_is_terminal m_end "start_foraging" None w0). reflexivity.
Defined.

(** C10. A call of [transition] that raises appends no checkpoint: it
    raises [InvalidTransitionError], it does so exactly because the event is
    not in the current state's row, and the whole machine (its checkpoint
    log, its current state, its session id) and the world (no log line, no
    identifier drawn) are as before the call. *)
Theorem failed_transition_changes_nothing
    (self self' : StateMachine) (event : string) data (w w' : World) (e : Exn) :
  transition event data self w = (Raised e, self', w') ->
  checkpoints self' = checkpoints self
  /\ self' = self
  /\ w' = w
  /\ e = InvalidTransition (InvalidTransitionError.__init__ (current_state self) event)
  /\ event ∉ keys (TRANSITIONS (current_state self)).
Proof.
  intros H.
  destruct (transition_cases self event data w) as [[Hc Ht]|[s [_ Ht]]];
    rewrite Ht in H; [|discriminate].
  injection H as <- <- <-. apply contains_false_keys in Hc. by repeat split.
Qed.

(** A machine in [FORAGING] holding one checkpoint. *)
Definition m_foraging : StateMachine :=
  snd (fst (transition "start_foraging" None m0 (snd (__init__ None w0)))).

Lemma failed_transition_changes_nothing_witness :
  checkpoints m_foraging = checkpoints m_foraging
  /\ m_foraging = m_foraging
  /\ w0 = w0
  /\ InvalidTransition (InvalidTransitionError.__init__ FORAGING "stored") =
       InvalidTransition
         (InvalidTransitionError.__init__ (current_state m_foraging) "stored")
  /\ "stored" ∉ keys (TRANSITIONS (current_state m_foraging)).
Proof.
  apply (failed_transition_changes_nothing m_foraging m_foraging "stored" None w0 w0).
  reflexivity.
Defined.

(** ** The checkpoint log along a sequence of calls *)

(** The latest checkpoint, when there is one, records the machine's
    current state and session. *)
Definition latest_agrees (self : StateMachine) : Prop :=
  forall c, get_latest_checkpoint self = Some c ->
    StateCheckpoint.state c = current_state self
    /\ StateCheckpoint.session_id c = session_id self.

Lemma latest_snoc (self : StateMachine) sid s cs c :
  self = mkStateMachine sid s (cs ++ [c]) -> get_latest_checkpoint self = Some c.
Proof. intros ->. unfold get_latest_checkpoint. simpl. apply last_snoc. Qed.

Lemma transition_latest_agrees (self : StateMachine) event data (w : World) :
  latest_agrees self ->
  latest_agrees (snd (fst (transition event data self w))).
Proof.
  intros Hinv.
  destruct (transition_cases self event data w) as [[_ Ht]|[s [_ Ht]]];
    rewrite Ht; simpl; [exact Hinv|].
  intros c Hc. erewrite latest_snoc in Hc by reflexivity.
  injection Hc as <-. split; reflexivity.
Qed.

Lemma reachable_latest_agrees (self : StateMachine) :
  reachable self -> latest_agrees self.
Proof.
  induction 1 as [sid w|self event data w _ IH|self c w _ IH].
  - destruct sid; intros c Hc; discriminate.
  - by apply transition_latest_agrees.
  - rewrite recover_result. simpl. intros c' Hc.
    erewrite latest_snoc in Hc by reflexivity. injection Hc as <-. split; reflexivity.
Qed.

(** The number of calls that returned. *)
Definition returned (outcomes : list (Outcome Exn AgentState)) : nat :=
  length (List.filter is_returned outcomes).

(** Each call that returns appends one checkpoint, each call that raises
    none. *)
Lemma run_length calls : forall (self self' : StateMachine) (w w' : World) outcomes,
  run calls self w = (outcomes, self', w') ->
  length outcomes = length calls
  /\ length (checkpoints self') = (length (checkpoints self) + returned outcomes)%nat.
Proof.
  induction calls as [|[event data] calls IH]; intros self self' w w' outcomes H; simpl in H.
  - injection H as <- <- <-. simpl. unfold returned. simpl. lia.
  - destruct (transition event data self w) as [[o s1] w1] eqn:Ht.
    destruct (run calls s1 w1) as [[os s2] w2] eqn:Hr.
    injection H as <- <- <-.
    destruct (IH _ _ _ _ _ Hr) as [Hl Hc]. split; [simpl; lia|].
    rewrite Hc. unfold returned. simpl.
    destruct (transition_cases self event data w) as [[_ Ht']|[s [_ Ht']]];
      rewrite Ht' in Ht; injection Ht as <- <- <-; simpl; [lia|].
    rewrite length_app. simpl. lia.
Qed.

Lemma run_latest_agrees calls : forall (self self' : StateMachine) (w w' : World) outcomes,
  run calls self w = (outcomes, self', w') ->
  latest_agrees self -> latest_agrees self'.
Proof.
  induction calls as [|[event data] calls IH]; intros self self' w w' outcomes H Hinv;
    simpl in H.
  - by injection H as <- <- <-.
  - destruct (transition event data self w) as [[o s1] w1] eqn:Ht.
    destruct (run calls s1 w1) as [[os s2] w2] eqn:Hr.
    injection H as <- <- <-.
    apply (IH _ _ _ _ _ Hr).
    pose proof (transition_latest_agrees self event data w Hinv) as Hs.
    by rewrite Ht in Hs.
Qed.

Lemma forallb_returned outcomes :
  forallb is_returned outcomes = true -> returned outcomes = length outcomes.
Proof.
  unfold returned. induction outcomes as [|o os IH]; simpl; [done|].
  destruct (is_returned o); simpl; [|discriminate]. intros H. by rewrite IH.
Qed.

(** C2. After a sequence of N calls of [transition] on a newly built
    machine, all of which return (and no recovery), the checkpoint log has
    exactly N entries, and [get_latest_checkpoint()] is a checkpoint whose
    state is the machine's current state, or nothing when N = 0. *)
Theorem checkpoint_log_counts_transitions
    (calls : list (string * option (gmap string Value))) (sid : option UUID)
    (w w' : World) (self' : StateMachine) outcomes :
  run calls (fst (__init__ sid w)) (snd (__init__ sid w)) = (outcomes, self', w') ->
  forallb is_returned outcomes = true ->
  length (checkpoints self') = length calls
  /\ match get_latest_checkpoint self' with
     | Some c => calls <> [] /\ StateCheckpoint.state c = current_state self'
     | None => calls = []
     end.
Proof.
  intros Hrun Hall.
  destruct (run_length _ _ _ _ _ _ Hrun) as [Hl Hc].
  rewrite (forallb_returned _ Hall), Hl in Hc.
  assert (Hfresh : checkpoints (fst (__init__ sid w)) = []) by by destruct sid.
  rewrite Hfresh in Hc. simpl in Hc. split; [exact Hc|].
  assert (Hinv : latest_agrees self').
  { apply (run_latest_agrees _ _ _ _ _ _ Hrun). apply reachable_latest_agrees. constructor. }
  destruct (get_latest_checkpoint self') as [c|] eqn:Hlast.
  - split; [|by apply Hinv].
    intros ->. unfold get_latest_checkpoint in Hlast.
    destruct (checkpoints self'); [discriminate | simpl in Hc; lia].
  - unfold get_latest_checkpoint in Hlast. apply last_None in Hlast.
    rewrite Hlast in Hc. by destruct calls.
Qed.

(** The scenario of section 8: five transitions ending in [SESSION_END]. *)
Definition scenario : list (string * option (gmap string Value)) :=
  [("start_foraging", None); ("content_found", None); ("content_accepted", None);
   ("error", None); ("fatal", None)].

Lemma checkpoint_log_counts_transitions_witness :
  length (checkpoints (snd (fst (run scenario m0 (snd (__init__ None w0)))))) = 5%nat
  /\ match get_latest_checkpoint (snd (fst (run scenario m0 (snd (__init__ None w0))))) with
     | Some c =>
         scenario <> []
         /\ StateCheckpoint.state c =
              current_state (snd (fst (run scenario m0 (snd (__init__ None w0)))))
     | None => scenario = []
     end.
Proof.
  apply (checkpoint_log_counts_transitions scenario None w0
           (snd (run scenario m0 (snd (__init__ None w0))))
           (snd (fst (run scenario m0 (snd (__init__ None w0)))))
           (fst (fst (run scenario m0 (snd (__init__ None w0)))))).
  - reflexivity.
  - reflexivity.
Defined.

(** The happy path of the pipeline, as the test suite walks it: eight
    transitions from [IDLE] back to [IDLE], eight checkpoints. *)
Example full_pipeline_transitions :
  let calls := map (fun e => (e, None))
    ["start_foraging"; "content_found"; "content_accepted"; "candidates_found";
     "candidate_selected"; "assembly_complete"; "accepted"; "stored"] in
  fst (fst (run calls m0 w0)) =
    map Returned [FORAGING; PREPROCESSING; IDENTIFYING; SELECTING; ASSEMBLING;
                  VALIDATING; STORING; IDLE]
  /\ current_state (snd (fst (run calls m0 w0))) = IDLE
  /\ length (checkpoints (snd (fst (run calls m0 w0)))) = 8%nat.
Proof. repeat split. Qed.

(** ** Recovery *)

(** Two machines in the same state and session answer a sequence of calls
    alike: same outcomes (values returned and errors raised), same state
    and session afterwards, and checkpoints appended with the same
    content. *)
Lemma run_alike calls : forall (a b : StateMachine) (wa wb : World),
  current_state a = current_state b ->
  session_id a = session_id b ->
  exists new_a new_b : list StateCheckpoint.t,
    checkpoints (snd (fst (run calls a wa))) = checkpoints a ++ new_a
    /\ checkpoints (snd (fst (run calls b wb))) = checkpoints b ++ new_b
    /\ map content new_a = map content new_b
    /\ fst (fst (run calls a wa)) = fst (fst (run calls b wb))
    /\ current_state (snd (fst (run calls a wa))) = current_state (snd (fst (run calls b wb)))
    /\ session_id (snd (fst (run calls a wa))) = session_id (snd (fst (run calls b wb))).
Proof.
  induction calls as [|[event data] calls IH]; intros a b wa wb Hs Hi; simpl.
  - exists [], []. by rewrite !app_nil_r.
  - destruct (transition_cases a event data wa) as [[Hca Hta]|[sa [Hga Hta]]];
      destruct (transition_cases b event data wb) as [[Hcb Htb]|[sb [Hgb Htb]]];
      rewrite Hta, Htb.
    + destruct (IH a b wa wb Hs Hi) as (na & nb & Ha & Hb & Hn & Ho & Hs' & Hi').
      destruct (run calls a wa) as [[oa a'] wa'], (run calls b wb) as [[ob b'] wb'].
      simpl in *. exists na, nb. repeat split; try done. by rewrite Ho, Hs.
    + rewrite Hs in Hca. unfold contains, getitem in *.
      destruct (find _ _) as [kv|] eqn:Hf; [|discriminate].
      apply find_some in Hf. apply not_true_iff_false in Hca. destruct Hca.
      apply existsb_exists. exists kv. tauto.
    + rewrite <- Hs in Hcb. unfold contains, getitem in *.
      destruct (find _ _) as [kv|] eqn:Hf; [|discriminate].
      apply find_some in Hf. apply not_true_iff_false in Hcb. destruct Hcb.
      apply existsb_exists. exists kv. tauto.
    + assert (sa = sb) as <- by (rewrite Hs in Hga; congruence).
      set (a1 := mkStateMachine (session_id a) sa _).
      set (b1 := mkStateMachine (session_id b) sa _).
      match goal with |- context [run calls a1 ?w] => set (wa1 := w) end.
      match goal with |- context [run calls b1 ?w] => set (wb1 := w) end.
      destruct (IH a1 b1 wa1 wb1 eq_refl Hi) as (na & nb & Ha & Hb & Hn & Ho & Hs' & Hi').
      destruct (run calls a1 wa1) as [[oa a'] wa'], (run calls b1 wb1) as [[ob b'] wb'].
      simpl in *.
      exists (appended a event data sa wa :: na), (appended b event data sa wb :: nb).
      rewrite Ha, Hb, <- !app_assoc. simpl. repeat split; try done.
      * unfold content at 1 3. simpl. by rewrite Hn, Hs, Hi.
      * by rewrite Ho.
Qed.

(** C3. Let a checkpoint be the latest one of a machine in state X. A newly
    built machine recovered from it is in state X, has the session id of
    the original machine, and holds that checkpoint in its log; and from
    then on any sequence of [transition] calls has on it the outcomes it has
    on the original (same states returned, same errors raised), leaves both
    in the same state and session, and appends checkpoints of the same
    content (session, state, payload, description) to both logs. *)
Theorem recovery_resumes_session
    (orig : StateMachine) (c : StateCheckpoint.t) (sid : option UUID) (w : World) :
  reachable orig ->
  get_latest_checkpoint orig = Some c ->
  exists recovered w',
    recover_from_checkpoint c (fst (__init__ sid w)) (snd (__init__ sid w))
      = (Returned tt, recovered, w')
    /\ current_state recovered = current_state orig
    /\ session_id recovered = session_id orig
    /\ checkpoints recovered = [c]
    /\ forall calls w1 w2,
         fst (fst (run calls recovered w1)) = fst (fst (run calls orig w2))
         /\ current_state (snd (fst (run calls recovered w1))) =
              current_state (snd (fst (run calls orig w2)))
         /\ session_id (snd (fst (run calls recovered w1))) =
              session_id (snd (fst (run calls orig w2)))
         /\ map content (drop 1 (checkpoints (snd (fst (run calls recovered w1))))) =
              map content (drop (length (checkpoints orig))
                             (checkpoints (snd (fst (run calls orig w2))))).
Proof.
  intros Hreach Hlast.
  destruct (reachable_latest_agrees orig Hreach c Hlast) as [Hstate Hsid].
  rewrite recover_result.
  assert (Hfresh : checkpoints (fst (__init__ sid w)) = []) by by destruct sid.
  rewrite Hfresh. simpl.
  eexists _, _. split; [reflexivity|]. simpl. repeat split; try done.
  all: destruct (run_alike calls
         (mkStateMachine (StateCheckpoint.session_id c) (StateCheckpoint.state c) [c])
         orig w1 w2 Hstate Hsid) as (na & nb & Ha & Hb & Hn & Ho & Hs' & Hi'); try done.
  rewrite Ha, Hb. simpl. by rewrite drop_0, drop_app_length.
Qed.

(** The original machine of the crash-recovery test, in [ASSEMBLING]. *)
Definition m_assembling : StateMachine :=
  snd (fst (transition "candidate_selected"
              (Some {[ "bread_top" := VStr "Upper bound g(x)" ]})
     (snd (fst (transition "candidates_found" None
     (snd (fst (transition "content_accepted" None
     (snd (fst (transition "content_found" None
     (snd (fst (transition "start_foraging" None m0 w0))) w0))) w0))) w0))) w0)).

Definition c_assembling : StateCheckpoint.t :=
  StateCheckpoint.mk 0%N (session_id m0) ASSEMBLING 1%N
    {[ "bread_top" := VStr "Upper bound g(x)" ]}
    "selecting --[candidate_selected]--> assembling".

Lemma recovery_resumes_session_witness :
  exists recovered w',
    recover_from_checkpoint c_assembling (fst (__init__ None w0)) (snd (__init__ None w0))
      = (Returned tt, recovered, w')
    /\ current_state recovered = current_state m_assembling
    /\ session_id recovered = session_id m_assembling
    /\ checkpoints recovered = [c_assembling]
    /\ forall calls w1 w2,
         fst (fst (run calls recovered w1)) = fst (fst (run calls m_assembling w2))
         /\ current_state (snd (fst (run calls recovered w1))) =
              current_state (snd (fst (run calls m_assembling w2)))
         /\ session_id (snd (fst (run calls recovered w1))) =
              session_id (snd (fst (run calls m_assembling w2)))
         /\ map content (drop 1 (checkpoints (snd (fst (run calls recovered w1))))) =
              map content (drop (length (checkpoints m_assembling))
                             (checkpoints (snd (fst (run calls m_assembling w2))))).
Proof.
  apply (recovery_resumes_session m_assembling c_assembling None w0).
  - unfold m_assembling. do 5 apply reach_transition. apply reach_init.
  - vm_compute. reflexivity.
Defined.

End StateMachineSpec.

(** * Properties of the error router *)

Module ErrorHandlerSpec.
Import error_handler.

(** The routing never raises and writes exactly one log line. *)
Lemma determine_recovery_event_returns (error : SandwichError) (w : World) :
  exists ev r,
    determine_recovery_event error tt w = (Returned ev, tt, emit r w)
    /\ (ev = "fatal" \/ ev = "recovered").
Proof.
  unfold determine_recovery_event, isinstance.
  destruct (tag error); simpl; eexists _, _; split; try reflexivity; auto.
Qed.

(** C5. For every failure value the router returns ["fatal"] if and only if
    the failure is an instance of [FatalError] (flagged fatal); a failure
    flagged content-related, parse-related or retryable, and one of any
    other kind, is routed to ["recovered"]. The one log line written is at
    error severity for ["fatal"] and at warning severity otherwise. *)
Theorem fatal_iff_flagged_fatal (error : SandwichError) (w : World) :
  exists ev r,
    determine_recovery_event error tt w = (Returned ev, tt, emit r w)
    /\ (ev = "fatal" <-> isinstance error FatalError = true)
    /\ (isinstance error ContentError = true
        \/ isinstance error ParseError = true
        \/ isinstance error RetryableError = true
        \/ tag error = other -> ev = "recovered")
    /\ levelname r = (if isinstance error FatalError then ERROR else WARNING).
Proof.
  unfold determine_recovery_event, isinstance.
  destruct (tag error); simpl; eexists _, _; (split; [reflexivity|]); simpl;
    repeat split; try done; intros; intuition congruence.
Qed.

End ErrorHandlerSpec.

(** * Properties of the forager *)

Module ForagerSpec.
Import forager.

(** ** One call of [record_success] or [record_failure] *)

Lemma record_success_result (self : Forager) (w : World) :
  record_success self w =
    if (successes_to_promote (config self) <=? consecutive_successes self + 1)
       && (current_tier self <? max_tier self)
    then (Returned tt,
          mkForager (sources self) (config self) (current_tier self + 1) 0 0,
          emit (mkLog INFO "Tier promotion: %d → %d (after %d successes)"
                  [ArgInt (current_tier self); ArgInt (current_tier self + 1);
                   ArgInt (successes_to_promote (config self))]) w)
    else (Returned tt,
          mkForager (sources self) (config self) (current_tier self) 0
            (consecutive_successes self + 1),
          w).
Proof.
  unfold record_success, bind, get, put, ret, logger, max_tier. simpl.
  destruct (_ <=? _); simpl; [|reflexivity].
  destruct (_ <? _); reflexivity.
Qed.

Lemma record_failure_result (self : Forager) (w : World) :
  record_failure self w =
    if (failures_to_demote (config self) <=? consecutive_failures self + 1)
       && (1 <? current_tier self)
    then (Returned tt,
          mkForager (sources self) (config self) (current_tier self - 1) 0 0,
          emit (mkLog INFO "Tier demotion: %d → %d (after %d failures)"
                  [ArgInt (current_tier self); ArgInt (current_tier self - 1);
                   ArgInt (failures_to_demote (config self))]) w)
    else (Returned tt,
          mkForager (sources self) (config self) (current_tier self)
            (consecutive_failures self + 1) 0,
          w).
Proof.
  unfold record_failure, bind, get, put, ret, logger. simpl.
  destruct (_ <=? _); simpl; [|reflexivity].
  destruct (_ <? _); reflexivity.
Qed.

(** Neither call touches the configuration. *)
Lemma record_keeps_configuration (c : Call) (self : Forager) (w : World) :
  sources (snd (fst (record c self w))) = sources self
  /\ config (snd (fst (record c self w))) = config self.
Proof.
  destruct c; simpl; [rewrite record_success_result | rewrite record_failure_result];
    destruct (_ && _); by simpl.
Qed.

Lemma records_app (xs ys : list Call) : forall (self : Forager) (w : World),
  records (xs ++ ys) self w =
    records ys (fst (records xs self w)) (snd (records xs self w)).
Proof.
  induction xs as [|c xs IH]; intros self w; simpl; [done|].
  destruct (record c self w) as [[o s1] w1]. apply IH.
Qed.

(** ** The highest configured tier *)

Lemma max_key_fold (ks : list Z) :
  match foldr (fun k acc => Some (from_option (Z.max k) k acc)) None ks with
  | Some top => top ∈ ks /\ forall k, k ∈ ks -> k <= top
  | None => ks = []
  end.
Proof.
  induction ks as [|k ks IH]; simpl; [done|].
  destruct (foldr _ None ks) as [top|]; simpl.
  - destruct IH as [Hin Hmax]. split.
    + destruct (Z.max_spec k top) as [[_ ->]|[_ ->]]; [by right | by left].
    + intros k' [->|Hk']%elem_of_cons; [lia|]. specialize (Hmax _ Hk'). lia.
  - subst ks. split; [by left|]. intros k' [->|Hk']%elem_of_cons; [lia|].
    inversion Hk'.
Qed.

(** [max_key] is the largest key of a non-empty mapping. *)
Lemma max_key_Some (srcs : gmap Z (list ContentSource)) (top : Z) :
  max_key srcs = Some top ->
  top ∈ dom srcs /\ forall k, k ∈ dom srcs -> k <= top.
Proof.
  unfold max_key. intros H. pose proof (max_key_fold (elements (dom srcs))) as Hf.
  rewrite H in Hf. destruct Hf as [Hin Hmax]. split.
  - by apply elem_of_elements.
  - intros k Hk. apply Hmax. by apply elem_of_elements.
Qed.

Lemma max_key_None (srcs : gmap Z (list ContentSource)) :
  max_key srcs = None -> srcs = ∅.
Proof.
  unfold max_key. intros H. pose proof (max_key_fold (elements (dom srcs))) as Hf.
  rewrite H in Hf. apply elements_empty_inv in Hf.
  apply dom_empty_iff_L. by apply leibniz_equiv.
Qed.

(** ** Foraging without sources *)

Lemma walk_down_nothing (srcs : gmap Z (list ContentSource)) (n : nat) :
  (forall t, 1 <= t <= Z.of_nat n -> srcs !! t = None \/ srcs !! t = Some []) ->
  walk_down srcs n = [].
Proof.
  induction n as [|n IH]; intros H; [done|].
  change (walk_down srcs (S n)) with
    (match srcs !! Z.of_nat (S n) with
     | Some (s :: ss) => s :: ss
     | _ => walk_down srcs n
     end).
  destruct (H (Z.of_nat (S n)) ltac:(lia)) as [-> | ->]; apply IH; intros t Ht; apply H; lia.
Qed.

(** A forager built over no sources at all, with the default settings. *)
Definition f_bare : Forager := __init__ ∅ None.

(** C4, as the code has it. When every tier from [current_tier] down to 1
    is missing from the mapping or empty, [forage] raises nothing: it logs
    the warning "No sources available for tier %d" and returns [None], the
    absent result, leaving the forager as it was and calling no source. *)
Theorem forage_without_sources_returns_none
    (self : Forager) (curiosity : option string) (w : World) :
  (forall t, 1 <= t <= current_tier self ->
     sources self !! t = None \/ sources self !! t = Some []) ->
  forage curiosity self w =
    (Returned None, self,
     emit (mkLog WARNING "No sources available for tier %d"
             [ArgInt (current_tier self)]) w).
Proof.
  intros H. unfold forage, bind, get. simpl.
  unfold _get_tier_sources. rewrite walk_down_nothing; [reflexivity|].
  intros t Ht. apply H. lia.
Qed.

Lemma forage_without_sources_returns_none_witness :
  forage (Some "squeeze theorem") f_bare w0 =
    (Returned None, f_bare,
     emit (mkLog WARNING "No sources available for tier %d" [ArgInt 1]) w0).
Proof.
  apply (forage_without_sources_returns_none f_bare (Some "squeeze theorem") w0).
  intros t _. left. apply lookup_empty.
Defined.

(** C4 fails as stated: over an empty mapping, where no tier has a source,
    [forage] returns (the absent result) instead of raising. *)
Lemma forage_without_sources_does_not_raise :
  sources f_bare = ∅
  /\ _get_tier_sources f_bare = []
  /\ fst (fst (forage None f_bare w0)) = Returned None
  /\ is_returned (fst (fst (forage None f_bare w0))) = true.
Proof. repeat split. Qed.

(** ** Streaks *)

Ltac zbool :=
  repeat match goal with
  | H : (_ <=? _) = true |- _ => apply Z.leb_le in H
  | H : (_ <=? _) = false |- _ => apply Z.leb_gt in H
  | H : (_ <? _) = true |- _ => apply Z.ltb_lt in H
  | H : (_ <? _) = false |- _ => apply Z.ltb_ge in H
  end.

(** [j] failures in a row that stay below the demotion threshold only
    count. *)
Lemma failures_below_threshold (j : nat) : forall (self : Forager) (w : World),
  consecutive_failures self + Z.of_nat j < failures_to_demote (config self) ->
  records (replicate j Failure) self w =
    (match j with
     | O => self
     | S _ => mkForager (sources self) (config self) (current_tier self)
                (consecutive_failures self + Z.of_nat j) 0
     end, w).
Proof.
  induction j as [|j IH]; intros self w H; [done|].
  simpl replicate. simpl records. rewrite record_failure_result.
  destruct (_ <=? _) eqn:Hle; zbool; [exfalso; lia|]. simpl andb. cbv iota.
  rewrite IH by (simpl; lia).
  destruct j; cbn [sources config current_tier consecutive_failures consecutive_successes];
    do 2 f_equal; lia.
Qed.

(** The forager after [j] failures in a row and what is then recorded. *)
Definition after_failures (j : nat) (then_ : list Call) (self : Forager) (w : World)
  : Forager :=
  fst (records (replicate j Failure ++ then_) self w).

(** C7, as the code has it. Take a forager at tier T > 1 whose
    [consecutive_failures] is 0, with [failures_to_demote] at least 1.
    Fewer than [failures_to_demote] failures in a row leave it at tier T
    with that many failures counted, and exactly [failures_to_demote] of
    them bring it to tier T - 1 with [consecutive_failures] back to 0. A
    [record_success] call after j of those failures, 1 <= j <
    [failures_to_demote], resets [consecutive_failures] to 0; it leaves the
    tier at T when [successes_to_promote] is more than 1 or no tier above T
    is configured, and otherwise promotes the forager to T + 1. *)
Theorem demotion_after_failure_streak
    (self : Forager) (w : World) (T : Z) (k : nat) :
  current_tier self = T ->
  1 < T ->
  consecutive_failures self = 0 ->
  failures_to_demote (config self) = Z.of_nat k ->
  (1 <= k)%nat ->
  (forall j, (j < k)%nat ->
     current_tier (after_failures j [] self w) = T
     /\ consecutive_failures (after_failures j [] self w) = Z.of_nat j)
  /\ current_tier (after_failures k [] self w) = T - 1
  /\ consecutive_failures (after_failures k [] self w) = 0
  /\ (forall j, (1 <= j < k)%nat ->
       consecutive_failures (after_failures j [Success] self w) = 0
       /\ (1 < successes_to_promote (config self) \/ max_tier self <= T ->
           current_tier (after_failures j [Success] self w) = T)
       /\ (successes_to_promote (config self) <= 1 /\ T < max_tier self ->
           current_tier (after_failures j [Success] self w) = T + 1)).
Proof.
  intros HT Hgt Hcf Hk Hk1. unfold after_failures.
  assert (Hbelow : forall j, (j < k)%nat ->
            consecutive_failures self + Z.of_nat j < failures_to_demote (config self))
    by (intros; lia).
  split; [|split; [|split]].
  - intros j Hj. rewrite app_nil_r, failures_below_threshold by auto.
    destruct j; simpl; [split; [done | lia]|]. split; [done | lia].
  - destruct k as [|k]; [lia|].
    replace (replicate (S k) Failure) with (replicate k Failure ++ [Failure])
      by (rewrite <- replicate_S_end; done).
    rewrite app_nil_r, records_app, failures_below_threshold by (apply Hbelow; lia).
    simpl. rewrite record_failure_result.
    destruct k; simpl;
      destruct (_ <=? _) eqn:Hle; destruct (1 <? _) eqn:Hlt; zbool; simpl; lia.
  - destruct k as [|k]; [lia|].
    replace (replicate (S k) Failure) with (replicate k Failure ++ [Failure])
      by (rewrite <- replicate_S_end; done).
    rewrite app_nil_r, records_app, failures_below_threshold by (apply Hbelow; lia).
    simpl. rewrite record_failure_result.
    destruct k; simpl;
      destruct (_ <=? _) eqn:Hle; destruct (1 <? _) eqn:Hlt; zbool; simpl; lia.
  - intros j [Hj1 Hj]. rewrite records_app, failures_below_threshold by auto.
    destruct j as [|j]; [lia|]. simpl. rewrite record_success_result.
    unfold max_tier. simpl. fold (max_tier self).
    destruct (_ && _) eqn:Hb; simpl.
    + apply andb_true_iff in Hb as [Hs Hm]. apply Z.leb_le in Hs. apply Z.ltb_lt in Hm.
      repeat split; [lia | lia].
    + apply andb_false_iff in Hb as [Hs | Hm];
        [apply Z.leb_gt in Hs | apply Z.ltb_ge in Hm]; repeat split; lia.
Qed.

(** Three mock sources, one per tier. *)
Definition mock (name : string) (tier : Z) : ContentSource :=
  mkContentSource name tier
    (fun _ w => (Returned (mkSourceResult "Mock content" None None "text" ∅), w))
    (fun w => (Returned (mkSourceResult "Mock content" None None "text" ∅), w)).

Definition three_tiers : gmap Z (list ContentSource) :=
  {[ 1 := [mock "wiki" 1]; 2 := [mock "search" 2]; 3 := [mock "lab" 3] ]}.

(** At tier 2 with the default thresholds (5 successes, 3 failures). *)
Definition f_tier2 : Forager := mkForager three_tiers default_config 2 0 0.

Lemma demotion_after_failure_streak_witness :
  (forall j, (j < 3)%nat ->
     current_tier (after_failures j [] f_tier2 w0) = 2
     /\ consecutive_failures (after_failures j [] f_tier2 w0) = Z.of_nat j)
  /\ current_tier (after_failures 3 [] f_tier2 w0) = 2 - 1
  /\ consecutive_failures (after_failures 3 [] f_tier2 w0) = 0
  /\ (forall j, (1 <= j < 3)%nat ->
       consecutive_failures (after_failures j [Success] f_tier2 w0) = 0
       /\ (1 < successes_to_promote (config f_tier2) \/ max_tier f_tier2 <= 2 ->
           current_tier (after_failures j [Success] f_tier2 w0) = 2)
       /\ (successes_to_promote (config f_tier2) <= 1 /\ 2 < max_tier f_tier2 ->
           current_tier (after_failures j [Success] f_tier2 w0) = 2 + 1)).
Proof.
  apply (demotion_after_failure_streak f_tier2 w0 2 3); try reflexivity; lia.
Defined.

(** The same forager set to promote after a single success. *)
Definition f_eager : Forager :=
  mkForager three_tiers (mkForagerConfig 5 ["wikipedia"] ["web_search"] [] 1 3) 2 0 0.

(** C7 fails as stated: with [successes_to_promote = 1] and a tier above,
    a success interleaved after one failure (the threshold being 3) does
    change the tier, from 2 to 3. *)
Lemma interleaved_success_can_promote :
  current_tier f_eager = 2
  /\ consecutive_failures f_eager = 0
  /\ failures_to_demote (config f_eager) = 3
  /\ consecutive_failures (after_failures 1 [Success] f_eager w0) = 0
  /\ current_tier (after_failures 1 [Success] f_eager w0) = 3.
Proof. vm_compute. repeat split. Qed.

(** The tier tests of the suite: five successes promote from tier 1 to 2,
    and a forager with one tier neither promotes nor demotes. *)
Example tier_transition_up :
  current_tier (fst (records (replicate 4 Success) (__init__ three_tiers None) w0)) = 1
  /\ current_tier (fst (records (replicate 5 Success) (__init__ three_tiers None) w0)) = 2
  /\ consecutive_successes
       (fst (records (replicate 5 Success) (__init__ three_tiers None) w0)) = 0.
Proof. vm_compute. repeat split. Qed.

Example single_tier_stays :
  current_tier (fst (records [Success; Success; Success; Success; Success]
                       (__init__ {[ 1 := [mock "wiki" 1] ]} None) w0)) = 1
  /\ current_tier (fst (records [Failure; Failure; Failure]
                          (__init__ {[ 1 := [mock "wiki" 1] ]} None) w0)) = 1.
Proof. vm_compute. repeat split. Qed.

(** With a source at hand [forage] returns its content, under the name of
    the source and with the prompt used. *)
Example foraging_with_curiosity :
  (fun r => (source_name r, curiosity_prompt r, content (source_result r)))
    <$> match fst (fst (forage (Some "squeeze theorem")
                          (__init__ {[ 1 := [mock "wiki" 1] ]} None) w0)) with
        | Returned r => r
        | Raised _ => None
        end
  = Some ("wiki", Some "squeeze theorem", "Mock content").
Proof. vm_compute. reflexivity. Qed.

(** ** The tier range and the two streaks *)

(** What the two calls keep: the tier is at least 1 and at most the highest
    tier the promotion test compares with, or 1 where that is below 1; one
    of the two streaks is 0. *)
Definition within (self : Forager) : Prop :=
  1 <= current_tier self <= Z.max 1 (max_tier self)
  /\ (consecutive_successes self = 0 \/ consecutive_failures self = 0).

Lemma record_within (c : Call) (self : Forager) (w : World) :
  within self -> within (snd (fst (record c self w))).
Proof.
  unfold within. intros [Ht Hs].
  destruct c; simpl; [rewrite record_success_result | rewrite record_failure_result];
    destruct (_ && _) eqn:Hb; unfold max_tier in *; simpl;
    try (apply andb_true_iff in Hb as [H1 H2]; zbool; unfold max_tier in *);
    split; auto; lia.
Qed.

Lemma records_within (calls : list Call) : forall (self : Forager) (w : World),
  within self -> within (fst (records calls self w)).
Proof.
  induction calls as [|c calls IH]; intros self w H; simpl; [done|].
  pose proof (record_within c self w H) as H'.
  destruct (record c self w) as [[o s1] w1]. by apply IH.
Qed.

Lemma records_sources (calls : list Call) : forall (self : Forager) (w : World),
  sources (fst (records calls self w)) = sources self.
Proof.
  induction calls as [|c calls IH]; intros self w; simpl; [done|].
  pose proof (record_keeps_configuration c self w) as [H _].
  destruct (record c self w) as [[o s1] w1]. rewrite IH. exact H.
Qed.

(** C8, as the code has it. Start from a newly built forager (tier 1, both
    counters 0) over any mapping. After any sequence of [record_success]
    and [record_failure] calls, [current_tier] is at least 1 and at most
    the larger of 1 and the largest configured tier key: at most the
    largest key as soon as that key is 1 or more, and exactly 1 when the
    largest key is below 1 or no tier is configured. Whatever the mapping,
    [consecutive_successes] and [consecutive_failures] are not both
    nonzero. *)
Theorem tier_stays_within_configured_range
    (srcs : gmap Z (list ContentSource)) (cfg : option ForagerConfig)
    (calls : list Call) (w : World) :
  1 <= current_tier (fst (records calls (__init__ srcs cfg) w))
  /\ (forall top, top ∈ dom srcs -> (forall t, t ∈ dom srcs -> t <= top) ->
       current_tier (fst (records calls (__init__ srcs cfg) w)) <= Z.max 1 top
       /\ (1 <= top ->
           current_tier (fst (records calls (__init__ srcs cfg) w)) <= top)
       /\ (top < 1 ->
           current_tier (fst (records calls (__init__ srcs cfg) w)) = 1))
  /\ (srcs = ∅ -> current_tier (fst (records calls (__init__ srcs cfg) w)) = 1)
  /\ (consecutive_successes (fst (records calls (__init__ srcs cfg) w)) = 0
      \/ consecutive_failures (fst (records calls (__init__ srcs cfg) w)) = 0).
Proof.
  assert (Hinit : within (__init__ srcs cfg)).
  { unfold within. simpl. split; [lia | by left]. }
  destruct (records_within calls _ w Hinit) as [[Hlo Hhi] Hstreak].
  unfold max_tier in Hhi. rewrite records_sources in Hhi. simpl in Hhi.
  split; [exact Hlo|]. split; [|split; [|exact Hstreak]].
  - intros top Hin Hmax. destruct (max_key srcs) as [top'|] eqn:Hm; simpl in Hhi.
    + apply max_key_Some in Hm as [Hin' Hmax']. specialize (Hmax _ Hin').
      specialize (Hmax' _ Hin). lia.
    + apply max_key_None in Hm. subst srcs. by apply not_elem_of_empty in Hin.
  - intros ->. unfold max_key in Hhi. rewrite dom_empty_L, elements_empty in Hhi.
    simpl in Hhi. lia.
Qed.

(** The invariant at work on the three tiers of the test suite. *)
Example three_tiers_stay_in_range :
  current_tier (fst (records [Success; Failure; Success]
                       (__init__ three_tiers None) w0)) = 1
  /\ current_tier (fst (records (replicate 12 Success)
                          (__init__ three_tiers None) w0)) = 3.
Proof. vm_compute. split; reflexivity. Qed.

(** C8 fails as stated: the constructor accepts any integer keys, and over
    a mapping whose only tier key is 0 the newly built forager is at tier 1,
    above the largest configured key, before any call and after calls of
    either kind. *)
Lemma tier_above_a_nonpositive_key :
  max_key {[ 0 := [mock "wiki" 1] ]} = Some 0
  /\ current_tier (__init__ {[ 0 := [mock "wiki" 1] ]} None) = 1
  /\ (current_tier (__init__ {[ 0 := [mock "wiki" 1] ]} None) <=? 0) = false
  /\ (current_tier
        (fst (records [Success; Success; Success; Success; Success; Failure]
                (__init__ {[ 0 := [mock "wiki" 1] ]} None) w0)) <=? 0) = false.
Proof. vm_compute. repeat split. Qed.

End ForagerSpec.

(** * Properties of the selector *)

Module SelectorSpec.
Import selector.

(** ** The order of binary64 values *)

Ltac order_cases :=
  repeat match goal with
  | |- context [Pos.compare_cont Eq ?a ?b] =>
      change (Pos.compare_cont Eq a b) with (Pos.compare a b)
  | H : context [Pos.compare_cont Eq ?a ?b] |- _ =>
      change (Pos.compare_cont Eq a b) with (Pos.compare a b) in H
  end;
  repeat match goal with
  | H : context [Z.compare ?a ?b] |- _ => destruct (Z.compare_spec a b)
  | |- context [Z.compare ?a ?b] => destruct (Z.compare_spec a b)
  | H : context [Pos.compare ?a ?b] |- _ => destruct (Pos.compare_spec a b)
  | |- context [Pos.compare ?a ?b] => destruct (Pos.compare_spec a b)
  end;
  simpl in *; try congruence; try lia.

Ltac float_cases :=
  simpl; try congruence;
  repeat match goal with s : bool |- _ => destruct s end;
  simpl; try congruence.

Lemma SFcompare_lt_trans (x y z : float) :
  SFcompare x y = Some Lt -> SFcompare y z = Some Lt -> SFcompare x z = Some Lt.
Proof.
  destruct x as [sx|sx| |sx mx ex], y as [sy|sy| |sy my ey], z as [sz|sz| |sz mz ez];
    float_cases; intros H1 H2; order_cases.
Qed.

Lemma SFcompare_eq_lt_trans (x y z : float) :
  SFcompare x y = Some Eq -> SFcompare y z = Some Lt -> SFcompare x z = Some Lt.
Proof.
  destruct x as [sx|sx| |sx mx ex], y as [sy|sy| |sy my ey], z as [sz|sz| |sz mz ez];
    float_cases; intros H1 H2; order_cases.
Qed.

Lemma SFcompare_flip (x y : float) :
  SFcompare y x = option_map CompOpp (SFcompare x y).
Proof.
  destruct x as [sx|sx| |sx mx ex], y as [sy|sy| |sy my ey];
    float_cases; f_equal; order_cases.
Qed.

Lemma SFcompare_None (x y : float) :
  SFcompare x y = None -> x = S754_nan \/ y = S754_nan.
Proof. destruct x, y; simpl; auto; discriminate. Qed.

Lemma flt_trans (x y z : float) :
  flt x y = true -> flt y z = true -> flt x z = true.
Proof.
  unfold flt, SFltb. intros H1 H2.
  destruct (SFcompare x y) as [[]|] eqn:E1; try discriminate.
  destruct (SFcompare y z) as [[]|] eqn:E2; try discriminate.
  by rewrite (SFcompare_lt_trans _ _ _ E1 E2).
Qed.

Lemma fle_flt_trans (x y z : float) :
  fle x y = true -> flt y z = true -> flt x z = true.
Proof.
  unfold fle, flt, SFleb, SFltb. intros H1 H2.
  destruct (SFcompare y z) as [[]|] eqn:E2; try discriminate.
  destruct (SFcompare x y) as [[]|] eqn:E1; try discriminate.
  - by rewrite (SFcompare_eq_lt_trans _ _ _ E1 E2).
  - by rewrite (SFcompare_lt_trans _ _ _ E1 E2).
Qed.

Lemma SFcompare_lt_eq_trans (x y z : float) :
  SFcompare x y = Some Lt -> SFcompare y z = Some Eq -> SFcompare x z = Some Lt.
Proof.
  destruct x as [sx|sx| |sx mx ex], y as [sy|sy| |sy my ey], z as [sz|sz| |sz mz ez];
    float_cases; intros H1 H2; order_cases.
Qed.

Lemma flt_fle_trans (x y z : float) :
  flt x y = true -> fle y z = true -> flt x z = true.
Proof.
  unfold fle, flt, SFleb, SFltb. intros H1 H2.
  destruct (SFcompare x y) as [[]|] eqn:E1; try discriminate.
  destruct (SFcompare y z) as [[]|] eqn:E2; try discriminate.
  - by rewrite (SFcompare_lt_eq_trans _ _ _ E1 E2).
  - by rewrite (SFcompare_lt_trans _ _ _ E1 E2).
Qed.

Lemma flt_fle (a b : float) : flt a b = true -> fle a b = true.
Proof. unfold flt, fle, SFltb, SFleb. by destruct (SFcompare a b) as [[]|]. Qed.

(** What is strictly below is not at or above. *)
Lemma flt_not_fle (x y : float) : flt x y = true -> fle y x = false.
Proof.
  unfold fle, flt, SFleb, SFltb. rewrite (SFcompare_flip x y).
  by destruct (SFcompare x y) as [[]|].
Qed.

(** Of two values neither of which is NaN, one is below the other or they
    are equal. *)
Lemma not_flt_fle (x y : float) :
  x <> S754_nan -> y <> S754_nan -> flt x y = false -> fle y x = true.
Proof.
  unfold fle, flt, SFleb, SFltb. intros Hx Hy H. rewrite SFcompare_flip.
  destruct (SFcompare x y) as [[]|] eqn:E; try done.
  destruct (SFcompare_None _ _ E); contradiction.
Qed.

Lemma not_fle_flt (x y : float) :
  x <> S754_nan -> y <> S754_nan -> fle x y = false -> flt y x = true.
Proof.
  unfold fle, flt, SFleb, SFltb. intros Hx Hy H. rewrite SFcompare_flip.
  destruct (SFcompare x y) as [[]|] eqn:E; try done.
  destruct (SFcompare_None _ _ E); contradiction.
Qed.

(** Whatever passes a [>=] test is not NaN. *)
Lemma fle_not_nan (m x : float) : fle m x = true -> x <> S754_nan.
Proof. intros H ->. unfold fle, SFleb in H. by destruct m. Qed.

(** ** The loop without corpus or frequencies *)

(** The candidates that pass the confidence filter, in input order. *)
Definition viable (cfg : SelectionConfig) (candidates : list CandidateStructure)
  : list CandidateStructure :=
  List.filter (fun c => fle (min_confidence cfg) (confidence c)) candidates.

(** The running best of the loop when every bonus is [1.0]: a later
    candidate replaces the best one only on a strictly greater score. *)
Definition pick (cfg : SelectionConfig) (best : option CandidateStructure)
    (cands : list CandidateStructure) : option CandidateStructure :=
  fold_left
    (fun best cand =>
       match best with
       | None => Some cand
       | Some b =>
           if flt (plain_score cfg b) (plain_score cfg cand) then Some cand else Some b
       end)
    cands best.

(** A selection whose score is the plain one, both bonuses being [1.0]. *)
Definition plain (cfg : SelectionConfig) (r : option SelectedCandidate.t) : Prop :=
  match r with
  | Some b =>
      SelectedCandidate.final_score b = plain_score cfg (SelectedCandidate.candidate b)
      /\ SelectedCandidate.novelty_bonus b = f1_0
      /\ SelectedCandidate.diversity_bonus b = f1_0
  | None => True
  end.

(** [pick] keeps the first candidate of greatest score: seen from the best
    candidate so far, none of the candidates before it scores at least as
    high and none of those after it scores higher. This holds of the
    comparisons as the loop makes them, NaN scores included. *)
Lemma pick_splits (cfg : SelectionConfig) (rest : list CandidateStructure) :
  forall (before after : list CandidateStructure) (b : CandidateStructure),
    Forall (fun x => fle (plain_score cfg b) (plain_score cfg x) = false) before ->
    Forall (fun x => flt (plain_score cfg b) (plain_score cfg x) = false) after ->
    exists c before' after',
      pick cfg (Some b) rest = Some c
      /\ before ++ b :: after ++ rest = before' ++ c :: after'
      /\ Forall (fun x => fle (plain_score cfg c) (plain_score cfg x) = false) before'
      /\ Forall (fun x => flt (plain_score cfg c) (plain_score cfg x) = false) after'.
Proof.
  induction rest as [|n rest IH]; intros before after b Hb Ha.
  - exists b, before, after. by rewrite app_nil_r.
  - simpl.
    assert (E1 : (before ++ b :: after) ++ n :: [] ++ rest
                 = before ++ b :: after ++ n :: rest)
      by (rewrite <- app_assoc; reflexivity).
    assert (E2 : before ++ b :: (after ++ [n]) ++ rest
                 = before ++ b :: after ++ n :: rest)
      by (rewrite <- (app_assoc after); reflexivity).
    destruct (flt (plain_score cfg b) (plain_score cfg n)) eqn:Hlt.
    + destruct (IH (before ++ b :: after) [] n) as (c & b' & a' & Hp & Hs & Hb' & Ha').
      * apply Forall_app. split; [|apply Forall_cons; split].
        -- eapply Forall_impl; [exact Hb|]. intros x Hx. simpl in Hx.
           destruct (fle (plain_score cfg n) (plain_score cfg x)) eqn:Hnx; [|done].
           by rewrite (flt_fle _ _ (flt_fle_trans _ _ _ Hlt Hnx)) in Hx.
        -- by apply flt_not_fle.
        -- eapply Forall_impl; [exact Ha|]. intros x Hx. simpl in Hx.
           destruct (fle (plain_score cfg n) (plain_score cfg x)) eqn:Hnx; [|done].
           by rewrite (flt_fle_trans _ _ _ Hlt Hnx) in Hx.
      * constructor.
      * exists c, b', a'. repeat split; try done. by rewrite <- Hs, E1.
    + destruct (IH before (after ++ [n]) b) as (c & b' & a' & Hp & Hs & Hb' & Ha').
      * done.
      * apply Forall_app. split; [done|]. apply Forall_cons. split; [done|constructor].
      * exists c, b', a'. repeat split; try done. by rewrite <- Hs, E2.
Qed.

Section Interpreter.

Variable sum : list float -> float.
Variable pow_half : float -> float.
Variable format_f : nat -> float -> string.
Variable str_float : float -> string.

(** Without corpus embeddings and type frequencies the loop never raises,
    scores every candidate plainly and keeps what [pick] keeps. *)
Lemma loop_without_context (cfg : SelectionConfig)
    (candidates : list CandidateStructure)
    (candidate_embeddings : option (list (list float)))
    (vs : list CandidateStructure) :
  forall (best : option SelectedCandidate.t) (w : World),
    plain cfg best ->
    exists r w',
      loop sum pow_half format_f str_float cfg candidates None candidate_embeddings
        None vs best tt w = (Returned r, tt, w')
      /\ plain cfg r
      /\ SelectedCandidate.candidate <$> r
         = pick cfg (SelectedCandidate.candidate <$> best) vs.
Proof.
  induction vs as [|cand vs IH]; intros best w Hbest.
  - exists best, w. by repeat split.
  - simpl. unfold bind at 1. unfold novelty at 1. simpl. unfold bind at 1. simpl.
    match goal with
    | |- context [loop _ _ _ _ _ _ _ _ _ _ ?b tt ?w1] =>
        destruct (IH b w1) as (r & w' & Hr & Hp & Hc)
    end.
    + unfold plain in *.
      destruct best as [b|]; [destruct (flt _ _)|]; simpl; auto; repeat split.
    + exists r, w'. split; [exact Hr|]. split; [exact Hp|]. rewrite Hc.
      destruct best as [b|]; [|reflexivity]. destruct Hbest as (Hf & _). simpl.
      rewrite Hf. fold (plain_score cfg cand).
      destruct (flt (plain_score cfg (SelectedCandidate.candidate b))
                    (plain_score cfg cand)); reflexivity.
Qed.

(** C6, as the code has it. With no corpus embeddings and no type
    frequencies supplied, let the viable candidates be those whose
    confidence is at least [min_confidence]. If there is none (the list
    being empty or not) the result is absent. Otherwise the selector
    returns the first viable candidate of greatest final score, the final
    score of a candidate being [confidence + novelty_weight * 1.0 +
    diversity_weight * 1.0] computed in binary64: no viable candidate
    before it scores at least as high and none after it scores higher.
    Where no viable candidate's score is NaN, that is: every viable
    candidate before it scores strictly less and every one after it scores
    at most as much. Its score is that sum and both its bonuses are 1.0. *)
Theorem selection_without_context
    (candidates : list CandidateStructure)
    (candidate_embeddings : option (list (list float)))
    (config : option SelectionConfig) (w : World) :
  match viable (default default_config config) candidates with
  | [] =>
      selected sum pow_half format_f str_float candidates None candidate_embeddings
        None config w = Some None
  | _ :: _ =>
      exists r before after,
        selected sum pow_half format_f str_float candidates None candidate_embeddings
          None config w = Some (Some r)
        /\ viable (default default_config config) candidates
           = before ++ SelectedCandidate.candidate r :: after
        /\ Forall (fun x =>
             fle (plain_score (default default_config config) (SelectedCandidate.candidate r))
                 (plain_score (default default_config config) x) = false) before
        /\ Forall (fun x =>
             flt (plain_score (default default_config config) (SelectedCandidate.candidate r))
                 (plain_score (default default_config config) x) = false) after
        /\ (Forall (fun x => plain_score (default default_config config) x <> S754_nan)
              (viable (default default_config config) candidates) ->
            Forall (fun x =>
              flt (plain_score (default default_config config) x)
                  (plain_score (default default_config config)
                     (SelectedCandidate.candidate r)) = true) before
            /\ Forall (fun x =>
              fle (plain_score (default default_config config) x)
                  (plain_score (default default_config config)
                     (SelectedCandidate.candidate r)) = true) after)
        /\ plain (default default_config config) (Some r)
  end.
Proof.
  set (cfg := default default_config config).
  unfold selected, select_candidate. fold cfg. unfold viable in *.
  destruct candidates as [|c0 cs]; [reflexivity|].
  set (cands := c0 :: cs) in *.
  destruct (List.filter _ cands) as [|v vs] eqn:Hv; [reflexivity|].
  unfold bind at 1.
  destruct (loop_without_context cfg cands candidate_embeddings (v :: vs) None w I)
    as (r & w' & Hr & Hp & Hc).
  rewrite Hr. simpl in Hc.
  destruct (pick_splits cfg vs [] [] v) as (c & before & after & Hpick & Hs & Hb & Ha);
    try done.
  unfold pick in Hc, Hpick. rewrite Hpick in Hc.
  destruct r as [r|]; [|discriminate]. injection Hc as <-.
  exists r, before, after. destruct Hp as (Hf & Hn & Hd).
  split; [reflexivity|]. split; [exact Hs|]. split; [exact Hb|]. split; [exact Ha|].
  split; [|by repeat split].
  simpl in Hs. rewrite Hs. intros Hnan.
  apply Forall_app in Hnan as [Hnb Hnr]. apply Forall_cons in Hnr as [Hnr Hna].
  split.
  - apply Forall_forall. intros x Hx. rewrite Forall_forall in Hb, Hnb.
    apply not_fle_flt; auto.
  - apply Forall_forall. intros x Hx. rewrite Forall_forall in Ha, Hna.
    apply not_flt_fle; auto.
Qed.

End Interpreter.

(** ** Examples *)

Definition f0_6 : float := S754_finite false 5404319552844595 (-53).
Definition f0_9 : float := S754_finite false 8106479329266893 (-53).
Definition f0_7 : float := S754_finite false 6305039478318694 (-53).
(** The binary64 value next above 0.7, printed 0.7000000000000001. *)
Definition f0_7_up : float := S754_finite false 6305039478318695 (-53).
Definition f1_4 : float := S754_finite false 6305039478318694 (-52).
Definition f1_2 : float := S754_finite false 5404319552844595 (-52).

(** The candidates of the section 8 scenario and of the selector test. *)
Definition c_bound : CandidateStructure := mkCandidate "A" "B" "C" "bound" f0_6 "ok".
Definition c_temporal : CandidateStructure :=
  mkCandidate "D" "E" "F" "temporal" f0_9 "great".
Definition c_dialectic : CandidateStructure :=
  mkCandidate "G" "H" "I" "dialectic" f0_7 "good".
Definition c_dialectic_up : CandidateStructure :=
  mkCandidate "J" "K" "L" "dialectic" f0_7_up "better".

(** A stand-in interpreter for running examples: what it answers for
    sums, square roots and float rendering plays no part in which
    candidate is returned when no corpus is supplied. *)
Definition select0 (candidates : list CandidateStructure)
  : option (option SelectedCandidate.t) :=
  selected (fun _ => f0_0) (fun x => x) (fun _ _ => EmptyString) (fun _ => EmptyString)
    candidates None None None None w0.

Lemma selection_without_context_witness :
  exists r before after,
    select0 [c_bound; c_temporal; c_dialectic] = Some (Some r)
    /\ viable default_config [c_bound; c_temporal; c_dialectic]
       = before ++ SelectedCandidate.candidate r :: after
    /\ Forall (fun x =>
         fle (plain_score default_config (SelectedCandidate.candidate r))
             (plain_score default_config x) = false) before
    /\ Forall (fun x =>
         flt (plain_score default_config (SelectedCandidate.candidate r))
             (plain_score default_config x) = false) after
    /\ (Forall (fun x => plain_score default_config x <> S754_nan)
          (viable default_config [c_bound; c_temporal; c_dialectic]) ->
        Forall (fun x =>
          flt (plain_score default_config x)
              (plain_score default_config (SelectedCandidate.candidate r)) = true) before
        /\ Forall (fun x =>
          fle (plain_score default_config x)
              (plain_score default_config (SelectedCandidate.candidate r)) = true) after)
    /\ plain default_config (Some r).
Proof.
  exact (selection_without_context (fun _ => f0_0) (fun x => x) (fun _ _ => EmptyString)
           (fun _ => EmptyString) [c_bound; c_temporal; c_dialectic] None None w0).
Defined.

(** The scenario of section 8: confidences 0.6, 0.9, 0.7 and no corpus
    context; the 0.9 candidate is returned, with final score 1.4. *)
Example scenario_returns_the_0_9_candidate :
  SelectedCandidate.candidate <$> mjoin (select0 [c_bound; c_temporal; c_dialectic])
    = Some c_temporal
  /\ SelectedCandidate.final_score <$> mjoin (select0 [c_bound; c_temporal; c_dialectic])
    = Some f1_4.
Proof. vm_compute. split; reflexivity. Qed.

(** Two confidences that round to one score do not keep a greater score
    from winning: after 0.7 and the value next above it, the 0.9 candidate
    is still the one returned. *)
Example equal_scores_do_not_hide_the_0_9_candidate :
  SelectedCandidate.candidate
    <$> mjoin (select0 [c_dialectic; c_dialectic_up; c_temporal])
  = Some c_temporal.
Proof. vm_compute. reflexivity. Qed.

(** C6 fails as stated: 0.7 and the next binary64 value above it both pass
    the default [min_confidence], but adding the bonus terms rounds both
    final scores to 1.2, so the first candidate is kept although the second
    has the greater confidence. *)
Lemma rounding_hides_the_greater_confidence :
  viable default_config [c_dialectic; c_dialectic_up] = [c_dialectic; c_dialectic_up]
  /\ flt (confidence c_dialectic) (confidence c_dialectic_up) = true
  /\ plain_score default_config c_dialectic = f1_2
  /\ plain_score default_config c_dialectic_up = f1_2
  /\ SelectedCandidate.candidate <$> mjoin (select0 [c_dialectic; c_dialectic_up])
     = Some c_dialectic.
Proof. vm_compute. repeat split. Qed.

End SelectorSpec.

(** * The float literals *)

(** The constants written above by mantissa and exponent are the binary64
    values the decimal literals of the sources denote. *)
Module FloatLiterals.
Import PrimFloat.
Local Set Warnings "-inexact-float".

Lemma literals_of_selector :
  FloatOps.Prim2SF 0.0%float = selector.f0_0
  /\ FloatOps.Prim2SF 1.0%float = selector.f1_0
  /\ FloatOps.Prim2SF 0.4%float = selector.f0_4
  /\ FloatOps.Prim2SF 0.3%float = selector.f0_3
  /\ FloatOps.Prim2SF 0.2%float = selector.f0_2.
Proof. vm_compute. repeat split. Qed.

Lemma literals_of_examples :
  FloatOps.Prim2SF 0.6%float = SelectorSpec.f0_6
  /\ FloatOps.Prim2SF 0.9%float = SelectorSpec.f0_9
  /\ FloatOps.Prim2SF 0.7%float = SelectorSpec.f0_7
  /\ FloatOps.Prim2SF 0.7000000000000001%float = SelectorSpec.f0_7_up
  /\ FloatOps.Prim2SF 1.4%float = SelectorSpec.f1_4
  /\ FloatOps.Prim2SF 1.2%float = SelectorSpec.f1_2.
Proof. vm_compute. repeat split. Qed.

End FloatLiterals.

(** * Further properties of the state machine *)

Module StateMachineExtra.
Import state_machine StateMachineSpec.

(** ** [can_transition] against [transition] *)

(** X1. [can_transition(event)] changes nothing, and it answers [True] exactly
    when [transition(event, data)] returns rather than raises; the state
    returned is then the table's entry, which becomes the current state. *)
Theorem can_transition_predicts_transition
    (self : StateMachine) (event : string) data (w : World) :
  exists b,
    can_transition event self w = (Returned b, self, w)
    /\ (b = true <-> is_returned (fst (fst (transition event data self w))) = true)
    /\ (b = true ->
        exists new_state,
          getitem (TRANSITIONS (current_state self)) event = Some new_state
          /\ fst (fst (transition event data self w)) = Returned new_state
          /\ current_state (snd (fst (transition event data self w))) = new_state).
Proof.
  exists (contains (TRANSITIONS (current_state self)) event).
  split; [reflexivity|].
  destruct (transition_cases self event data w) as [[Hc Ht]|[s [Hg Ht]]]; rewrite Ht; simpl.
  - rewrite Hc. split; [split; discriminate | discriminate].
  - assert (Hc : contains (TRANSITIONS (current_state self)) event = true).
    { unfold contains, getitem in *.
      destruct (find _ _) as [kv|] eqn:Hf; [|discriminate].
      apply existsb_exists. exists kv. apply find_some in Hf. tauto. }
    rewrite Hc. split; [done|]. intros _. by exists s.
Qed.

(** ** The log under transitions and recoveries *)

(** The two mutating methods. *)
Inductive Op : Type :=
| Transition (event : string) (data : option (gmap string Value))
| Recover (checkpoint : StateCheckpoint.t).

(** A caller issuing a sequence of them, catching what is raised. *)
Fixpoint drive (ops : list Op) (self : StateMachine) (w : World)
  : StateMachine * World :=
  match ops with
  | [] => (self, w)
  | Transition event data :: rest =>
      drive rest (snd (fst (transition event data self w)))
        (snd (transition event data self w))
  | Recover checkpoint :: rest =>
      drive rest (snd (fst (recover_from_checkpoint checkpoint self w)))
        (snd (recover_from_checkpoint checkpoint self w))
  end.

(** X2. Whatever is called, checkpoints are only ever appended: the log before
    is a prefix of the log after, so no recorded checkpoint is dropped,
    reordered or rewritten. *)
Theorem log_is_append_only (ops : list Op) :
  forall (self : StateMachine) (w : World),
    checkpoints self `prefix_of` checkpoints (fst (drive ops self w)).
Proof.
  induction ops as [|[event data|c] ops IH]; intros self w; cbn [drive].
  - done.
  - etrans; [|apply IH].
    destruct (transition_cases self event data w) as [[_ Ht]|[s [_ Ht]]];
      rewrite Ht; simpl; [done | by apply prefix_app_r].
  - etrans; [|apply IH]. rewrite recover_result. simpl. by apply prefix_app_r.
Qed.

(** What holds of a machine whatever was called on it: a latest
    checkpoint records its state and session, and without any checkpoint it
    is still in [IDLE]. *)
Definition resumable (self : StateMachine) : Prop :=
  match get_latest_checkpoint self with
  | Some c =>
      StateCheckpoint.state c = current_state self
      /\ StateCheckpoint.session_id c = session_id self
  | None => current_state self = IDLE /\ checkpoints self = []
  end.

Lemma drive_resumable (ops : list Op) : forall (self : StateMachine) (w : World),
  resumable self -> resumable (fst (drive ops self w)).
Proof.
  induction ops as [|[event data|c] ops IH]; intros self w H; cbn [drive]; [done|..];
    apply IH.
  - destruct (transition_cases self event data w) as [[_ Ht]|[s [_ Ht]]];
      rewrite Ht; simpl; [done|].
    unfold resumable. erewrite latest_snoc by reflexivity. done.
  - rewrite recover_result. simpl. unfold resumable.
    erewrite latest_snoc by reflexivity. done.
Qed.

(** X3. Whatever mix of transitions (returning or raising) and recoveries a
    machine has been through since it was built, its latest checkpoint
    records the current state and the session id, so resuming from it
    resumes where the machine is; and a machine without any checkpoint is
    still in [IDLE]. *)
Theorem latest_checkpoint_always_agrees
    (ops : list Op) (sid : option UUID) (w : World) :
  match get_latest_checkpoint
          (fst (drive ops (fst (__init__ sid w)) (snd (__init__ sid w)))) with
  | Some c =>
      StateCheckpoint.state c
        = current_state (fst (drive ops (fst (__init__ sid w)) (snd (__init__ sid w))))
      /\ StateCheckpoint.session_id c
        = session_id (fst (drive ops (fst (__init__ sid w)) (snd (__init__ sid w))))
  | None =>
      current_state (fst (drive ops (fst (__init__ sid w)) (snd (__init__ sid w)))) = IDLE
      /\ checkpoints (fst (drive ops (fst (__init__ sid w)) (snd (__init__ sid w)))) = []
  end.
Proof.
  apply (drive_resumable ops (fst (__init__ sid w)) (snd (__init__ sid w))).
  by destruct sid.
Qed.

(** ** Replaying the log of a session that never recovered *)

(** A checkpoint records a legal step out of [prev]: its state is the
    table's entry for some event of [prev]'s row, and its description names
    that step. *)
Definition recorded_step (prev : AgentState) (c : StateCheckpoint.t) : Prop :=
  exists event,
    getitem (TRANSITIONS prev) event = Some (StateCheckpoint.state c)
    /\ StateCheckpoint.transition_reason c =
         value prev +:+ " --[" +:+ event +:+ "]--> " +:+ value (StateCheckpoint.state c).

(** A log replays from [start]: each checkpoint records a legal step out
    of the state of the one before it. *)
Fixpoint replays (start : AgentState) (log : list StateCheckpoint.t) : Prop :=
  match log with
  | [] => True
  | c :: rest => recorded_step start c /\ replays (StateCheckpoint.state c) rest
  end.

(** The state a replay from [start] ends in. *)
Definition end_state (start : AgentState) (log : list StateCheckpoint.t) : AgentState :=
  from_option StateCheckpoint.state start (last log).

Lemma replays_snoc (log : list StateCheckpoint.t) :
  forall (start : AgentState) (c : StateCheckpoint.t),
    replays start log -> recorded_step (end_state start log) c ->
    replays start (log ++ [c]).
Proof.
  unfold end_state.
  induction log as [|c0 log IH]; intros start c Hr Hs.
  - by split.
  - destruct Hr as [H0 Hr]. change ((c0 :: log) ++ [c]) with (c0 :: (log ++ [c])).
    split; [done|]. apply IH; [done|].
    destruct log as [|c1 log]; [done|]. rewrite last_cons_cons in Hs.
    destruct (last (c1 :: log)) as [x|] eqn:Hl; [done|].
    by apply last_None in Hl.
Qed.

(** What a session keeps true as long as it only transitions. *)
Definition coherent (sid : UUID) (self : StateMachine) : Prop :=
  session_id self = sid
  /\ current_state self = end_state IDLE (checkpoints self)
  /\ replays IDLE (checkpoints self)
  /\ Forall (fun c => StateCheckpoint.session_id c = sid) (checkpoints self).

Lemma transition_coherent (sid : UUID) (self : StateMachine) event data (w : World) :
  coherent sid self -> coherent sid (snd (fst (transition event data self w))).
Proof.
  intros (Hsid & Hcur & Hrep & Hall).
  destruct (transition_cases self event data w) as [[_ Ht]|[s [Hg Ht]]];
    rewrite Ht; simpl; [done|].
  repeat split; simpl.
  - done.
  - unfold end_state. by rewrite last_snoc.
  - apply replays_snoc; [done|]. rewrite <- Hcur. by exists event.
  - apply Forall_app. split; [done|]. by repeat constructor.
Qed.

Lemma run_coherent (sid : UUID) calls : forall (self : StateMachine) (w : World),
  coherent sid self -> coherent sid (snd (fst (run calls self w))).
Proof.
  induction calls as [|[event data] calls IH]; intros self w H; simpl; [done|].
  pose proof (transition_coherent sid self event data w H) as H1.
  destruct (transition event data self w) as [[o s1] w1]. simpl in H1.
  specialize (IH s1 w1 H1). by destruct (run calls s1 w1) as [[os s2] w2].
Qed.

Lemma init_coherent (sid : option UUID) (w : World) :
  coherent (session_id (fst (__init__ sid w))) (fst (__init__ sid w)).
Proof. destruct sid; by repeat split. Qed.

(** X4. A session that only transitions can be replayed from its log: starting
    from [IDLE], every checkpoint records a legal step of the transition
    table out of the state of the checkpoint before it, with the matching
    description, and the machine is in the state the replay ends in. *)
Theorem log_replays_from_idle
    (calls : list (string * option (gmap string Value))) (sid : option UUID) (w : World) :
  replays IDLE
    (checkpoints (snd (fst (run calls (fst (__init__ sid w)) (snd (__init__ sid w))))))
  /\ current_state (snd (fst (run calls (fst (__init__ sid w)) (snd (__init__ sid w)))))
     = end_state IDLE
         (checkpoints (snd (fst (run calls (fst (__init__ sid w)) (snd (__init__ sid w)))))).
Proof.
  destruct (run_coherent _ calls _ (snd (__init__ sid w)) (init_coherent sid w))
    as (_ & Hcur & Hrep & _).
  by split.
Qed.

(** X5. Without a recovery the session id never changes, and every checkpoint
    of the log carries it. *)
Theorem session_id_is_stable
    (calls : list (string * option (gmap string Value))) (sid : option UUID) (w : World) :
  session_id (snd (fst (run calls (fst (__init__ sid w)) (snd (__init__ sid w)))))
    = session_id (fst (__init__ sid w))
  /\ Forall (fun c => StateCheckpoint.session_id c = session_id (fst (__init__ sid w)))
       (checkpoints (snd (fst (run calls (fst (__init__ sid w)) (snd (__init__ sid w)))))).
Proof.
  destruct (run_coherent _ calls _ (snd (__init__ sid w)) (init_coherent sid w))
    as (Hsid & _ & _ & Hall).
  by split.
Qed.

Lemma replays_nothing_after_end (log : list StateCheckpoint.t) :
  forall (start : AgentState) (before after : list StateCheckpoint.t)
         (c : StateCheckpoint.t),
    replays start log -> log = before ++ c :: after ->
    StateCheckpoint.state c = SESSION_END -> after = [].
Proof.
  induction log as [|c0 log IH]; intros start before after c Hr Heq Hend.
  - by destruct before.
  - destruct Hr as [_ Hr]. destruct before as [|b before]; simpl in Heq.
    + injection Heq as -> ->. destruct after as [|c' after]; [done|].
      destruct Hr as [[event [Hg _]] _]. rewrite Hend in Hg. discriminate.
    + injection Heq as -> ->. by eapply IH.
Qed.

(** X6. A session that only transitions records nothing after the session
    ended: a checkpoint whose state is [SESSION_END] is the last of the
    log. *)
Theorem nothing_recorded_after_session_end
    (calls : list (string * option (gmap string Value))) (sid : option UUID) (w : World)
    (before after : list StateCheckpoint.t) (c : StateCheckpoint.t) :
  checkpoints (snd (fst (run calls (fst (__init__ sid w)) (snd (__init__ sid w)))))
    = before ++ c :: after ->
  StateCheckpoint.state c = SESSION_END ->
  after = [].
Proof.
  intros Heq Hend.
  destruct (run_coherent _ calls _ (snd (__init__ sid w)) (init_coherent sid w))
    as (_ & _ & Hrep & _).
  by eapply replays_nothing_after_end.
Qed.

(** The section 8 scenario, whose fifth checkpoint ends the session. *)
Definition c_fatal : StateCheckpoint.t :=
  StateCheckpoint.mk 9%N 0%N SESSION_END 10%N ∅
    "error_recovery --[fatal]--> session_end".

Lemma nothing_recorded_after_session_end_witness :
  @nil StateCheckpoint.t = [].
Proof.
  apply (nothing_recorded_after_session_end scenario None w0
           (take 4 (checkpoints (snd (fst (run scenario m0 (snd (__init__ None w0)))))))
           [] c_fatal).
  - vm_compute. reflexivity.
  - reflexivity.
Defined.

(** ** The shape of the transition table *)

(** Following a sequence of events through the table. *)
Fixpoint walk (s : AgentState) (events : list string) : option AgentState :=
  match events with
  | [] => Some s
  | event :: rest =>
      match getitem (TRANSITIONS s) event with
      | Some s' => walk s' rest
      | None => None
      end
  end.

(** The calls that pass these events, each without payload. *)
Definition bare (events : list string) : list (string * option (gmap string Value)) :=
  map (fun event => (event, None)) events.

(** A walk through the table is a sequence of calls that all return. *)
Lemma run_walk (events : list string) :
  forall (self : StateMachine) (w : World) (s' : AgentState),
    walk (current_state self) events = Some s' ->
    forallb is_returned (fst (fst (run (bare events) self w))) = true
    /\ current_state (snd (fst (run (bare events) self w))) = s'.
Proof.
  induction events as [|event events IH]; intros self w s' H; simpl in *.
  - by injection H as <-.
  - destruct (getitem (TRANSITIONS (current_state self)) event) as [s1|] eqn:Hg;
      [|discriminate].
    rewrite (transition_legal self event None w s1 Hg).
    match goal with |- context [run (bare events) ?m ?w1] =>
      destruct (IH m w1 s' H) as [Hall Hcur];
      destruct (run (bare events) m w1) as [[os m2] w2]
    end.
    by split.
Qed.

(** X7. No state but [SESSION_END] is a dead end: a machine whose session has
    not ended can be brought back to [IDLE], and can be brought to
    [SESSION_END], by at most two calls of [transition] that all return. *)
Theorem live_state_reaches_idle_and_end (self : StateMachine) (w : World) :
  current_state self <> SESSION_END ->
  (exists events,
     (length events <= 2)%nat
     /\ forallb is_returned (fst (fst (run (bare events) self w))) = true
     /\ current_state (snd (fst (run (bare events) self w))) = IDLE)
  /\ (exists events,
       (length events <= 2)%nat
       /\ forallb is_returned (fst (fst (run (bare events) self w))) = true
       /\ current_state (snd (fst (run (bare events) self w))) = SESSION_END).
Proof.
  intros Hlive. split.
  - destruct (current_state self) eqn:E; try done;
      [ exists []
      | exists ["forage_failed"] | exists ["content_rejected"] | exists ["no_candidates"]
      | exists ["none_viable"] | exists ["error"; "recovered"] | exists ["rejected"]
      | exists ["stored"] | exists ["recovered"] ];
      (split; [simpl; lia | apply run_walk; rewrite E; reflexivity]).
  - destruct (current_state self) eqn:E; try done;
      [ exists ["end_session"]
      | exists ["error"; "fatal"] | exists ["error"; "fatal"] | exists ["error"; "fatal"]
      | exists ["error"; "fatal"] | exists ["error"; "fatal"] | exists ["error"; "fatal"]
      | exists ["error"; "fatal"] | exists ["fatal"] ];
      (split; [simpl; lia | apply run_walk; rewrite E; reflexivity]).
Qed.

Lemma live_state_reaches_idle_and_end_witness :
  (exists events,
     (length events <= 2)%nat
     /\ forallb is_returned (fst (fst (run (bare events) m_assembling w0))) = true
     /\ current_state (snd (fst (run (bare events) m_assembling w0))) = IDLE)
  /\ (exists events,
       (length events <= 2)%nat
       /\ forallb is_returned (fst (fst (run (bare events) m_assembling w0))) = true
       /\ current_state (snd (fst (run (bare events) m_assembling w0))) = SESSION_END).
Proof.
  apply (live_state_reaches_idle_and_end m_assembling w0). discriminate.
Defined.

(** X8. Every state of the table can be reached: from a newly built machine
    some sequence of at most seven calls of [transition], all returning,
    leads to it. *)
Theorem every_state_is_reachable (s : AgentState) (sid : option UUID) (w : World) :
  exists events,
    (length events <= 7)%nat
    /\ forallb is_returned
         (fst (fst (run (bare events) (fst (__init__ sid w)) (snd (__init__ sid w))))) = true
    /\ current_state
         (snd (fst (run (bare events) (fst (__init__ sid w)) (snd (__init__ sid w))))) = s.
Proof.
  assert (Hidle : current_state (fst (__init__ sid w)) = IDLE) by by destruct sid.
  destruct s;
    [ exists []
    | exists ["start_foraging"]
    | exists ["start_foraging"; "content_found"]
    | exists ["start_foraging"; "content_found"; "content_accepted"]
    | exists ["start_foraging"; "content_found"; "content_accepted"; "candidates_found"]
    | exists ["start_foraging"; "content_found"; "content_accepted"; "candidates_found";
              "candidate_selected"]
    | exists ["start_foraging"; "content_found"; "content_accepted"; "candidates_found";
              "candidate_selected"; "assembly_complete"]
    | exists ["start_foraging"; "content_found"; "content_accepted"; "candidates_found";
              "candidate_selected"; "assembly_complete"; "accepted"]
    | exists ["start_foraging"; "error"]
    | exists ["end_session"] ];
    (split; [simpl; lia | apply run_walk; rewrite Hidle; reflexivity]).
Qed.

(** ** Routing an error into the machine *)

(** X9. In [ERROR_RECOVERY] the event the error router returns is always a
    legal one: passing it to [transition] returns, ending the session when
    the failure is fatal and going back to [IDLE] otherwise. *)
Theorem routed_error_is_a_legal_event
    (self : StateMachine) (error : error_handler.SandwichError) data (w : World) :
  current_state self = ERROR_RECOVERY ->
  exists event w1,
    error_handler.determine_recovery_event error tt w = (Returned event, tt, w1)
    /\ fst (fst (transition event data self w1)) =
         Returned (if error_handler.isinstance error error_handler.FatalError
                   then SESSION_END else IDLE)
    /\ current_state (snd (fst (transition event data self w1))) =
         (if error_handler.isinstance error error_handler.FatalError
          then SESSION_END else IDLE).
Proof.
  intros Hs.
  unfold error_handler.determine_recovery_event, error_handler.isinstance.
  destruct (error_handler.tag error); simpl; eexists _, _;
    (split; [reflexivity|]);
    match goal with |- context [transition ?ev data self ?w1] =>
      first [ rewrite (transition_legal self ev data w1 SESSION_END) by (by rewrite Hs)
            | rewrite (transition_legal self ev data w1 IDLE) by (by rewrite Hs) ]
    end; by split.
Qed.

(** The machine after [start_foraging] and [error], in [ERROR_RECOVERY]. *)
Definition m_error : StateMachine :=
  snd (fst (run (bare ["start_foraging"; "error"]) m0 w0)).

Definition auth_failed : error_handler.SandwichError :=
  error_handler.mkSandwichError error_handler.fatal "FatalError" "Auth failed" "auth_error".

Lemma routed_error_is_a_legal_event_witness :
  exists event w1,
    error_handler.determine_recovery_event auth_failed tt w0 = (Returned event, tt, w1)
    /\ fst (fst (transition event None m_error w1)) = Returned SESSION_END
    /\ current_state (snd (fst (transition event None m_error w1))) = SESSION_END.
Proof.
  apply (routed_error_is_a_legal_event m_error auth_failed None w0). reflexivity.
Defined.

End StateMachineExtra.

(** ** [sandwich/main.py]: the forager [build_reuben] wires *)

Module main.
Import forager.

Section Wiring.

(** The two source objects [build_reuben] constructs, [WikipediaSource()]
    and [WebSearchSource()]. *)
Variable WikipediaSource : ContentSource.
Variable WebSearchSource : ContentSource.

(** [sources.setdefault(k, []).append(x)] *)
Definition setdefault_append (k : Z) (x : ContentSource)
    (sources : gmap Z (list ContentSource)) : gmap Z (list ContentSource) :=
  <[k := default [] (sources !! k) ++ [x]]> sources.

(** The [sources] dictionary of [build_reuben], from the two switches of
    [config.foraging]. *)
Definition build_sources (wikipedia_enabled web_search_enabled : bool)
  : gmap Z (list ContentSource) :=
  let sources := ∅ in
  let sources :=
    if wikipedia_enabled then setdefault_append 1 WikipediaSource sources else sources in
  let sources :=
    if web_search_enabled then setdefault_append 2 WebSearchSource sources else sources in
  sources.

(** The [Forager(sources=sources, llm=llm,
    config=ForagerConfig(max_patience=config.foraging.max_patience))] it
    builds. *)
Definition build_forager (wikipedia_enabled web_search_enabled : bool)
    (max_patience : Z) : Forager :=
  __init__ (build_sources wikipedia_enabled web_search_enabled)
    (Some (mkForagerConfig max_patience ["wikipedia"] ["web_search"] [] 5 3)).

End Wiring.

End main.

(** * Further properties of the forager *)

Module ForagerExtra.
Import forager ForagerSpec.

(** ** Which sources a forager draws from *)

Lemma walk_down_highest (srcs : gmap Z (list ContentSource)) (n : nat) :
  match walk_down srcs n with
  | [] =>
      forall t, 1 <= t <= Z.of_nat n -> srcs !! t = None \/ srcs !! t = Some []
  | s :: ss =>
      exists t,
        1 <= t <= Z.of_nat n
        /\ srcs !! t = Some (s :: ss)
        /\ forall t', t < t' <= Z.of_nat n -> srcs !! t' = None \/ srcs !! t' = Some []
  end.
Proof.
  induction n as [|n IH].
  - simpl. intros t Ht. lia.
  - change (walk_down srcs (S n)) with
      (match srcs !! Z.of_nat (S n) with
       | Some (s :: ss) => s :: ss
       | _ => walk_down srcs n
       end).
    destruct (srcs !! Z.of_nat (S n)) as [[|s ss]|] eqn:Htop.
    + destruct (walk_down srcs n) as [|s ss].
      * intros t Ht. destruct (decide (t = Z.of_nat (S n))) as [->|]; [by right|].
        apply IH. lia.
      * destruct IH as (t & Ht & Hs & Habove). exists t. split; [lia|]. split; [done|].
        intros t' Ht'. destruct (decide (t' = Z.of_nat (S n))) as [->|]; [by right|].
        apply Habove. lia.
    + exists (Z.of_nat (S n)). split; [lia|]. split; [done|]. intros t' Ht'. lia.
    + destruct (walk_down srcs n) as [|s ss].
      * intros t Ht. destruct (decide (t = Z.of_nat (S n))) as [->|]; [by left|].
        apply IH. lia.
      * destruct IH as (t & Ht & Hs & Habove). exists t. split; [lia|]. split; [done|].
        intros t' Ht'. destruct (decide (t' = Z.of_nat (S n))) as [->|]; [by left|].
        apply Habove. lia.
Qed.

(** X10. [_get_tier_sources] answers with the source list of the highest tier,
    from [current_tier] down to 1, that is configured and not empty; it
    answers the empty list only when there is no such tier. Tiers above
    [current_tier] are never looked at. *)
Theorem tier_sources_are_the_highest_available (self : Forager) :
  match _get_tier_sources self with
  | [] =>
      forall t, 1 <= t <= current_tier self ->
        sources self !! t = None \/ sources self !! t = Some []
  | s :: ss =>
      exists t,
        1 <= t <= current_tier self
        /\ sources self !! t = Some (s :: ss)
        /\ forall t', t < t' <= current_tier self ->
             sources self !! t' = None \/ sources self !! t' = Some []
  end.
Proof.
  unfold _get_tier_sources.
  pose proof (walk_down_highest (sources self) (Z.to_nat (current_tier self))) as H.
  destruct (walk_down _ _) as [|s ss].
  - intros t Ht. apply H. lia.
  - destruct H as (t & Ht & Hs & Habove). exists t. split; [lia|]. split; [done|].
    intros t' Ht'. apply Habove. lia.
Qed.

(** ** One call of [forage] with sources at hand *)

(** The source [random.choice] picks. *)
Definition chosen (s : ContentSource) (ss : list ContentSource) (w : World)
  : ContentSource :=
  nth (random_at w (ticks w) mod length (s :: ss))%nat (s :: ss) s.

(** The fetch [forage] awaits on it. *)
Definition fetched (source : ContentSource) (curiosity : option string) (w : World)
  : Outcome Raisable SourceResult * World :=
  if truthy curiosity then fetch source curiosity w else fetch_random source w.

Lemma forage_with_sources (self : Forager) (curiosity : option string) (w : World)
    (s : ContentSource) (ss : list ContentSource) :
  _get_tier_sources self = s :: ss ->
  forage curiosity self w =
    match fetched (chosen s ss w) curiosity (tick w) with
    | (Raised e, w2) =>
        if is_Exception e
        then (Returned None, self,
              emit (mkLog WARNING "Source '%s' failed: %s"
                      [ArgStr (name (chosen s ss w)); ArgStr (str e)]) w2)
        else (Raised e, self, w2)
    | (Returned result, w2) =>
        if String.eqb (content result) EmptyString
        then (Returned None, self,
              emit (mkLog INFO "Source '%s' returned empty content for query '%s'"
                      [ArgStr (name (chosen s ss w));
                       ArgStr (default "None" curiosity)]) w2)
        else (Returned (Some (mkForagingResult result (name (chosen s ss w)) curiosity
                                (uuid4_at w2 (ticks w2)))),
              self, tick w2)
    end.
Proof.
  intros H. unfold forage, bind at 1, get. rewrite H.
  unfold bind at 1, random_choice. fold (chosen s ss w).
  unfold bind at 1, try_except, bind at 1, await, fetched.
  destruct (truthy curiosity);
    match goal with |- context [?f (tick w)] =>
      lazymatch f with
      | fetch _ _ => destruct (f (tick w)) as [[result|e] w2]
      | fetch_random _ => destruct (f (tick w)) as [[result|e] w2]
      end
    end; simpl;
    try (destruct (is_Exception e); reflexivity);
    destruct (String.eqb (content result) EmptyString); reflexivity.
Qed.

Lemma chosen_in (s : ContentSource) (ss : list ContentSource) (w : World) :
  chosen s ss w ∈ s :: ss.
Proof.
  unfold chosen. apply list_elem_of_In, nth_In.
  apply Nat.mod_upper_bound. simpl. lia.
Qed.

(** X11. [forage] reads the forager and never writes it: whether it returns a
    result, returns nothing or raises, the tier, both streak counters, the
    sources and the configuration are as before. *)
Theorem forage_never_changes_the_forager
    (self : Forager) (curiosity : option string) (w : World) :
  snd (fst (forage curiosity self w)) = self.
Proof.
  destruct (_get_tier_sources self) as [|s ss] eqn:Hsrc.
  - unfold forage, bind, get. simpl. by rewrite Hsrc.
  - rewrite (forage_with_sources self curiosity w s ss Hsrc).
    destruct (fetched _ _ _) as [[result|e] w2].
    + by destruct (String.eqb _ _).
    + by destruct (is_Exception e).
Qed.

(** X12. What [forage] raises was raised by the source it chose and lies
    outside the [Exception] hierarchy; an [Exception] raised by a source
    never propagates. *)
Theorem forage_absorbs_exceptions
    (self : Forager) (curiosity : option string) (w : World) (e : Raisable) :
  fst (fst (forage curiosity self w)) = Raised e ->
  is_Exception e = false
  /\ exists source w1,
       source ∈ _get_tier_sources self
       /\ fst (fetched source curiosity w1) = Raised e.
Proof.
  destruct (_get_tier_sources self) as [|s ss] eqn:Hsrc.
  - unfold forage, bind, get. simpl. rewrite Hsrc. discriminate.
  - rewrite (forage_with_sources self curiosity w s ss Hsrc).
    destruct (fetched _ _ _) as [[result|e'] w2] eqn:Hf.
    + destruct (String.eqb _ _); discriminate.
    + destruct (is_Exception e') eqn:He; [discriminate|]. simpl.
      intros [= <-]. split; [done|].
      exists (chosen s ss w), (tick w). split; [apply chosen_in | by rewrite Hf].
Qed.

(** A source whose fetches are cancelled: what it raises is not an
    [Exception]. *)
Definition cancelled : Raisable := mkRaisable false "CancelledError".
Definition interrupted : ContentSource :=
  mkContentSource "wiki" 1 (fun _ w => (Raised cancelled, w)) (fun w => (Raised cancelled, w)).
Definition f_interrupted : Forager := __init__ {[ 1 := [interrupted] ]} None.

Lemma forage_absorbs_exceptions_witness :
  is_Exception cancelled = false
  /\ exists source w1,
       source ∈ _get_tier_sources f_interrupted
       /\ fst (fetched source None w1) = Raised cancelled.
Proof.
  apply (forage_absorbs_exceptions f_interrupted None w0 cancelled).
  vm_compute. reflexivity.
Defined.

(** A source failing with an [Exception], and a source answering with
    empty content: both give the absent result. *)
Definition failing : ContentSource :=
  mkContentSource "wiki" 1
    (fun _ w => (Raised (mkRaisable true "timeout"), w))
    (fun w => (Raised (mkRaisable true "timeout"), w)).
Definition empty_source : ContentSource :=
  mkContentSource "empty" 1
    (fun _ w => (Returned (mkSourceResult EmptyString None None "text" ∅), w))
    (fun w => (Returned (mkSourceResult EmptyString None None "text" ∅), w)).

Example foraging_soft_failures :
  fst (fst (forage (Some "anything") (__init__ {[ 1 := [failing] ]} None) w0))
    = Returned None
  /\ fst (fst (forage (Some "anything") (__init__ {[ 1 := [empty_source] ]} None) w0))
    = Returned None.
Proof. vm_compute. split; reflexivity. Qed.

(** X13. A result [forage] returns comes from one source of the highest
    available tier: it bears that source's name and the curiosity prompt
    passed in, its content is what the source's fetch returned (the directed
    fetch for a non-empty prompt, the random one otherwise) and is not
    empty. *)
Theorem forage_result_provenance
    (self : Forager) (curiosity : option string) (w : World) (r : ForagingResult) :
  fst (fst (forage curiosity self w)) = Returned (Some r) ->
  exists source w1,
    source ∈ _get_tier_sources self
    /\ fst (fetched source curiosity w1) = Returned (source_result r)
    /\ source_name r = name source
    /\ curiosity_prompt r = curiosity
    /\ content (source_result r) <> EmptyString.
Proof.
  destruct (_get_tier_sources self) as [|s ss] eqn:Hsrc.
  - unfold forage, bind, get. simpl. rewrite Hsrc. discriminate.
  - rewrite (forage_with_sources self curiosity w s ss Hsrc).
    destruct (fetched _ _ _) as [[result|e'] w2] eqn:Hf.
    + destruct (String.eqb (content result) EmptyString) eqn:Hc; [discriminate|].
      simpl. intros [= <-]. exists (chosen s ss w), (tick w). simpl.
      split; [apply chosen_in|]. split; [by rewrite Hf|]. repeat split.
      by apply String.eqb_neq.
    + destruct (is_Exception e'); discriminate.
Qed.

Definition f_wiki : Forager := __init__ {[ 1 := [mock "wiki" 1] ]} None.
Definition r_wiki : ForagingResult :=
  mkForagingResult (mkSourceResult "Mock content" None None "text" ∅) "wiki"
    (Some "squeeze theorem") 1%N.

Lemma forage_result_provenance_witness :
  exists source w1,
    source ∈ _get_tier_sources f_wiki
    /\ fst (fetched source (Some "squeeze theorem") w1) = Returned (source_result r_wiki)
    /\ source_name r_wiki = name source
    /\ curiosity_prompt r_wiki = Some "squeeze theorem"
    /\ content (source_result r_wiki) <> EmptyString.
Proof.
  apply (forage_result_provenance f_wiki (Some "squeeze theorem") w0 r_wiki).
  vm_compute. reflexivity.
Defined.

(** ** Promotion and the ends of the tier range *)

(** [j] successes in a row that stay below the promotion threshold only
    count. *)
Lemma successes_below_threshold (j : nat) : forall (self : Forager) (w : World),
  consecutive_successes self + Z.of_nat j < successes_to_promote (config self) ->
  records (replicate j Success) self w =
    (match j with
     | O => self
     | S _ => mkForager (sources self) (config self) (current_tier self) 0
                (consecutive_successes self + Z.of_nat j)
     end, w).
Proof.
  induction j as [|j IH]; intros self w H; [done|].
  simpl replicate. simpl records. rewrite record_success_result.
  destruct (_ <=? _) eqn:Hle; zbool; [exfalso; lia|]. simpl andb. cbv iota.
  rewrite IH by (simpl; lia).
  destruct j; cbn [sources config current_tier consecutive_failures consecutive_successes];
    do 2 f_equal; lia.
Qed.

(** The forager after [j] successes in a row. *)
Definition after_successes (j : nat) (self : Forager) (w : World) : Forager :=
  fst (records (replicate j Success) self w).

(** X14. Take a forager below the highest configured tier whose
    [consecutive_successes] is 0, with [successes_to_promote] at least 1.
    Fewer than [successes_to_promote] successes in a row leave it at its
    tier T with that many successes counted; exactly [successes_to_promote]
    of them bring it to tier T + 1 with both streak counters at 0. *)
Theorem promotion_after_success_streak
    (self : Forager) (w : World) (T : Z) (k : nat) :
  current_tier self = T ->
  T < max_tier self ->
  consecutive_successes self = 0 ->
  successes_to_promote (config self) = Z.of_nat k ->
  (1 <= k)%nat ->
  (forall j, (j < k)%nat ->
     current_tier (after_successes j self w) = T
     /\ consecutive_successes (after_successes j self w) = Z.of_nat j)
  /\ current_tier (after_successes k self w) = T + 1
  /\ consecutive_successes (after_successes k self w) = 0
  /\ consecutive_failures (after_successes k self w) = 0.
Proof.
  intros HT Hlt Hcs Hk Hk1. unfold after_successes.
  assert (Hbelow : forall j, (j < k)%nat ->
            consecutive_successes self + Z.of_nat j < successes_to_promote (config self))
    by (intros; lia).
  split.
  - intros j Hj. rewrite successes_below_threshold by auto.
    destruct j; simpl; [split; [done | lia]|]. split; [done | lia].
  - destruct k as [|k]; [lia|].
    replace (replicate (S k) Success) with (replicate k Success ++ [Success])
      by (rewrite <- replicate_S_end; done).
    rewrite records_app, successes_below_threshold by (apply Hbelow; lia).
    simpl. rewrite record_success_result.
    unfold max_tier in *.
    destruct k; simpl;
      destruct (_ <=? _) eqn:Hle; destruct (_ <? _) eqn:Hlt'; zbool; simpl;
      repeat split; lia.
Qed.

Lemma promotion_after_success_streak_witness :
  (forall j, (j < 5)%nat ->
     current_tier (after_successes j f_tier2 w0) = 2
     /\ consecutive_successes (after_successes j f_tier2 w0) = Z.of_nat j)
  /\ current_tier (after_successes 5 f_tier2 w0) = 2 + 1
  /\ consecutive_successes (after_successes 5 f_tier2 w0) = 0
  /\ consecutive_failures (after_successes 5 f_tier2 w0) = 0.
Proof.
  apply (promotion_after_success_streak f_tier2 w0 2 5); try reflexivity. lia.
Defined.

(** X15. One call of [record_success] or [record_failure] never raises, never
    touches the sources or the configuration, and moves the tier by one
    step at most: a success never lowers it and zeroes the failure streak,
    a failure never raises it and zeroes the success streak; whenever the
    tier does move, both streak counters are back to 0. *)
Theorem record_moves_one_tier_at_most (c : Call) (self : Forager) (w : World) :
  fst (fst (record c self w)) = Returned tt
  /\ sources (snd (fst (record c self w))) = sources self
  /\ config (snd (fst (record c self w))) = config self
  /\ (c = Success ->
      (current_tier (snd (fst (record c self w))) = current_tier self
       \/ current_tier (snd (fst (record c self w))) = current_tier self + 1)
      /\ consecutive_failures (snd (fst (record c self w))) = 0)
  /\ (c = Failure ->
      (current_tier (snd (fst (record c self w))) = current_tier self
       \/ current_tier (snd (fst (record c self w))) = current_tier self - 1)
      /\ consecutive_successes (snd (fst (record c self w))) = 0)
  /\ (current_tier (snd (fst (record c self w))) <> current_tier self ->
      consecutive_successes (snd (fst (record c self w))) = 0
      /\ consecutive_failures (snd (fst (record c self w))) = 0).
Proof.
  destruct c; simpl; [rewrite record_success_result | rewrite record_failure_result];
    destruct (_ && _); simpl; repeat split; auto; try discriminate; try lia; try done.
Qed.

Lemma failures_at_tier_one (n : nat) : forall (self : Forager) (w : World),
  current_tier self <= 1 ->
  current_tier (fst (records (replicate n Failure) self w)) = current_tier self
  /\ consecutive_failures (fst (records (replicate n Failure) self w))
     = consecutive_failures self + Z.of_nat n.
Proof.
  induction n as [|n IH]; intros self w H; [simpl; lia|].
  simpl replicate. simpl records. rewrite record_failure_result.
  destruct (1 <? current_tier self) eqn:Hlt; zbool; [lia|].
  rewrite andb_false_r.
  match goal with |- context [records _ ?f w] => destruct (IH f w) as [Ht Hc]; [done|] end.
  rewrite Ht, Hc. simpl. lia.
Qed.

Lemma successes_at_the_top (n : nat) : forall (self : Forager) (w : World),
  max_tier self <= current_tier self ->
  current_tier (fst (records (replicate n Success) self w)) = current_tier self
  /\ consecutive_successes (fst (records (replicate n Success) self w))
     = consecutive_successes self + Z.of_nat n.
Proof.
  induction n as [|n IH]; intros self w H; [simpl; lia|].
  simpl replicate. simpl records. rewrite record_success_result.
  destruct (current_tier self <? max_tier self) eqn:Hlt; zbool; [lia|].
  rewrite andb_false_r.
  match goal with |- context [records _ ?f w] => destruct (IH f w) as [Ht Hc]; [done|] end.
  rewrite Ht, Hc. simpl. lia.
Qed.

(** X16. At the two ends of the tier range a streak is never reset by a tier
    change: at tier 1 every failure in a row adds one to
    [consecutive_failures], beyond [failures_to_demote] too, and at the
    highest configured tier every success in a row adds one to
    [consecutive_successes]; the tier stays where it is. *)
Theorem streaks_keep_counting_at_the_ends (self : Forager) (w : World) (n : nat) :
  (current_tier self <= 1 ->
   current_tier (fst (records (replicate n Failure) self w)) = current_tier self
   /\ consecutive_failures (fst (records (replicate n Failure) self w))
      = consecutive_failures self + Z.of_nat n)
  /\ (max_tier self <= current_tier self ->
      current_tier (fst (records (replicate n Success) self w)) = current_tier self
      /\ consecutive_successes (fst (records (replicate n Success) self w))
         = consecutive_successes self + Z.of_nat n).
Proof. split; [apply failures_at_tier_one | apply successes_at_the_top]. Qed.

(** ** The forager of [build_reuben] *)

(** X17. With the Wikipedia source switched off, the forager [build_reuben]
    wires starts at tier 1 where nothing is configured: [forage] logs the
    warning and returns the absent result without calling any source, even
    when the web-search source is configured (it sits at tier 2, which the
    walk down from tier 1 never visits). With Wikipedia switched on, the
    sources drawn from are exactly the Wikipedia source. *)
Theorem web_search_alone_is_out_of_reach
    (WikipediaSource WebSearchSource : ContentSource)
    (web_search_enabled : bool) (max_patience : Z)
    (curiosity : option string) (w : World) :
  forage curiosity
    (main.build_forager WikipediaSource WebSearchSource false web_search_enabled
       max_patience) w
  = (Returned None,
     main.build_forager WikipediaSource WebSearchSource false web_search_enabled
       max_patience,
     emit (mkLog WARNING "No sources available for tier %d" [ArgInt 1]) w)
  /\ (web_search_enabled = true ->
      sources (main.build_forager WikipediaSource WebSearchSource false
                 web_search_enabled max_patience) !! 2
      = Some [WebSearchSource])
  /\ _get_tier_sources
       (main.build_forager WikipediaSource WebSearchSource true web_search_enabled
          max_patience)
     = [WikipediaSource].
Proof.
  split; [|split].
  - unfold forage, bind, get. simpl. unfold _get_tier_sources.
    rewrite walk_down_nothing; [reflexivity|].
    intros t Ht. left. simpl in Ht. assert (t = 1) as -> by lia.
    unfold main.build_forager, main.build_sources, main.setdefault_append. simpl.
    destruct web_search_enabled; [by rewrite lookup_insert_ne | apply lookup_empty].
  - intros ->. unfold main.build_forager, main.build_sources, main.setdefault_append.
    simpl. by rewrite lookup_insert_eq, lookup_empty.
  - unfold _get_tier_sources, main.build_forager, main.build_sources,
      main.setdefault_append. simpl.
    destruct web_search_enabled.
    + by rewrite lookup_insert_ne, lookup_insert_eq, lookup_empty.
    + by rewrite lookup_insert_eq, lookup_empty.
Qed.

End ForagerExtra.

(** * Further properties of the selector *)

Module SelectorExtra.
Import selector SelectorSpec.

(** ** Floats between 0 and 1 *)

(** [0.0 <= x <= 1.0] *)
Definition in_unit (x : float) : Prop :=
  fle f0_0 x = true /\ fle x f1_0 = true.

(** The clamp [max(0.0, min(1.0, x))] lands between 0 and 1 whatever [x]
    is, NaN and the infinities included. *)
Lemma clamp_in_unit (x : float) : in_unit (max2 f0_0 (min2 f1_0 x)).
Proof.
  unfold in_unit, max2, min2.
  destruct (flt x f1_0) eqn:H1.
  - destruct (flt f0_0 x) eqn:H0.
    + split; by apply flt_fle.
    + by split.
  - by split.
Qed.

Lemma feq_refl (x : float) : x <> S754_nan -> feq x x = true.
Proof.
  unfold feq, SFeqb. destruct x as [s|s| |s m e]; try done; destruct s; simpl; try done;
    intros _; rewrite Z.compare_refl;
    change (Pos.compare_cont Eq m m) with (Pos.compare m m);
    by rewrite Pos.compare_refl.
Qed.

Lemma candidate_eqb_refl (c : CandidateStructure) :
  confidence c <> S754_nan -> candidate_eqb c c = true.
Proof.
  intros H. unfold candidate_eqb. by rewrite !String.eqb_refl, feq_refl.
Qed.

(** [candidates.index(cand)] finds a candidate of the list that equals
    itself. *)
Lemma index_from_finds (candidates : list CandidateStructure) :
  forall (i : nat) (cand : CandidateStructure),
    cand ∈ candidates -> candidate_eqb cand cand = true ->
    exists j, index_from i candidates cand = Some j.
Proof.
  induction candidates as [|c rest IH]; intros i cand Hin Heq; [inversion Hin|].
  simpl. destruct (candidate_eqb c cand) eqn:Hc; [by eexists|].
  apply elem_of_cons in Hin as [->|Hin]; [congruence|]. by apply IH.
Qed.

(** ** Selection with any context *)

(** A selection's bonuses lie between 0 and 1 and its final score is the
    weighted sum of its own fields, as the docstring gives it. *)
Definition scored (cfg : SelectionConfig) (b : SelectedCandidate.t) : Prop :=
  in_unit (SelectedCandidate.novelty_bonus b)
  /\ in_unit (SelectedCandidate.diversity_bonus b)
  /\ SelectedCandidate.final_score b =
       fadd (fadd (confidence (SelectedCandidate.candidate b))
                  (fmul (novelty_weight cfg) (SelectedCandidate.novelty_bonus b)))
            (fmul (diversity_weight cfg) (SelectedCandidate.diversity_bonus b)).

(** A selection is one of the candidates, passes the confidence filter and
    is scored. *)
Definition sound (cfg : SelectionConfig) (candidates : list CandidateStructure)
    (r : option SelectedCandidate.t) : Prop :=
  match r with
  | Some b =>
      SelectedCandidate.candidate b ∈ candidates
      /\ fle (min_confidence cfg) (confidence (SelectedCandidate.candidate b)) = true
      /\ scored cfg b
  | None => True
  end.

Section Interpreter.

Variable sum : list float -> float.
Variable pow_half : float -> float.
Variable format_f : nat -> float -> string.
Variable str_float : float -> string.

(** The novelty bonus of a listed candidate whose confidence is not NaN is
    computed without raising and lies between 0 and 1. *)
Lemma novelty_returns (candidates : list CandidateStructure)
    (corpus_embeddings candidate_embeddings : option (list (list float)))
    (cand : CandidateStructure) (w : World) :
  cand ∈ candidates -> confidence cand <> S754_nan ->
  exists nb,
    novelty sum pow_half candidates corpus_embeddings candidate_embeddings cand tt w
      = (Returned nb, tt, w)
    /\ in_unit nb.
Proof.
  intros Hin Hnan. unfold novelty.
  destruct (nonempty corpus_embeddings && nonempty candidate_embeddings);
    [|by exists f1_0].
  destruct (index_from_finds candidates 0 cand Hin (candidate_eqb_refl _ Hnan))
    as [j ->].
  destruct (default [] candidate_embeddings !! j) as [cand_emb|]; [|by exists f1_0].
  destruct (default [] corpus_embeddings) as [|corpus_emb corpus_embs]; [by exists f1_0|].
  eexists. split; [reflexivity|]. apply clamp_in_unit.
Qed.

Lemma diversity_in_unit (type_frequencies : option (gmap string float))
    (cand : CandidateStructure) :
  in_unit (diversity type_frequencies cand).
Proof.
  unfold diversity. destruct type_frequencies as [tf|]; [|done].
  destruct (decide (tf = ∅)); [done|].
  destruct (tf !! structure_type cand); [apply clamp_in_unit | done].
Qed.

(** The loop over listed candidates that pass the filter never raises and
    keeps its best candidate sound; it ends with a best candidate as soon
    as it had one or saw one. *)
Lemma loop_sound (cfg : SelectionConfig) (candidates : list CandidateStructure)
    (corpus_embeddings candidate_embeddings : option (list (list float)))
    (type_frequencies : option (gmap string float))
    (vs : list CandidateStructure) :
  forall (best : option SelectedCandidate.t) (w : World),
    Forall (fun c => c ∈ candidates /\ fle (min_confidence cfg) (confidence c) = true) vs ->
    sound cfg candidates best ->
    exists r w',
      loop sum pow_half format_f str_float cfg candidates corpus_embeddings
        candidate_embeddings type_frequencies vs best tt w = (Returned r, tt, w')
      /\ sound cfg candidates r
      /\ (vs <> [] \/ is_Some best -> is_Some r).
Proof.
  induction vs as [|cand vs IH]; intros best w Hvs Hbest.
  - exists best, w. repeat split; [done|]. intros [?|?]; done.
  - apply Forall_cons in Hvs as [[Hin Hmin] Hvs].
    destruct (novelty_returns candidates corpus_embeddings candidate_embeddings cand w
                Hin (fle_not_nan _ _ Hmin)) as (nb & Hnov & Hnb).
    cbn [loop]. unfold bind at 1. rewrite Hnov. unfold bind at 1, logger.
    match goal with
    | |- context [loop _ _ _ _ _ _ _ _ _ _ ?b tt ?w1] =>
        destruct (IH b w1 Hvs) as (r & w' & Hr & Hs & Hsome)
    end.
    + pose proof (diversity_in_unit type_frequencies cand) as Hdiv.
      destruct best as [b|]; [destruct (flt _ _)|]; simpl; try done;
        by repeat split.
    + exists r, w'. split; [exact Hr|]. split; [exact Hs|]. intros _. apply Hsome.
      right. destruct best as [b|]; [destruct (flt _ _)|]; by eexists.
Qed.

(** X18. [select_candidate] never raises, whatever the candidates, embeddings,
    frequencies and configuration (NaN values included): the [ValueError]
    of [candidates.index] cannot occur. It returns nothing exactly when no
    candidate has a confidence of at least [min_confidence]. *)
Theorem select_candidate_never_raises
    (candidates : list CandidateStructure)
    (corpus_embeddings candidate_embeddings : option (list (list float)))
    (type_frequencies : option (gmap string float))
    (config : option SelectionConfig) (w : World) :
  exists r w',
    select_candidate sum pow_half format_f str_float candidates corpus_embeddings
      candidate_embeddings type_frequencies config tt w = (Returned r, tt, w')
    /\ (r = None <-> viable (default default_config config) candidates = []).
Proof.
  set (cfg := default default_config config).
  unfold select_candidate, viable. fold cfg.
  destruct candidates as [|c0 cs]; [by exists None, w|].
  set (cands := c0 :: cs) in *.
  destruct (List.filter _ cands) as [|v vs] eqn:Hv; [by eexists None, _|].
  destruct (loop_sound cfg cands corpus_embeddings candidate_embeddings
              type_frequencies (v :: vs) None w) as (r & w' & Hr & _ & Hsome).
  { rewrite <- Hv. apply Forall_forall. intros x Hx.
    apply list_elem_of_In, filter_In in Hx as [Hx1 Hx2]. split; [|done].
    by apply list_elem_of_In. }
  { done. }
  unfold bind at 1. rewrite Hr.
  destruct Hsome as [b ->]; [by left|].
  eexists (Some b), _. split; [reflexivity|]. split; discriminate.
Qed.

(** X19. What [select_candidate] returns is one of the candidates passed in,
    and its confidence is at least [min_confidence]: no candidate below the
    threshold is ever selected, whatever its novelty or diversity. *)
Theorem selection_is_a_viable_candidate
    (candidates : list CandidateStructure)
    (corpus_embeddings candidate_embeddings : option (list (list float)))
    (type_frequencies : option (gmap string float))
    (config : option SelectionConfig) (w : World) (r : SelectedCandidate.t) :
  selected sum pow_half format_f str_float candidates corpus_embeddings
    candidate_embeddings type_frequencies config w = Some (Some r) ->
  SelectedCandidate.candidate r ∈ candidates
  /\ fle (min_confidence (default default_config config))
         (confidence (SelectedCandidate.candidate r)) = true.
Proof.
  set (cfg := default default_config config).
  unfold selected, select_candidate. fold cfg.
  destruct candidates as [|c0 cs]; [discriminate|].
  set (cands := c0 :: cs) in *.
  destruct (List.filter _ cands) as [|v vs] eqn:Hv; [discriminate|].
  destruct (loop_sound cfg cands corpus_embeddings candidate_embeddings
              type_frequencies (v :: vs) None w) as (r' & w' & Hr & Hs & _).
  { rewrite <- Hv. apply Forall_forall. intros x Hx.
    apply list_elem_of_In, filter_In in Hx as [Hx1 Hx2]. split; [|done].
    by apply list_elem_of_In. }
  { done. }
  unfold bind at 1. rewrite Hr.
  destruct r' as [b|]; simpl; intros [= <-]. by destruct Hs as (? & ? & _).
Qed.

(** X20. The selection returned is consistently scored: its novelty and
    diversity bonuses both lie between 0.0 and 1.0, whatever the embeddings
    and frequencies supplied, and its final score is its candidate's
    confidence plus [novelty_weight] times its novelty bonus plus
    [diversity_weight] times its diversity bonus. *)
Theorem selection_is_consistently_scored
    (candidates : list CandidateStructure)
    (corpus_embeddings candidate_embeddings : option (list (list float)))
    (type_frequencies : option (gmap string float))
    (config : option SelectionConfig) (w : World) (r : SelectedCandidate.t) :
  selected sum pow_half format_f str_float candidates corpus_embeddings
    candidate_embeddings type_frequencies config w = Some (Some r) ->
  fle f0_0 (SelectedCandidate.novelty_bonus r) = true
  /\ fle (SelectedCandidate.novelty_bonus r) f1_0 = true
  /\ fle f0_0 (SelectedCandidate.diversity_bonus r) = true
  /\ fle (SelectedCandidate.diversity_bonus r) f1_0 = true
  /\ SelectedCandidate.final_score r =
       fadd (fadd (confidence (SelectedCandidate.candidate r))
                  (fmul (novelty_weight (default default_config config))
                        (SelectedCandidate.novelty_bonus r)))
            (fmul (diversity_weight (default default_config config))
                  (SelectedCandidate.diversity_bonus r)).
Proof.
  set (cfg := default default_config config).
  unfold selected, select_candidate. fold cfg.
  destruct candidates as [|c0 cs]; [discriminate|].
  set (cands := c0 :: cs) in *.
  destruct (List.filter _ cands) as [|v vs] eqn:Hv; [discriminate|].
  destruct (loop_sound cfg cands corpus_embeddings candidate_embeddings
              type_frequencies (v :: vs) None w) as (r' & w' & Hr & Hs & _).
  { rewrite <- Hv. apply Forall_forall. intros x Hx.
    apply list_elem_of_In, filter_In in Hx as [Hx1 Hx2]. split; [|done].
    by apply list_elem_of_In. }
  { done. }
  unfold bind at 1. rewrite Hr.
  destruct r' as [b|]; simpl; intros [= <-].
  destruct Hs as (_ & _ & [H0 H1] & [H2 H3] & Hf). by repeat split.
Qed.

End Interpreter.

(** ** The diversity test of the suite *)

Definition f0_8 : float := S754_finite false 7205759403792794 (-53).
Definition f0_1 : float := S754_finite false 7205759403792794 (-56).
Definition f0_5 : float := S754_finite false 4503599627370496 (-53).

(** Two candidates of equal confidence 0.7, of a common and of a rare type,
    with frequencies 0.8 and 0.1, scored with weights 0.0 and 0.5. *)
Definition c_common : CandidateStructure :=
  mkCandidate "A" "B" "C" "bound" f0_7 "common".
Definition c_rare : CandidateStructure :=
  mkCandidate "D" "E" "F" "perspectival" f0_7 "rare".
Definition frequencies : gmap string float :=
  {[ "bound" := f0_8; "perspectival" := f0_1 ]}.
Definition diversity_config : SelectionConfig := mkSelectionConfig f0_4 f0_0 f0_5.

Definition select1 : option (option SelectedCandidate.t) :=
  selected (fun _ => f0_0) (fun x => x) (fun _ _ => EmptyString) (fun _ => EmptyString)
    [c_common; c_rare] None None (Some frequencies) (Some diversity_config) w0.

(** The selection made there: the rare candidate, with diversity bonus
    [1.0 - 0.1] and final score [0.7 + 0.0 * 1.0 + 0.5 * 0.9] (the stand-in
    interpreter renders every float as the empty string). *)
Definition r_rare : SelectedCandidate.t :=
  SelectedCandidate.mk c_rare
    (S754_finite false 5179139571476070 (-52)) f1_0
    (S754_finite false 8106479329266893 (-53))
    "confidence=, novelty_bonus= (w=), diversity_bonus= (w=), final=".

Example diversity_bonus_favours_rare_type : select1 = Some (Some r_rare).
Proof. vm_compute. reflexivity. Qed.

Lemma selection_is_a_viable_candidate_witness :
  SelectedCandidate.candidate r_rare ∈ [c_common; c_rare]
  /\ fle (min_confidence diversity_config)
         (confidence (SelectedCandidate.candidate r_rare)) = true.
Proof.
  apply (selection_is_a_viable_candidate (fun _ => f0_0) (fun x => x)
           (fun _ _ => EmptyString) (fun _ => EmptyString)
           [c_common; c_rare] None None (Some frequencies) (Some diversity_config)
           w0 r_rare).
  vm_compute. reflexivity.
Defined.

Lemma selection_is_consistently_scored_witness :
  fle f0_0 (SelectedCandidate.novelty_bonus r_rare) = true
  /\ fle (SelectedCandidate.novelty_bonus r_rare) f1_0 = true
  /\ fle f0_0 (SelectedCandidate.diversity_bonus r_rare) = true
  /\ fle (SelectedCandidate.diversity_bonus r_rare) f1_0 = true
  /\ SelectedCandidate.final_score r_rare =
       fadd (fadd (confidence (SelectedCandidate.candidate r_rare))
                  (fmul (novelty_weight diversity_config)
                        (SelectedCandidate.novelty_bonus r_rare)))
            (fmul (diversity_weight diversity_config)
                  (SelectedCandidate.diversity_bonus r_rare)).
Proof.
  apply (selection_is_consistently_scored (fun _ => f0_0) (fun x => x)
           (fun _ _ => EmptyString) (fun _ => EmptyString)
           [c_common; c_rare] None None (Some frequencies) (Some diversity_config)
           w0 r_rare).
  vm_compute. reflexivity.
Defined.

End SelectorExtra.

(** ** [sandwich/db/corpus.py] *)

Module corpus.
Import selector.

(** The default of [similarity_threshold], 0.92. *)
Definition f0_92 : float := S754_finite false 8286623314361713 (-53).

Record CorpusIngredient : Type := mkCorpusIngredient {
  ingredient_id : UUID;
  text : string;
  ingredient_type : string;
  embedding : option (list float);
  usage_count : Z
}.

(** A reference to a [CorpusIngredient] object: the list of a corpus
    holds references, and [find_or_create_ingredient] updates the object a
    reference leads to, wherever else that reference is held. *)
Definition Ref : Type := nat.

(** The fields of a [SandwichCorpus] object. *)
Record SandwichCorpus : Type := mkSandwichCorpus {
  embeddings : list (list float);
  type_counts : gmap string Z;
  ingredients : list Ref;
  total_sandwiches : Z
}.

(** [SandwichCorpus()] *)
Definition new_corpus : SandwichCorpus := mkSandwichCorpus [] ∅ [] 0.

Definition is_empty (self : SandwichCorpus) : bool := total_sandwiches self =? 0.

Definition get_all_embeddings (self : SandwichCorpus) : list (list float) :=
  embeddings self.

Definition add_sandwich (embedding : list float) (structure_type : string)
    (self : SandwichCorpus) : SandwichCorpus :=
  let self := mkSandwichCorpus (embeddings self ++ [embedding]) (type_counts self)
                (ingredients self) (total_sandwiches self) in
  let self := mkSandwichCorpus (embeddings self)
                (<[structure_type := default 0 (type_counts self !! structure_type) + 1]>
                   (type_counts self))
                (ingredients self) (total_sandwiches self) in
  mkSandwichCorpus (embeddings self) (type_counts self) (ingredients self)
    (total_sandwiches self + 1).

Definition add_ingredient (ingredient : Ref) (self : SandwichCorpus) : SandwichCorpus :=
  mkSandwichCorpus (embeddings self) (type_counts self) (ingredients self ++ [ingredient])
    (total_sandwiches self).

(** What dividing two integers raises: [ZeroDivisionError] ("division by
    zero") and [OverflowError] ("integer division result too large for a
    float"). *)
Inductive Exn : Type := ZeroDivisionError | OverflowError.

(** An integer as the dividend or divisor of [SFdiv]: a mantissa of any
    size with exponent 0, exact whatever the size. *)
Definition float_of_int (n : Z) : float :=
  match n with
  | Z0 => S754_zero false
  | Zpos p => S754_finite false p 0
  | Zneg p => S754_finite true p 0
  end.

(** [a / b] on integers: the exact quotient rounded once to the nearest
    binary64 value, ties to even. A zero divisor raises
    [ZeroDivisionError]; a quotient that rounds beyond the largest float
    raises [OverflowError]. *)
Definition truediv (a b : Z) : Outcome Exn float :=
  if b =? 0 then Raised ZeroDivisionError
  else match SFdiv 53 1024 (float_of_int a) (float_of_int b) with
       | S754_infinity _ | S754_nan => Raised OverflowError
       | q => Returned q
       end.

Section Interpreter.

(** What the interpreter supplies and this development leaves open: the
    builtin [sum] over floats and [x ** 0.5] as in the selector, and
    [s.strip().lower()]. *)
Variable sum : list float -> float.
Variable pow_half : float -> float.
Variable strip_lower : string -> string.

(** The module's own copy of the cosine similarity. *)
Definition _cosine_similarity (a b : list float) : float :=
  let dot := sum (map (fun xy => fmul (fst xy) (snd xy)) (zip a b)) in
  let norm_a := pow_half (sum (map (fun x => fmul x x) a)) in
  let norm_b := pow_half (sum (map (fun x => fmul x x) b)) in
  if feq norm_a f0_0 || feq norm_b f0_0 then f0_0
  else fdiv dot (fmul norm_a norm_b).

Definition max_similarity (self : SandwichCorpus) (embedding : list float) : float :=
  match embeddings self with
  | [] => f0_0
  | corpus_emb :: corpus_embs =>
      max_of (_cosine_similarity embedding corpus_emb)
             (map (_cosine_similarity embedding) corpus_embs)
  end.

(** The dictionary comprehension [{t: f(count) for t, count in d.items()}],
    which raises what [f] raises. *)
Definition comprehension (f : Z -> Outcome Exn float) (d : gmap string Z)
  : Outcome Exn (gmap string float) :=
  map_fold
    (fun t count acc =>
       match acc with
       | Raised e => Raised e
       | Returned freqs =>
           match f count with
           | Raised e => Raised e
           | Returned x => Returned (<[t := x]> freqs)
           end
       end)
    (Returned ∅) d.

Definition get_type_frequencies (self : SandwichCorpus)
  : Outcome Exn (gmap string float) :=
  if total_sandwiches self =? 0 then Returned ∅
  else comprehension (fun count => truediv count (total_sandwiches self))
         (type_counts self).

(** The first loop of [find_matching_ingredient]: the first ingredient of
    the wanted type whose text, stripped and lowered, is the query's. *)
Fixpoint exact_match (deref : Ref -> CorpusIngredient) (refs : list Ref)
    (text_lower ingredient_type : string) : option Ref :=
  match refs with
  | [] => None
  | ing :: rest =>
      if String.eqb (corpus.ingredient_type (deref ing)) ingredient_type
         && String.eqb (strip_lower (text (deref ing))) text_lower
      then Some ing
      else exact_match deref rest text_lower ingredient_type
  end.

(** Its second loop, [best_match] and [best_sim] being the best so far. *)
Fixpoint fuzzy_match (deref : Ref -> CorpusIngredient) (refs : list Ref)
    (embedding : list float) (ingredient_type : string)
    (best_match : option Ref) (best_sim : float) : option Ref * float :=
  match refs with
  | [] => (best_match, best_sim)
  | ing :: rest =>
      match corpus.embedding (deref ing) with
      | Some ing_embedding =>
          if String.eqb (corpus.ingredient_type (deref ing)) ingredient_type then
            let sim := _cosine_similarity embedding ing_embedding in
            if flt best_sim sim
            then fuzzy_match deref rest embedding ingredient_type (Some ing) sim
            else fuzzy_match deref rest embedding ingredient_type best_match best_sim
          else fuzzy_match deref rest embedding ingredient_type best_match best_sim
      | None => fuzzy_match deref rest embedding ingredient_type best_match best_sim
      end
  end.

Definition find_matching_ingredient (deref : Ref -> CorpusIngredient)
    (self : SandwichCorpus) (text ingredient_type : string)
    (embedding : option (list float)) (similarity_threshold : float) : option Ref :=
  let text_lower := strip_lower text in
  match exact_match deref (ingredients self) text_lower ingredient_type with
  | Some ing => Some ing
  | None =>
      match embedding with
      | Some embedding =>
          match fuzzy_match deref (ingredients self) embedding ingredient_type
                  None f0_0 with
          | (Some best_match, best_sim) =>
              if fle similarity_threshold best_sim then Some best_match else None
          | (None, _) => None
          end
      | None => None
      end
  end.

End Interpreter.

End corpus.

(** ** [sandwich/analysis/ingredients.py] *)

Module ingredients.
Import selector corpus.

(** The corpus passed to the functions of this module together with the
    ingredient objects its list refers to: [deref] gives the object behind
    a reference, and references from [fresh] on are not in use yet. *)
Record Store : Type := mkStore {
  the_corpus : SandwichCorpus;
  deref : Ref -> CorpusIngredient;
  fresh : Ref
}.

(** Assigning to the object behind [r]. *)
Definition assign (r : Ref) (o : CorpusIngredient) (deref : Ref -> CorpusIngredient)
  : Ref -> CorpusIngredient :=
  fun r' => if Nat.eqb r' r then o else deref r'.

(** The dictionary [ingredient_reuse_stats] returns, by key. *)
Record ReuseStats : Type := mkReuseStats {
  total_ingredients : Z;
  total_usages : Z;
  reuse_ratio : float;
  most_reused : option string
}.

(** [sum(ing.usage_count for ing in refs)], a sum of integers. *)
Definition sum_usage (deref : Ref -> CorpusIngredient) (refs : list Ref) : Z :=
  fold_left (fun acc ing => acc + usage_count (deref ing)) refs 0.

(** [max(refs, key=lambda i: i.usage_count)] on a non-empty list: a later
    ingredient replaces the best one only on a strictly greater count. *)
Definition max_by_usage (deref : Ref -> CorpusIngredient) (ing : Ref) (rest : list Ref)
  : Ref :=
  fold_left
    (fun best i => if usage_count (deref best) <? usage_count (deref i) then i else best)
    rest ing.

Section Interpreter.

Variable sum : list float -> float.
Variable pow_half : float -> float.
Variable strip_lower : string -> string.

Definition find_or_create_ingredient (text ingredient_type : string)
    (embedding : option (list float)) (sandwich_id : UUID)
    (similarity_threshold : float) : M Store Exn Ref :=
  st <~ get ;;
  match find_matching_ingredient sum pow_half strip_lower (deref st) (the_corpus st)
          text ingredient_type embedding similarity_threshold with
  | Some match_ =>
      let o := deref st match_ in
      put (mkStore (the_corpus st)
             (assign match_
                (mkCorpusIngredient (ingredient_id o) (corpus.text o)
                   (corpus.ingredient_type o) (corpus.embedding o) (usage_count o + 1))
                (deref st))
             (fresh st)) ;;;
      st <~ get ;;
      logger DEBUG "Reused ingredient %s (usage_count=%d): %s"
        [ArgUUID (ingredient_id (deref st match_));
         ArgInt (usage_count (deref st match_));
         ArgStr (String.substring 0 60 text)] ;;;
      ret match_
  | None =>
      id <~ uuid4 ;;
      st <~ get ;;
      let ingredient := fresh st in
      put (mkStore (the_corpus st)
             (assign ingredient
                (mkCorpusIngredient id text ingredient_type embedding 1) (deref st))
             (S (fresh st))) ;;;
      st <~ get ;;
      put (mkStore (add_ingredient ingredient (the_corpus st)) (deref st) (fresh st)) ;;;
      logger DEBUG "Created new ingredient %s: %s"
        [ArgUUID id; ArgStr (String.substring 0 60 text)] ;;;
      ret ingredient
  end.

Definition ingredient_reuse_stats (deref : Ref -> CorpusIngredient)
    (corpus : SandwichCorpus) : Outcome Exn ReuseStats :=
  match ingredients corpus with
  | [] => Returned (mkReuseStats 0 0 f0_0 None)
  | ing :: rest =>
      let total_usages := sum_usage deref (ing :: rest) in
      let most_reused := max_by_usage deref ing rest in
      match truediv total_usages (Z.of_nat (length (ing :: rest))) with
      | Raised e => Raised e
      | Returned ratio =>
          Returned (mkReuseStats (Z.of_nat (length (ing :: rest))) total_usages ratio
                      (Some (corpus.text (deref most_reused))))
      end
  end.

End Interpreter.

End ingredients.

(** * Properties of the corpus *)

Module CorpusSpec.
Import selector corpus.

(** ** Counting sandwiches *)

(** A sequence of [add_sandwich(embedding, structure_type)] calls. *)
Definition add_all (adds : list (list float * string)) (self : SandwichCorpus)
  : SandwichCorpus :=
  fold_left (fun c a => add_sandwich (fst a) (snd a) c) adds self.

(** How many of the calls were of type [t]. *)
Definition added (t : string) (adds : list (list float * string)) : Z :=
  Z.of_nat (length (List.filter (fun a => String.eqb (snd a) t) adds)).

(** [type_counts.get(t, 0)] *)
Definition count_of (t : string) (self : SandwichCorpus) : Z :=
  default 0 (type_counts self !! t).

Lemma add_all_counts (adds : list (list float * string)) :
  forall self : SandwichCorpus,
    total_sandwiches (add_all adds self) = total_sandwiches self + Z.of_nat (length adds)
    /\ embeddings (add_all adds self) = embeddings self ++ map fst adds
    /\ ingredients (add_all adds self) = ingredients self
    /\ forall t, count_of t (add_all adds self) = count_of t self + added t adds.
Proof.
  unfold add_all, added, count_of.
  induction adds as [|[e ty] adds IH]; intros self.
  - simpl. rewrite app_nil_r. repeat split; try intros t; lia.
  - cbn [fold_left fst snd]. destruct (IH (add_sandwich e ty self)) as (Ht & He & Hi & Hc).
    rewrite Ht, He, Hi. cbn [add_sandwich total_sandwiches embeddings ingredients
                              type_counts fst snd length map].
    repeat split; [lia | by rewrite <- app_assoc |].
    intros t. rewrite Hc. cbn [add_sandwich type_counts fst snd List.filter].
    destruct (String.eqb_spec ty t) as [->|Hne].
    + rewrite lookup_insert_eq. cbn [length default]. unfold id. lia.
    + rewrite lookup_insert_ne by done. lia.
Qed.

(** X21. After any sequence of [add_sandwich] calls on a newly built corpus,
    [total_sandwiches] is the number of calls, [embeddings] holds the
    embeddings passed in call order, [type_counts.get(t, 0)] is the number
    of calls whose type was [t], and [is_empty()] holds only when there was
    no call. *)
Theorem corpus_counts_what_was_added (adds : list (list float * string)) :
  total_sandwiches (add_all adds new_corpus) = Z.of_nat (length adds)
  /\ embeddings (add_all adds new_corpus) = map fst adds
  /\ (forall t, count_of t (add_all adds new_corpus) = added t adds)
  /\ (is_empty (add_all adds new_corpus) = true <-> adds = []).
Proof.
  destruct (add_all_counts adds new_corpus) as (Ht & He & _ & Hc).
  split; [exact Ht|]. split; [exact He|]. split.
  - intros t. rewrite Hc. unfold count_of. simpl. rewrite lookup_empty. simpl. lia.
  - unfold is_empty. rewrite Ht. simpl. split.
    + intros H%Z.eqb_eq. destruct adds; [done|]. simpl in H. lia.
    + intros ->. reflexivity.
Qed.

(** [sum(type_counts.values())] *)
Definition sum_counts (d : gmap string Z) : Z :=
  map_fold (fun _ count acc => count + acc) 0 d.

Lemma sum_counts_insert_new (d : gmap string Z) (t : string) (n : Z) :
  d !! t = None -> sum_counts (<[t := n]> d) = n + sum_counts d.
Proof.
  intros H. unfold sum_counts. rewrite map_fold_insert_L; [done| |done].
  intros. lia.
Qed.

Lemma sum_counts_bump (d : gmap string Z) (t : string) :
  sum_counts (<[t := default 0 (d !! t) + 1]> d) = sum_counts d + 1.
Proof.
  destruct (d !! t) as [n|] eqn:Ht; simpl.
  - rewrite <- (insert_delete_eq d).
    rewrite sum_counts_insert_new by apply lookup_delete_eq.
    rewrite <- (insert_id d t n Ht) at 2. rewrite <- (insert_delete_eq d t n).
    rewrite sum_counts_insert_new by apply lookup_delete_eq. lia.
  - rewrite sum_counts_insert_new by done. lia.
Qed.

Lemma sum_counts_nonneg (d : gmap string Z) :
  map_Forall (fun _ count => 0 <= count) d -> 0 <= sum_counts d.
Proof.
  induction d as [|t n d Ht IH] using map_ind; intros H; [done|].
  rewrite sum_counts_insert_new by done.
  apply map_Forall_insert in H as [Hn Hd]; [|done]. specialize (IH Hd). lia.
Qed.

(** [add_sandwich] keeps the counts adding up to the total, each of them
    at least 1. *)
Lemma add_all_sum (adds : list (list float * string)) :
  forall self : SandwichCorpus,
    sum_counts (type_counts self) = total_sandwiches self ->
    map_Forall (fun _ count => 1 <= count) (type_counts self) ->
    sum_counts (type_counts (add_all adds self)) = total_sandwiches (add_all adds self)
    /\ map_Forall (fun _ count => 1 <= count) (type_counts (add_all adds self)).
Proof.
  unfold add_all. induction adds as [|[e ty] adds IH]; intros self Hs Hp; [done|].
  cbn [fold_left fst snd]. apply IH; cbn [add_sandwich type_counts total_sandwiches].
  - rewrite sum_counts_bump. lia.
  - apply map_Forall_insert_2; [|done].
    destruct (type_counts self !! ty) as [n|] eqn:Hn; simpl; [|lia].
    specialize (Hp _ _ Hn). simpl in Hp. lia.
Qed.

(** Among counts that are all positive, none exceeds their sum. *)
Lemma count_le_sum (d : gmap string Z) (t : string) (count : Z) :
  map_Forall (fun _ count => 1 <= count) d -> d !! t = Some count ->
  count <= sum_counts d.
Proof.
  intros Hpos Ht. rewrite <- (insert_id _ t count Ht), <- insert_delete_eq.
  rewrite sum_counts_insert_new by apply lookup_delete_eq.
  assert (0 <= sum_counts (delete t d)); [|lia].
  apply sum_counts_nonneg. intros k v Hk.
  apply lookup_delete_Some in Hk as [_ Hk]. specialize (Hpos _ _ Hk). simpl in Hpos. lia.
Qed.

(** X22. The per-type counts of a corpus filled by [add_sandwich] alone add up
    to [total_sandwiches], and every type recorded has a count of at least
    1 and at most [total_sandwiches]: each frequency
    [count / total_sandwiches] is a positive fraction of a whole. *)
Theorem type_counts_add_up (adds : list (list float * string)) :
  sum_counts (type_counts (add_all adds new_corpus))
    = total_sandwiches (add_all adds new_corpus)
  /\ map_Forall (fun _ count => 1 <= count <= total_sandwiches (add_all adds new_corpus))
       (type_counts (add_all adds new_corpus)).
Proof.
  destruct (add_all_sum adds new_corpus) as [Hsum Hpos]; [done | apply map_Forall_empty |].
  split; [done|].
  intros t count Ht. split; [by apply (Hpos t)|].
  rewrite <- Hsum. by apply (count_le_sum _ t).
Qed.

(** ** Dividing integers *)

Lemma digits2_pos_size (p : positive) : digits2_pos p = Pos.size p.
Proof. induction p; simpl; congruence. Qed.

(** A mantissa below [2 ^ k] has at most [k] digits. *)
Lemma Zdigits2_le (m k : Z) : 0 <= m -> 0 <= k -> m < 2 ^ k -> Zdigits2 m <= k.
Proof.
  intros Hm Hk H. destruct m as [|p|p]; simpl; [lia| |lia].
  rewrite digits2_pos_size.
  pose proof (Pos.size_le p) as Hs.
  assert (Hs' : 2 ^ Zpos (Pos.size p) <= 2 * Zpos p).
  { change 2 with (Zpos 2) at 1. rewrite <- Pos2Z.inj_pow.
    change (2 * Zpos p) with (Zpos (p~0)). apply Pos2Z.pos_le_pos. exact Hs. }
  assert (Hlt : 2 ^ Zpos (Pos.size p) < 2 ^ (k + 1)).
  { rewrite Z.pow_add_r by lia. lia. }
  apply Z.pow_lt_mono_r_iff in Hlt; lia.
Qed.

Lemma shr_1_m (mrs : shr_record) :
  0 <= shr_m mrs -> 0 <= shr_m (shr_1 mrs) /\ 2 * shr_m (shr_1 mrs) <= shr_m mrs.
Proof.
  destruct mrs as [m r s]. simpl. intros H.
  destruct m as [|[p|p|]|p]; simpl; lia.
Qed.

Lemma iter_shr_1_m (p : positive) : forall mrs : shr_record,
  0 <= shr_m mrs ->
  0 <= shr_m (SpecFloat.iter_pos shr_1 p mrs)
  /\ shr_m (SpecFloat.iter_pos shr_1 p mrs) * 2 ^ Zpos p <= shr_m mrs.
Proof.
  induction p as [p IH|p IH|]; intros mrs H; simpl SpecFloat.iter_pos.
  - destruct (shr_1_m mrs H) as [H1 H1'].
    destruct (IH _ H1) as [H2 H2']. destruct (IH _ H2) as [H3 H3'].
    split; [done|].
    replace (Zpos p~1) with (Zpos p + Zpos p + 1) by lia.
    rewrite !Z.pow_add_r by lia.
    assert (0 < 2 ^ Zpos p) by (apply Z.pow_pos_nonneg; lia). nia.
  - destruct (IH _ H) as [H2 H2']. destruct (IH _ H2) as [H3 H3'].
    split; [done|].
    replace (Zpos p~0) with (Zpos p + Zpos p) by lia.
    rewrite !Z.pow_add_r by lia.
    assert (0 < 2 ^ Zpos p) by (apply Z.pow_pos_nonneg; lia). nia.
  - destruct (shr_1_m mrs H) as [H1 H1']. split; [done|]. change (2 ^ 1) with 2. lia.
Qed.

Lemma shr_record_of_loc_m (m : Z) (l : location) : shr_m (shr_record_of_loc m l) = m.
Proof. destruct l as [|[]]; reflexivity. Qed.

(** What truncation does: the exponent rises to the one the format asks
    for, and the mantissa shrinks accordingly. *)
Lemma shr_fexp_spec (m e : Z) (l : location) :
  0 <= m ->
  snd (shr_fexp 53 1024 m e l) = Z.max e (fexp 53 1024 (Zdigits2 m + e))
  /\ 0 <= shr_m (fst (shr_fexp 53 1024 m e l))
  /\ shr_m (fst (shr_fexp 53 1024 m e l)) * 2 ^ (snd (shr_fexp 53 1024 m e l) - e) <= m.
Proof.
  intros Hm. unfold shr_fexp, shr.
  destruct (fexp 53 1024 (Zdigits2 m + e) - e) as [|p|p] eqn:Hn; cbn [fst snd].
  - rewrite shr_record_of_loc_m, Z.sub_diag. simpl. lia.
  - destruct (iter_shr_1_m p (shr_record_of_loc m l)) as [H1 H2].
    { by rewrite shr_record_of_loc_m. }
    rewrite shr_record_of_loc_m in H2.
    replace (e + Zpos p - e) with (Zpos p) by lia. lia.
  - rewrite shr_record_of_loc_m, Z.sub_diag. simpl. lia.
Qed.

Lemma round_nearest_even_bounds (m : Z) (l : location) :
  m <= round_nearest_even m l <= m + 1.
Proof. destruct l as [|[]]; simpl; try lia. destruct (Z.even m); lia. Qed.

(** Rounding a mantissa below [2 ^ (D - e)] at exponent [e], with [D] at
    most 1023, gives a zero or a finite value. *)
Lemma binary_round_aux_finite (sx : bool) (q e : Z) (l : location) (D : Z) :
  0 <= q -> e <= 0 -> 0 <= D <= 1023 -> q < 2 ^ (D - e) ->
  match binary_round_aux 53 1024 sx q e l with
  | S754_zero _ | S754_finite _ _ _ => True
  | _ => False
  end.
Proof.
  intros Hq He HD Hlt. unfold binary_round_aux.
  pose proof (shr_fexp_spec q e l Hq) as (E1 & P1 & B1).
  destruct (shr_fexp 53 1024 q e l) as [mrs1 e1]. cbn [fst snd] in *.
  pose proof (round_nearest_even_bounds (shr_m mrs1) (loc_of_shr_record mrs1)) as Hr.
  set (m1' := round_nearest_even (shr_m mrs1) (loc_of_shr_record mrs1)) in *.
  assert (Hm1' : 0 <= m1') by lia.
  pose proof (shr_fexp_spec m1' e1 loc_Exact Hm1') as (E2 & P2 & B2).
  destruct (shr_fexp 53 1024 m1' e1 loc_Exact) as [mrs2 e2]. cbn [fst snd] in *.
  pose proof (Zdigits2_le q (D - e) Hq ltac:(lia) Hlt) as Hd.
  unfold fexp, emin in *.
  assert (He1 : e <= e1 <= D) by lia.
  assert (Hm1 : shr_m mrs1 < 2 ^ (D - e1)).
  { replace (D - e) with ((D - e1) + (e1 - e)) in Hlt by lia.
    rewrite Z.pow_add_r in Hlt by lia.
    assert (0 < 2 ^ (e1 - e)) by (apply Z.pow_pos_nonneg; lia).
    assert (0 < 2 ^ (D - e1)) by (apply Z.pow_pos_nonneg; lia). nia. }
  assert (Hd' : Zdigits2 m1' <= D - e1 + 1).
  { apply Zdigits2_le; [lia|lia|]. rewrite Z.pow_add_r by lia. change (2 ^ 1) with 2. lia. }
  destruct (shr_m mrs2) as [|m|m]; [done| |lia].
  destruct (e2 <=? 1024 - 53) eqn:Hle; [done|]. apply Z.leb_gt in Hle. lia.
Qed.

(** The quotient mantissa [SFdiv] hands to rounding. *)
Lemma SFdiv_core_binary_bounds (mx my : positive) (K : Z) :
  0 <= K -> Zpos mx <= Zpos my * 2 ^ K ->
  let '(q, e, l) := SFdiv_core_binary 53 1024 (Zpos mx) 0 (Zpos my) 0 in
  0 <= q /\ e <= 0 /\ q < 2 ^ (K + 1 - e).
Proof.
  intros HK H. unfold SFdiv_core_binary.
  set (e := Z.min _ _). assert (He : e <= 0) by (unfold e; lia).
  replace (0 - 0 - e) with (- e) by lia.
  set (m' := match - e with
             | Z0 => Zpos mx
             | Zpos _ => Z.shiftl (Zpos mx) (- e)
             | Zneg _ => 0
             end).
  assert (Hm' : m' = Zpos mx * 2 ^ (- e)).
  { unfold m'. destruct (- e) as [|p|p] eqn:Hs; [simpl; lia| |lia].
    rewrite Z.shiftl_mul_pow2 by lia. reflexivity. }
  pose proof (Z.div_eucl_eq m' (Zpos my) ltac:(lia)) as Hdiv.
  pose proof (Z.mod_pos_bound m' (Zpos my) ltac:(lia)) as Hmod.
  unfold Z.modulo in Hmod.
  destruct (Z.div_eucl m' (Zpos my)) as [q r].
  assert (0 < 2 ^ (- e)) by (apply Z.pow_pos_nonneg; lia).
  assert (0 < 2 ^ K) by (apply Z.pow_pos_nonneg; lia).
  split; [nia|]. split; [done|].
  replace (K + 1 - e) with (1 + K + (- e)) by lia.
  rewrite !Z.pow_add_r by lia. change (2 ^ 1) with 2. nia.
Qed.

(** A quotient of magnitude at most [2 ^ 1022] is within the range of
    floats: the division returns. *)
Lemma truediv_in_range (a b : Z) :
  b <> 0 -> Z.abs a <= Z.abs b * 2 ^ 1022 ->
  exists q, truediv a b = Returned q.
Proof.
  intros Hb H. unfold truediv. rewrite (proj2 (Z.eqb_neq _ _) Hb).
  destruct b as [|my|my]; [done| |]; destruct a as [|mx|mx]; simpl float_of_int;
    try (simpl; eauto; fail);
    unfold SFdiv;
    pose proof (SFdiv_core_binary_bounds mx my 1022 ltac:(lia) ltac:(lia)) as Hc;
    destruct (SFdiv_core_binary 53 1024 (Zpos mx) 0 (Zpos my) 0) as [[q e] l];
    destruct Hc as (Hq & He & Hlt);
    match goal with
    | |- context [binary_round_aux 53 1024 ?s q e l] =>
        pose proof (binary_round_aux_finite s q e l 1023 Hq He ltac:(lia) Hlt) as Hf;
        destruct (binary_round_aux 53 1024 s q e l); try done; eauto
    end.
Qed.

(** With a divisor other than 0 the only exception is [OverflowError]. *)
Lemma truediv_raises (a b : Z) (e : Exn) :
  b <> 0 -> truediv a b = Raised e -> e = OverflowError.
Proof.
  intros Hb. unfold truediv. rewrite (proj2 (Z.eqb_neq _ _) Hb).
  destruct (SFdiv 53 1024 (float_of_int a) (float_of_int b)); congruence.
Qed.

(** The quotients of small integers, and two that are out of range. *)
Example quotients :
  truediv 1 3 = Returned (S754_finite false 6004799503160661 (-54))
  /\ truediv 0 (-5) = Returned (S754_zero true)
  /\ truediv (2 ^ 53 + 1) 1 = Returned (S754_finite false 4503599627370496 1)
  /\ truediv 1 (2 ^ 1075) = Returned (S754_zero false)
  /\ truediv (2 ^ 1024 - 2 ^ 970 - 1) 1
     = Returned (S754_finite false 9007199254740991 971)
  /\ truediv (2 ^ 1024 - 2 ^ 970) 1 = Raised OverflowError
  /\ truediv (10 ^ 400) 1 = Raised OverflowError
  /\ truediv 1 0 = Raised ZeroDivisionError.
Proof. vm_compute. repeat split. Qed.

(** ** Type frequencies *)

(** The comprehension returns the entry-wise results, or raises what the
    division raised on one of the counts. *)
Lemma comprehension_cases (f : Z -> Outcome Exn float) (d : gmap string Z) :
  match comprehension f d with
  | Returned freqs => forall t, Returned <$> freqs !! t = f <$> d !! t
  | Raised e => exists t count, d !! t = Some count /\ f count = Raised e
  end.
Proof.
  unfold comprehension.
  apply (map_fold_weak_ind
           (fun r m =>
              match r with
              | Returned freqs => forall t, Returned <$> freqs !! t = f <$> m !! t
              | Raised e => exists t count, m !! t = Some count /\ f count = Raised e
              end)).
  - intros t. by rewrite !lookup_empty.
  - intros i x m r Hi IH. destruct r as [freqs|e].
    + destruct (f x) as [y|e] eqn:Hf.
      * intros t. destruct (decide (t = i)) as [->|Hne].
        -- rewrite !lookup_insert_eq. simpl. by rewrite Hf.
        -- rewrite !lookup_insert_ne by done. apply IH.
      * exists i, x. by rewrite lookup_insert_eq.
    + destruct IH as (t & count & Ht & Hf). exists t, count. split; [|done].
      rewrite lookup_insert_ne; [done|]. intros ->. congruence.
Qed.

(** On counts whose quotients are all in range the comprehension
    returns. *)
Lemma comprehension_returns (f : Z -> Outcome Exn float) (d : gmap string Z) :
  map_Forall (fun _ count => exists x, f count = Returned x) d ->
  exists freqs, comprehension f d = Returned freqs.
Proof.
  intros H. pose proof (comprehension_cases f d) as Hc.
  destruct (comprehension f d) as [freqs|e]; [by eexists|].
  destruct Hc as (t & count & Ht & Hf). destruct (H _ _ Ht) as [x Hx]. congruence.
Qed.

(** X23. [get_type_frequencies] never raises [ZeroDivisionError], whatever the
    fields of the corpus hold. When [total_sandwiches] is 0 it returns the
    empty dictionary, with which the selector gives every candidate the
    diversity bonus 1.0. Otherwise it either returns a dictionary with an
    entry for exactly the types of [type_counts], each the quotient of its
    count by [total_sandwiches], or raises [OverflowError], which it does
    only when one of these quotients is beyond the range of floats; it
    returns whenever no count exceeds [2 ^ 1022] times [total_sandwiches]
    in magnitude. *)
Theorem type_frequencies_never_divide_by_zero (self : SandwichCorpus) :
  get_type_frequencies self <> Raised ZeroDivisionError
  /\ (total_sandwiches self = 0 ->
      get_type_frequencies self = Returned ∅
      /\ forall cand, diversity (Some ∅) cand = f1_0)
  /\ (total_sandwiches self <> 0 ->
      match get_type_frequencies self with
      | Returned freqs =>
          forall t,
            Returned <$> freqs !! t
            = (fun count => truediv count (total_sandwiches self)) <$> type_counts self !! t
      | Raised e =>
          e = OverflowError
          /\ exists t count,
               type_counts self !! t = Some count
               /\ truediv count (total_sandwiches self) = Raised OverflowError
      end)
  /\ (map_Forall (fun _ count => Z.abs count <= Z.abs (total_sandwiches self) * 2 ^ 1022)
        (type_counts self) ->
      exists freqs, get_type_frequencies self = Returned freqs).
Proof.
  unfold get_type_frequencies.
  destruct (total_sandwiches self =? 0) eqn:Hz.
  - apply Z.eqb_eq in Hz. split; [done|]. split; [|split; [done | by eexists]].
    intros _. split; [done|]. intros cand. unfold diversity. by destruct (decide _).
  - apply Z.eqb_neq in Hz.
    pose proof (comprehension_cases
                  (fun count => truediv count (total_sandwiches self))
                  (type_counts self)) as Hc.
    split; [|split; [done|split]].
    + destruct (comprehension _ _) as [freqs|e]; [done|].
      destruct Hc as (t & count & _ & Hf). apply truediv_raises in Hf; [|done].
      congruence.
    + intros _. destruct (comprehension _ _) as [freqs|e]; [exact Hc|].
      destruct Hc as (t & count & Ht & Hf).
      pose proof (truediv_raises _ _ _ Hz Hf) as ->. split; [done|]. by exists t, count.
    + intros Hb. apply comprehension_returns. intros t count Ht.
      apply truediv_in_range; [done|]. exact (Hb _ _ Ht).
Qed.

(** A count beyond the range of floats makes the frequencies raise. *)
Example huge_count_overflows :
  get_type_frequencies (mkSandwichCorpus [] {[ "bound" := 10 ^ 400 ]} [] 1)
  = Raised OverflowError.
Proof. vm_compute. reflexivity. Qed.

(** X30. On a corpus filled by [add_sandwich] alone [get_type_frequencies]
    never raises: it returns a dictionary with an entry for exactly the
    types that were added, the entry of a type being the quotient of the
    number of calls of that type by the number of all calls. *)
Theorem filled_corpus_has_type_frequencies (adds : list (list float * string)) :
  exists freqs,
    get_type_frequencies (add_all adds new_corpus) = Returned freqs
    /\ forall t,
         match freqs !! t with
         | Some x =>
             0 < added t adds
             /\ truediv (added t adds) (Z.of_nat (length adds)) = Returned x
         | None => added t adds = 0
         end.
Proof.
  destruct (add_all_counts adds new_corpus) as (Ht & _ & _ & Hc).
  destruct (add_all_sum adds new_corpus) as [Hsum Hpos]; [done | apply map_Forall_empty |].
  replace (total_sandwiches new_corpus + Z.of_nat (length adds))
    with (Z.of_nat (length adds)) in Ht by (simpl; lia).
  assert (Hcount : forall t,
            match type_counts (add_all adds new_corpus) !! t with
            | Some count => count = added t adds /\ 1 <= count <= Z.of_nat (length adds)
            | None => added t adds = 0
            end).
  { intros t. specialize (Hc t). unfold count_of in Hc. simpl in Hc.
    rewrite lookup_empty in Hc. simpl in Hc.
    destruct (type_counts (add_all adds new_corpus) !! t) as [count|] eqn:E;
      simpl in Hc; [|lia].
    split; [lia|]. split; [exact (Hpos _ _ E)|].
    rewrite <- Ht, <- Hsum. by apply (count_le_sum _ t). }
  unfold get_type_frequencies. rewrite Ht.
  destruct (Z.of_nat (length adds) =? 0) eqn:Hz.
  - apply Z.eqb_eq in Hz. exists ∅. split; [done|]. intros t. rewrite lookup_empty.
    specialize (Hcount t).
    destruct (type_counts (add_all adds new_corpus) !! t); [lia | done].
  - apply Z.eqb_neq in Hz.
    pose proof (comprehension_cases
                  (fun count => truediv count (Z.of_nat (length adds)))
                  (type_counts (add_all adds new_corpus))) as Hcases.
    destruct (comprehension _ _) as [freqs|e].
    + exists freqs. split; [done|]. intros t. specialize (Hcases t).
      specialize (Hcount t).
      destruct (type_counts (add_all adds new_corpus) !! t) as [count|];
        destruct (freqs !! t) as [x|]; simpl in Hcases; try done.
      destruct Hcount as [<- Hb]. split; [lia|]. congruence.
    + destruct Hcases as (t & count & E & Hf). specialize (Hcount t).
      rewrite E in Hcount. destruct Hcount as [_ Hb].
      destruct (truediv_in_range count (Z.of_nat (length adds))) as [q Hq]; [done| |].
      * assert (0 < 2 ^ 1022) by (apply Z.pow_pos_nonneg; lia). nia.
      * congruence.
Qed.

End CorpusSpec.

(** The quotients of integers that floats hold exactly are the quotients
    of those floats. *)
Module IntegerQuotients.
Import PrimFloat.
Local Set Warnings "-inexact-float".

Lemma quotients_of_small_integers :
  corpus.truediv 1 3 = Py.Returned (FloatOps.Prim2SF (1 / 3)%float)
  /\ corpus.truediv 2 3 = Py.Returned (FloatOps.Prim2SF (2 / 3)%float)
  /\ corpus.truediv 7 10 = Py.Returned (FloatOps.Prim2SF 0.7%float)
  /\ corpus.truediv (-1) 3 = Py.Returned (FloatOps.Prim2SF (-1 / 3)%float)
  /\ corpus.truediv 9007199254740991 4503599627370497
     = Py.Returned (FloatOps.Prim2SF (9007199254740991 / 4503599627370497)%float).
Proof. vm_compute. repeat split. Qed.

End IntegerQuotients.

(** * Properties of ingredient matching and reuse *)

Module IngredientSpec.
Import selector corpus ingredients.

Section Interpreter.

Variable sum : list float -> float.
Variable pow_half : float -> float.
Variable strip_lower : string -> string.

Abbreviation cosine := (_cosine_similarity sum pow_half).
Abbreviation find := (find_matching_ingredient sum pow_half strip_lower).

(** ** Matching *)

(** The test of the first loop: same type, same text once stripped and
    lowered. *)
Definition same_text (deref : Ref -> CorpusIngredient) (text_lower ty : string)
    (r : Ref) : bool :=
  String.eqb (ingredient_type (deref r)) ty
  && String.eqb (strip_lower (text (deref r))) text_lower.

Lemma exact_match_Some (deref : Ref -> CorpusIngredient) (text_lower ty : string)
    (refs : list Ref) (r : Ref) :
  exact_match strip_lower deref refs text_lower ty = Some r ->
  exists before after,
    refs = before ++ r :: after
    /\ same_text deref text_lower ty r = true
    /\ Forall (fun x => same_text deref text_lower ty x = false) before.
Proof.
  induction refs as [|x refs IH]; [discriminate|]. simpl.
  fold (same_text deref text_lower ty x).
  destruct (same_text deref text_lower ty x) eqn:Hx.
  - intros [= <-]. by exists [], refs.
  - intros H. destruct (IH H) as (before & after & -> & Hr & Hb).
    exists (x :: before), after. repeat split; [done|]. by constructor.
Qed.

Lemma exact_match_None (deref : Ref -> CorpusIngredient) (text_lower ty : string)
    (refs : list Ref) :
  exact_match strip_lower deref refs text_lower ty = None <->
  Forall (fun x => same_text deref text_lower ty x = false) refs.
Proof.
  induction refs as [|x refs IH]; simpl; [by split|].
  fold (same_text deref text_lower ty x).
  destruct (same_text deref text_lower ty x) eqn:Hx.
  - split; [discriminate|]. intros H. apply Forall_cons in H as [H _]. congruence.
  - rewrite IH. split; [by constructor|]. by intros [_ H]%Forall_cons.
Qed.

(** The second loop answers with the best so far or with a listed
    ingredient of the wanted type whose similarity is strictly above the
    best so far. *)
Lemma fuzzy_match_sound (deref : Ref -> CorpusIngredient) (emb : list float)
    (ty : string) (refs : list Ref) :
  forall (best_match : option Ref) (best_sim : float) (r : Ref) (s : float),
    fuzzy_match sum pow_half deref refs emb ty best_match best_sim = (Some r, s) ->
    (best_match = Some r /\ s = best_sim)
    \/ (r ∈ refs
        /\ ingredient_type (deref r) = ty
        /\ exists e, embedding (deref r) = Some e
                     /\ s = cosine emb e /\ flt best_sim s = true).
Proof.
  induction refs as [|x refs IH]; intros bm bs r s; simpl.
  - intros [= -> ->]. by left.
  - destruct (embedding (deref x)) as [e|] eqn:He.
    + destruct (String.eqb_spec (ingredient_type (deref x)) ty) as [Hty|Hty].
      * destruct (flt bs (cosine emb e)) eqn:Hlt.
        -- intros H. right. destruct (IH _ _ _ _ H) as [[[= <-] ->]|(Hin & Ht & e' & He' & -> & Hs)].
           ++ split; [by left|]. split; [done|]. by exists e.
           ++ split; [by right|]. split; [done|]. exists e'. repeat split; try done.
              by eapply SelectorSpec.flt_trans.
        -- intros H. destruct (IH _ _ _ _ H) as [?|(Hin & ?)]; [by left|].
           right. split; [by right | done].
      * intros H. destruct (IH _ _ _ _ H) as [?|(Hin & ?)]; [by left|].
        right. split; [by right | done].
    + intros H. destruct (IH _ _ _ _ H) as [?|(Hin & ?)]; [by left|].
      right. split; [by right | done].
Qed.

(** X24. Whatever [find_matching_ingredient] returns is an ingredient of the
    corpus, of the requested type. Either its text equals the query once
    both are stripped and lowered, or no ingredient of that type has such a
    text, an embedding was passed, and the cosine similarity of the two
    embeddings is strictly positive and at least the threshold. *)
Theorem matching_ingredient_is_sound
    (deref : Ref -> CorpusIngredient) (self : SandwichCorpus)
    (query ty : string) (emb : option (list float)) (threshold : float) (r : Ref) :
  find deref self query ty emb threshold = Some r ->
  r ∈ ingredients self
  /\ ingredient_type (deref r) = ty
  /\ (strip_lower (text (deref r)) = strip_lower query
      \/ (Forall (fun x => same_text deref (strip_lower query) ty x = false)
            (ingredients self)
          /\ exists e e',
               emb = Some e /\ embedding (deref r) = Some e'
               /\ flt f0_0 (cosine e e') = true
               /\ fle threshold (cosine e e') = true)).
Proof.
  unfold find_matching_ingredient.
  destruct (exact_match _ _ _ _ _) as [r0|] eqn:Hex.
  - intros [= <-]. destruct (exact_match_Some _ _ _ _ _ Hex) as (b & a & Hl & Hs & _).
    apply andb_true_iff in Hs as [Ht Hx]. apply String.eqb_eq in Ht, Hx.
    rewrite Hl. split; [set_solver|]. split; [done | by left].
  - apply exact_match_None in Hex. destruct emb as [e|]; [|discriminate].
    destruct (fuzzy_match _ _ _ _ _ _ _ _) as [[bm|] bs] eqn:Hf; [|discriminate].
    destruct (fle threshold bs) eqn:Hth; [|discriminate]. intros [= <-].
    destruct (fuzzy_match_sound _ _ _ _ _ _ _ _ Hf)
      as [[? _]|(Hin & Hty & e' & He' & -> & Hpos)]; [discriminate|].
    split; [done|]. split; [done|]. right. split; [done|]. by exists e, e'.
Qed.

(** X25. When an ingredient of the requested type has the query's text (both
    stripped and lowered), a match is always returned, whatever embedding
    and threshold are passed: the first such ingredient of the list. An
    exact text match is never overridden by a similar embedding. *)
Theorem exact_text_match_comes_first
    (deref : Ref -> CorpusIngredient) (self : SandwichCorpus)
    (query ty : string) (emb : option (list float)) (threshold : float) (r : Ref) :
  r ∈ ingredients self ->
  ingredient_type (deref r) = ty ->
  strip_lower (text (deref r)) = strip_lower query ->
  exists r0 before after,
    find deref self query ty emb threshold = Some r0
    /\ ingredients self = before ++ r0 :: after
    /\ ingredient_type (deref r0) = ty
    /\ strip_lower (text (deref r0)) = strip_lower query
    /\ Forall (fun x => same_text deref (strip_lower query) ty x = false) before.
Proof.
  intros Hin Hty Htx. unfold find_matching_ingredient.
  destruct (exact_match _ _ _ _ _) as [r0|] eqn:Hex.
  - destruct (exact_match_Some _ _ _ _ _ Hex) as (b & a & Hl & Hs & Hb).
    apply andb_true_iff in Hs as [Ht Hx]. apply String.eqb_eq in Ht, Hx.
    by exists r0, b, a.
  - apply exact_match_None in Hex. rewrite Forall_forall in Hex.
    specialize (Hex r Hin). unfold same_text in Hex.
    by rewrite Hty, Htx, !String.eqb_refl in Hex.
Qed.

(** ** Finding or creating *)

Abbreviation find_or_create := (find_or_create_ingredient sum pow_half strip_lower).

(** The object [find_or_create_ingredient] leaves behind a matched
    reference: one more usage, nothing else changed. *)
Definition used_again (o : CorpusIngredient) : CorpusIngredient :=
  mkCorpusIngredient (ingredient_id o) (text o) (ingredient_type o) (embedding o)
    (usage_count o + 1).

(** The two ways a call ends: on a match the matched object counts one
    more usage; otherwise a new object with one usage is appended to the
    list of the corpus. *)
Lemma find_or_create_cases (query ty : string) (emb : option (list float))
    (sandwich_id : UUID) (threshold : float) (st : Store) (w : World) :
  (exists r w',
     find (deref st) (the_corpus st) query ty emb threshold = Some r
     /\ find_or_create query ty emb sandwich_id threshold st w
        = (Returned r,
           mkStore (the_corpus st) (assign r (used_again (deref st r)) (deref st))
             (fresh st),
           w'))
  \/ (exists w',
        find (deref st) (the_corpus st) query ty emb threshold = None
        /\ find_or_create query ty emb sandwich_id threshold st w
           = (Returned (fresh st),
              mkStore (add_ingredient (fresh st) (the_corpus st))
                (assign (fresh st)
                   (mkCorpusIngredient (uuid4_at w (ticks w)) query ty emb 1) (deref st))
                (S (fresh st)),
              w')).
Proof.
  destruct (find (deref st) (the_corpus st) query ty emb threshold) as [r|] eqn:Hf.
  - left. eexists _, _. split; [reflexivity|].
    unfold find_or_create_ingredient, bind at 1, get. rewrite Hf. reflexivity.
  - right. eexists. split; [reflexivity|].
    unfold find_or_create_ingredient, bind at 1, get. rewrite Hf. reflexivity.
Qed.

Lemma sum_usage_from (deref : Ref -> CorpusIngredient) (refs : list Ref) :
  forall acc,
    fold_left (fun acc ing => acc + usage_count (deref ing)) refs acc
    = acc + sum_usage deref refs.
Proof.
  unfold sum_usage. induction refs as [|x refs IH]; intros acc; cbn [fold_left]; [lia|].
  rewrite (IH (acc + _)), (IH (0 + _)). lia.
Qed.

Lemma sum_usage_cons (deref : Ref -> CorpusIngredient) (x : Ref) (refs : list Ref) :
  sum_usage deref (x :: refs) = usage_count (deref x) + sum_usage deref refs.
Proof. unfold sum_usage at 1. simpl. apply sum_usage_from. Qed.

Lemma sum_usage_app (deref : Ref -> CorpusIngredient) (xs ys : list Ref) :
  sum_usage deref (xs ++ ys) = sum_usage deref xs + sum_usage deref ys.
Proof.
  induction xs as [|x xs IH]; simpl; [done|]. rewrite !sum_usage_cons, IH. lia.
Qed.

Lemma sum_usage_assign_other (deref : Ref -> CorpusIngredient) (r : Ref)
    (o : CorpusIngredient) (refs : list Ref) :
  r ∉ refs -> sum_usage (assign r o deref) refs = sum_usage deref refs.
Proof.
  induction refs as [|x refs IH]; intros H; [done|].
  rewrite !sum_usage_cons, IH by set_solver. unfold assign.
  destruct (Nat.eqb_spec x r); [set_solver | done].
Qed.

Lemma sum_usage_assign_member (deref : Ref -> CorpusIngredient) (r : Ref)
    (o : CorpusIngredient) (refs : list Ref) :
  NoDup refs -> r ∈ refs ->
  sum_usage (assign r o deref) refs
  = sum_usage deref refs - usage_count (deref r) + usage_count o.
Proof.
  induction refs as [|x refs IH]; intros Hnd Hin; [inversion Hin|].
  apply NoDup_cons in Hnd as [Hx Hnd]. rewrite !sum_usage_cons.
  destruct (decide (x = r)) as [->|Hne].
  - rewrite sum_usage_assign_other by done. unfold assign. rewrite Nat.eqb_refl. lia.
  - apply elem_of_cons in Hin as [->|Hin]; [done|].
    rewrite IH by done. unfold assign.
    destruct (Nat.eqb_spec x r); [done | lia].
Qed.

(** A store is tidy when no ingredient object is listed twice and every
    listed reference is in use. *)
Definition tidy (st : Store) : Prop :=
  NoDup (ingredients (the_corpus st))
  /\ Forall (fun r => (r < fresh st)%nat) (ingredients (the_corpus st)).

Lemma find_in_corpus (deref : Ref -> CorpusIngredient) (self : SandwichCorpus)
    (query ty : string) (emb : option (list float)) (threshold : float) (r : Ref) :
  find deref self query ty emb threshold = Some r -> r ∈ ingredients self.
Proof.
  unfold find_matching_ingredient.
  destruct (exact_match _ _ _ _ _) as [r0|] eqn:Hex.
  - intros [= <-]. destruct (exact_match_Some _ _ _ _ _ Hex) as (b & a & -> & _).
    set_solver.
  - destruct emb as [e|]; [|discriminate].
    destruct (fuzzy_match _ _ _ _ _ _ _ _) as [[bm|] bs] eqn:Hf; [|discriminate].
    destruct (fle threshold bs); [|discriminate]. intros [= <-].
    by destruct (fuzzy_match_sound _ _ _ _ _ _ _ _ Hf) as [[? _]|(Hin & _)].
Qed.

(** One call on a tidy store: it returns a listed ingredient, counts
    exactly one more usage in total, lists at most one more ingredient, and
    leaves the store tidy and the sandwiches of the corpus untouched. *)
Lemma find_or_create_step (query ty : string) (emb : option (list float))
    (sandwich_id : UUID) (threshold : float) (st : Store) (w : World) :
  tidy st ->
  exists r st' w',
    find_or_create query ty emb sandwich_id threshold st w = (Returned r, st', w')
    /\ r ∈ ingredients (the_corpus st')
    /\ sum_usage (deref st') (ingredients (the_corpus st'))
       = sum_usage (deref st) (ingredients (the_corpus st)) + 1
    /\ (ingredients (the_corpus st') = ingredients (the_corpus st)
        \/ ingredients (the_corpus st') = ingredients (the_corpus st) ++ [r])
    /\ tidy st'
    /\ embeddings (the_corpus st') = embeddings (the_corpus st)
    /\ type_counts (the_corpus st') = type_counts (the_corpus st)
    /\ total_sandwiches (the_corpus st') = total_sandwiches (the_corpus st).
Proof.
  intros [Hnd Hlt].
  destruct (find_or_create_cases query ty emb sandwich_id threshold st w)
    as [(r & w' & Hf & ->)|(w' & Hf & ->)].
  - apply find_in_corpus in Hf. eexists _, _, _. split; [reflexivity|]. simpl.
    split; [done|]. split.
    { rewrite sum_usage_assign_member by done. simpl. lia. }
    split; [by left|]. by repeat split.
  - eexists _, _, _. split; [reflexivity|]. simpl.
    assert (Hnew : fresh st ∉ ingredients (the_corpus st)).
    { intros Hin. rewrite Forall_forall in Hlt. specialize (Hlt _ Hin). simpl in Hlt. lia. }
    split; [set_solver|]. split.
    { rewrite sum_usage_app, sum_usage_assign_other by done.
      rewrite sum_usage_cons. unfold assign at 1. rewrite Nat.eqb_refl. simpl.
      unfold sum_usage. simpl. lia. }
    split; [by right|]. split; [|done]. split.
    + apply NoDup_app. split; [done|]. split; [|apply NoDup_singleton].
      intros x Hx Hx'. apply list_elem_of_singleton in Hx' as ->. done.
    + apply Forall_app. split.
      * eapply Forall_impl; [exact Hlt|]. intros x Hx. simpl in *. lia.
      * repeat constructor.
Qed.

(** X26. On a corpus that lists no ingredient object twice,
    [find_or_create_ingredient] never raises, returns an ingredient the
    corpus lists afterwards, adds exactly 1 to the sum of all usage counts
    and at most one ingredient to the list, and leaves the sandwiches of the
    corpus untouched. *)
Theorem find_or_create_counts_one_usage (query ty : string)
    (emb : option (list float)) (sandwich_id : UUID) (threshold : float)
    (st : Store) (w : World) :
  NoDup (ingredients (the_corpus st)) ->
  Forall (fun r => (r < fresh st)%nat) (ingredients (the_corpus st)) ->
  exists r st' w',
    find_or_create query ty emb sandwich_id threshold st w = (Returned r, st', w')
    /\ r ∈ ingredients (the_corpus st')
    /\ sum_usage (deref st') (ingredients (the_corpus st'))
       = sum_usage (deref st) (ingredients (the_corpus st)) + 1
    /\ (ingredients (the_corpus st') = ingredients (the_corpus st)
        \/ ingredients (the_corpus st') = ingredients (the_corpus st) ++ [r])
    /\ NoDup (ingredients (the_corpus st'))
    /\ embeddings (the_corpus st') = embeddings (the_corpus st)
    /\ type_counts (the_corpus st') = type_counts (the_corpus st)
    /\ total_sandwiches (the_corpus st') = total_sandwiches (the_corpus st).
Proof.
  intros Hnd Hlt.
  destruct (find_or_create_step query ty emb sandwich_id threshold st w (conj Hnd Hlt))
    as (r & st' & w' & H & Hin & Hsum & Hl & [Hnd' _] & He & Ht & Hn).
  exists r, st', w'. by repeat split.
Qed.

(** ** Looking up again *)

(** The two loops only read the type, the text and the embedding of the
    listed objects. *)
Definition same_keys (d d' : Ref -> CorpusIngredient) (refs : list Ref) : Prop :=
  forall x, x ∈ refs ->
    ingredient_type (d' x) = ingredient_type (d x)
    /\ text (d' x) = text (d x)
    /\ embedding (d' x) = embedding (d x).

Lemma exact_match_ext (d d' : Ref -> CorpusIngredient) (text_lower ty : string)
    (refs : list Ref) :
  same_keys d d' refs ->
  exact_match strip_lower d' refs text_lower ty
  = exact_match strip_lower d refs text_lower ty.
Proof.
  induction refs as [|x refs IH]; intros H; [done|]. simpl.
  destruct (H x) as (-> & -> & _); [by left|].
  rewrite IH; [done|]. intros y Hy. apply H. by right.
Qed.

Lemma fuzzy_match_ext (d d' : Ref -> CorpusIngredient) (emb : list float) (ty : string)
    (refs : list Ref) :
  same_keys d d' refs ->
  forall best_match best_sim,
    fuzzy_match sum pow_half d' refs emb ty best_match best_sim
    = fuzzy_match sum pow_half d refs emb ty best_match best_sim.
Proof.
  induction refs as [|x refs IH]; intros H bm bs; [done|]. simpl.
  destruct (H x) as (-> & _ & ->); [by left|].
  assert (H' : same_keys d d' refs) by (intros y Hy; apply H; by right).
  destruct (embedding (d x)); by rewrite !IH.
Qed.

Lemma find_ext (d d' : Ref -> CorpusIngredient) (self : SandwichCorpus)
    (query ty : string) (emb : option (list float)) (threshold : float) :
  same_keys d d' (ingredients self) ->
  find d' self query ty emb threshold = find d self query ty emb threshold.
Proof.
  intros H. unfold find_matching_ingredient. rewrite (exact_match_ext d d') by done.
  destruct (exact_match _ _ _ _ _); [done|]. destruct emb as [e|]; [|done].
  by rewrite (fuzzy_match_ext d d').
Qed.

Lemma exact_match_app (d : Ref -> CorpusIngredient) (text_lower ty : string)
    (xs ys : list Ref) :
  exact_match strip_lower d (xs ++ ys) text_lower ty
  = match exact_match strip_lower d xs text_lower ty with
    | Some r => Some r
    | None => exact_match strip_lower d ys text_lower ty
    end.
Proof.
  induction xs as [|x xs IH]; [done|]. simpl. by destruct (_ && _).
Qed.

(** X27. Right after [find_or_create_ingredient] a lookup with the same
    arguments finds the ingredient that call returned, whether it had been
    matched by text, matched by embedding or newly created. (Every listed
    reference being in use; objects may be listed twice.) *)
Theorem found_again_after_find_or_create (query ty : string)
    (emb : option (list float)) (sandwich_id : UUID) (threshold : float)
    (st : Store) (w : World) :
  Forall (fun r => (r < fresh st)%nat) (ingredients (the_corpus st)) ->
  exists r st' w',
    find_or_create query ty emb sandwich_id threshold st w = (Returned r, st', w')
    /\ find (deref st') (the_corpus st') query ty emb threshold = Some r.
Proof.
  intros Hlt.
  destruct (find_or_create_cases query ty emb sandwich_id threshold st w)
    as [(r & w' & Hf & ->)|(w' & Hf & ->)]; eexists _, _, _; (split; [reflexivity|]);
    simpl.
  - rewrite (find_ext (deref st)); [done|]. intros x _. unfold assign.
    by destruct (Nat.eqb_spec x r) as [->|].
  - assert (Hkeys : same_keys (deref st)
              (assign (fresh st)
                 (mkCorpusIngredient (uuid4_at w (ticks w)) query ty emb 1) (deref st))
              (ingredients (the_corpus st))).
    { intros x Hx. unfold assign. destruct (Nat.eqb_spec x (fresh st)) as [->|]; [|done].
      rewrite Forall_forall in Hlt. specialize (Hlt _ Hx). simpl in Hlt. lia. }
    unfold find_matching_ingredient in *. simpl.
    rewrite exact_match_app, (exact_match_ext (deref st)) by done.
    destruct (exact_match _ _ _ _ _) as [r0|] eqn:Hex; [discriminate|].
    simpl. unfold assign. by rewrite Nat.eqb_refl, !String.eqb_refl.
Qed.

(** ** Reuse statistics *)

Lemma max_by_usage_highest (d : Ref -> CorpusIngredient) (rest : list Ref) :
  forall ing,
    max_by_usage d ing rest ∈ ing :: rest
    /\ forall r, r ∈ ing :: rest ->
         usage_count (d r) <= usage_count (d (max_by_usage d ing rest)).
Proof.
  unfold max_by_usage.
  induction rest as [|x rest IH]; intros ing; simpl.
  - split; [by left|]. intros r Hr%list_elem_of_singleton. subst. lia.
  - destruct (usage_count (d ing) <? usage_count (d x)) eqn:Hlt.
    + apply Z.ltb_lt in Hlt. destruct (IH x) as [Hin Hmax]. split; [by right|].
      intros r [->|Hr]%elem_of_cons; [|by apply Hmax].
      specialize (Hmax x ltac:(by left)). lia.
    + apply Z.ltb_ge in Hlt. destruct (IH ing) as [Hin Hmax]. split.
      * apply elem_of_cons in Hin as [->|Hin]; [by left | by right; right].
      * intros r [->|[->|Hr]%elem_of_cons]%elem_of_cons.
        -- apply Hmax. by left.
        -- specialize (Hmax ing ltac:(by left)). lia.
        -- apply Hmax. by right.
Qed.

(** The statistics report the number of listed ingredients and the sum of
    their usage counts, unless the average is beyond the range of floats. *)
Lemma reuse_stats_totals (d : Ref -> CorpusIngredient) (self : SandwichCorpus) :
  match ingredient_reuse_stats d self with
  | Returned stats =>
      total_ingredients stats = Z.of_nat (length (ingredients self))
      /\ total_usages stats = sum_usage d (ingredients self)
      /\ most_reused stats
         = match ingredients self with
           | [] => None
           | ing :: rest => Some (text (d (max_by_usage d ing rest)))
           end
  | Raised e =>
      e = OverflowError
      /\ truediv (sum_usage d (ingredients self))
           (Z.of_nat (length (ingredients self))) = Raised OverflowError
  end.
Proof.
  unfold ingredient_reuse_stats. destruct (ingredients self) as [|ing rest]; [done|].
  destruct (truediv (sum_usage d (ing :: rest)) (Z.of_nat (length (ing :: rest))))
    as [ratio|e] eqn:E; [done|].
  apply CorpusSpec.truediv_raises in E as ->; [done|]. cbn [length]. lia.
Qed.

(** They return whenever the average is at most [2 ^ 1022] in magnitude. *)
Lemma reuse_stats_returns (d : Ref -> CorpusIngredient) (self : SandwichCorpus) :
  Z.abs (sum_usage d (ingredients self))
    <= Z.of_nat (length (ingredients self)) * 2 ^ 1022 ->
  exists stats, ingredient_reuse_stats d self = Returned stats.
Proof.
  intros H. unfold ingredient_reuse_stats.
  destruct (ingredients self) as [|ing rest]; [by eexists|].
  destruct (CorpusSpec.truediv_in_range (sum_usage d (ing :: rest))
              (Z.of_nat (length (ing :: rest)))) as [q ->].
  - cbn [length]. lia.
  - rewrite Z.abs_eq with (n := Z.of_nat _) by lia. exact H.
  - by eexists.
Qed.

(** X28. [ingredient_reuse_stats] never raises [ZeroDivisionError]. When it
    returns, it reports the number of listed ingredients and the sum of
    their usage counts; for an empty list nothing is most reused, otherwise
    the most reused text is that of a listed ingredient whose usage count
    no other listed ingredient exceeds. The one exception it can raise is
    [OverflowError], when the average usage is beyond the range of floats;
    it returns whenever the sum of the usage counts is at most [2 ^ 1022]
    times the number of ingredients in magnitude. *)
Theorem most_reused_has_the_highest_count
    (d : Ref -> CorpusIngredient) (self : SandwichCorpus) :
  match ingredient_reuse_stats d self with
  | Returned stats =>
      total_ingredients stats = Z.of_nat (length (ingredients self))
      /\ total_usages stats = sum_usage d (ingredients self)
      /\ (ingredients self = [] -> most_reused stats = None)
      /\ (ingredients self <> [] ->
          exists m,
            m ∈ ingredients self
            /\ most_reused stats = Some (text (d m))
            /\ forall r, r ∈ ingredients self -> usage_count (d r) <= usage_count (d m))
  | Raised e =>
      e = OverflowError
      /\ ingredients self <> []
      /\ truediv (sum_usage d (ingredients self))
           (Z.of_nat (length (ingredients self))) = Raised OverflowError
  end
  /\ (Z.abs (sum_usage d (ingredients self))
        <= Z.of_nat (length (ingredients self)) * 2 ^ 1022 ->
      exists stats, ingredient_reuse_stats d self = Returned stats).
Proof.
  split; [|apply reuse_stats_returns].
  pose proof (reuse_stats_totals d self) as Ht.
  destruct (ingredient_reuse_stats d self) as [stats|e].
  - destruct Ht as (Hn & Hu & Hm). split; [done|]. split; [done|].
    destruct (ingredients self) as [|ing rest]; [by split|].
    split; [done|]. intros _.
    destruct (max_by_usage_highest d rest ing) as [Hin Hmax]. by eexists.
  - destruct Ht as [-> Hdiv]. split; [done|]. split; [|done].
    intros Hnil. rewrite Hnil in Hdiv. discriminate Hdiv.
Qed.

(** A call of [find_or_create_ingredient], by its arguments. *)
Record Request : Type := mkRequest {
  query : string;
  ty : string;
  emb : option (list float);
  sandwich_id : UUID;
  threshold : float
}.

(** A sequence of such calls on one corpus. *)
Fixpoint serve (requests : list Request) (st : Store) (w : World) : Store * World :=
  match requests with
  | [] => (st, w)
  | q :: rest =>
      serve rest
        (snd (fst (find_or_create (query q) (ty q) (emb q) (sandwich_id q)
                     (threshold q) st w)))
        (snd (find_or_create (query q) (ty q) (emb q) (sandwich_id q)
                (threshold q) st w))
  end.

Lemma serve_counts (requests : list Request) : forall (st : Store) (w : World),
  tidy st ->
  sum_usage (deref (fst (serve requests st w)))
    (ingredients (the_corpus (fst (serve requests st w))))
  = sum_usage (deref st) (ingredients (the_corpus st)) + Z.of_nat (length requests)
  /\ (length (ingredients (the_corpus (fst (serve requests st w))))
      <= length (ingredients (the_corpus st)) + length requests)%nat.
Proof.
  induction requests as [|q requests IH]; intros st w Ht; cbn [serve].
  - simpl. lia.
  - destruct (find_or_create_step (query q) (ty q) (emb q) (sandwich_id q)
                (threshold q) st w Ht)
      as (r & st' & w' & -> & _ & Hsum & Hl & Ht' & _).
    cbn [fst snd]. destruct (IH st' w' Ht') as [Hs Hn]. rewrite Hs, Hsum. split.
    + cbn [length]. lia.
    + destruct Hl as [Hl|Hl]; rewrite Hl in Hn; [|rewrite length_app in Hn];
        cbn [length] in *; lia.
Qed.

(** X29. On a corpus whose ingredients all came from
    [find_or_create_ingredient], the statistics report as total usages the
    number of calls made, and no more ingredients than calls; they never
    raise, the calls being at most [2 ^ 1022], more than a list can
    hold. *)
Theorem usages_count_every_call (requests : list Request)
    (d : Ref -> CorpusIngredient) (w : World) :
  Z.of_nat (length requests) <= 2 ^ 1022 ->
  exists stats,
    ingredient_reuse_stats
      (deref (fst (serve requests (mkStore new_corpus d 0%nat) w)))
      (the_corpus (fst (serve requests (mkStore new_corpus d 0%nat) w)))
    = Returned stats
    /\ total_usages stats = Z.of_nat (length requests)
    /\ 0 <= total_ingredients stats <= Z.of_nat (length requests).
Proof.
  intros Hmany.
  destruct (serve_counts requests (mkStore new_corpus d 0%nat) w) as [Hs Hn].
  { split; [apply NoDup_nil_2 | constructor]. }
  replace (sum_usage (deref (mkStore new_corpus d 0%nat))
             (ingredients (the_corpus (mkStore new_corpus d 0%nat))))
    with 0 in Hs by reflexivity.
  cbn [the_corpus new_corpus ingredients length] in Hn.
  set (st := fst (serve requests (mkStore new_corpus d 0%nat) w)) in *.
  destruct (reuse_stats_returns (deref st) (the_corpus st)) as [stats Hr].
  { rewrite Hs. destruct (ingredients (the_corpus st)) as [|ing rest] eqn:E.
    - unfold sum_usage in Hs. simpl in Hs. simpl. lia.
    - assert (0 < 2 ^ 1022) by (apply Z.pow_pos_nonneg; lia).
      cbn [length] in *. nia. }
  pose proof (reuse_stats_totals (deref st) (the_corpus st)) as Ht.
  rewrite Hr in Ht. destruct Ht as (Hi & Hu & _).
  exists stats. split; [done|]. rewrite Hu, Hi, Hs. lia.
Qed.

End Interpreter.

(** ** Examples *)

(** A corpus listing two ingredient objects, one bread and one filling,
    and a stand-in interpreter that leaves texts as they are. *)
Definition d0 : Ref -> CorpusIngredient :=
  fun r =>
    match r with
    | O => mkCorpusIngredient 7%N "Upper bound g(x)" "bread" None 1
    | _ => mkCorpusIngredient 8%N "Target function f(x)" "filling" None 2
    end.
Definition corpus0 : SandwichCorpus := mkSandwichCorpus [] ∅ [0%nat; 1%nat] 0.
Definition st0 : Store := mkStore corpus0 d0 2%nat.

Definition find0 := find_matching_ingredient (fun _ => f0_0) (fun x => x) (fun s => s).
Definition find_or_create0 :=
  find_or_create_ingredient (fun _ => f0_0) (fun x => x) (fun s => s).

Lemma matching_ingredient_is_sound_witness :
  0%nat ∈ ingredients corpus0
  /\ ingredient_type (d0 0%nat) = "bread"
  /\ (text (d0 0%nat) = "Upper bound g(x)"
      \/ (Forall (fun x => same_text (fun s => s) d0 "Upper bound g(x)" "bread" x = false)
            (ingredients corpus0)
          /\ exists e e',
               None = Some e /\ embedding (d0 0%nat) = Some e'
               /\ flt f0_0 (_cosine_similarity (fun _ => f0_0) (fun x => x) e e') = true
               /\ fle f0_92 (_cosine_similarity (fun _ => f0_0) (fun x => x) e e') = true)).
Proof.
  apply (matching_ingredient_is_sound (fun _ => f0_0) (fun x => x) (fun s => s)
           d0 corpus0 "Upper bound g(x)" "bread" None f0_92 0%nat).
  reflexivity.
Defined.

Lemma exact_text_match_comes_first_witness :
  exists r0 before after,
    find0 d0 corpus0 "Target function f(x)" "filling" (Some [f1_0]) f0_92 = Some r0
    /\ ingredients corpus0 = before ++ r0 :: after
    /\ ingredient_type (d0 r0) = "filling"
    /\ text (d0 r0) = "Target function f(x)"
    /\ Forall (fun x => same_text (fun s => s) d0 "Target function f(x)" "filling" x
                        = false) before.
Proof.
  apply (exact_text_match_comes_first (fun _ => f0_0) (fun x => x) (fun s => s)
           d0 corpus0 "Target function f(x)" "filling" (Some [f1_0]) f0_92 1%nat).
  - set_solver.
  - reflexivity.
  - reflexivity.
Defined.

Lemma find_or_create_counts_one_usage_witness :
  exists r st' w',
    find_or_create0 "Lower bound h(x)" "bread" None 0%N f0_92 st0 w0
      = (Returned r, st', w')
    /\ r ∈ ingredients (the_corpus st')
    /\ sum_usage (deref st') (ingredients (the_corpus st'))
       = sum_usage (deref st0) (ingredients (the_corpus st0)) + 1
    /\ (ingredients (the_corpus st') = ingredients (the_corpus st0)
        \/ ingredients (the_corpus st') = ingredients (the_corpus st0) ++ [r])
    /\ NoDup (ingredients (the_corpus st'))
    /\ embeddings (the_corpus st') = embeddings (the_corpus st0)
    /\ type_counts (the_corpus st') = type_counts (the_corpus st0)
    /\ total_sandwiches (the_corpus st') = total_sandwiches (the_corpus st0).
Proof.
  apply (find_or_create_counts_one_usage (fun _ => f0_0) (fun x => x) (fun s => s)
           "Lower bound h(x)" "bread" None 0%N f0_92 st0 w0).
  - simpl. apply NoDup_cons. split; [|apply NoDup_singleton].
    intros H%list_elem_of_singleton. discriminate.
  - simpl. repeat constructor.
Defined.

Lemma found_again_after_find_or_create_witness :
  exists r st' w',
    find_or_create0 "Lower bound h(x)" "bread" None 0%N f0_92 st0 w0
      = (Returned r, st', w')
    /\ find0 (deref st') (the_corpus st') "Lower bound h(x)" "bread" None f0_92 = Some r.
Proof.
  apply (found_again_after_find_or_create (fun _ => f0_0) (fun x => x) (fun s => s)
           "Lower bound h(x)" "bread" None 0%N f0_92 st0 w0).
  simpl. repeat constructor.
Defined.

(** Two calls with one text: one ingredient, used twice. *)
Definition two_requests : list Request :=
  [mkRequest "Upper bound g(x)" "bread" None 0%N f0_92;
   mkRequest "Upper bound g(x)" "bread" None 1%N f0_92].

Lemma usages_count_every_call_witness :
  exists stats,
    ingredient_reuse_stats
      (deref (fst (serve (fun _ => f0_0) (fun x => x) (fun s => s) two_requests
                     (mkStore new_corpus d0 0%nat) w0)))
      (the_corpus (fst (serve (fun _ => f0_0) (fun x => x) (fun s => s) two_requests
                          (mkStore new_corpus d0 0%nat) w0)))
    = Returned stats
    /\ total_usages stats = 2
    /\ 0 <= total_ingredients stats <= 2.
Proof.
  apply (usages_count_every_call (fun _ => f0_0) (fun x => x) (fun s => s)
           two_requests d0 w0).
  apply Z.leb_le. vm_compute. reflexivity.
Defined.

(** A usage count beyond the range of floats makes the statistics raise. *)
Example huge_usage_overflows :
  ingredient_reuse_stats
    (fun _ => mkCorpusIngredient 7%N "Upper bound g(x)" "bread" None (10 ^ 400))
    (mkSandwichCorpus [] ∅ [0%nat] 0)
  = Raised OverflowError.
Proof. vm_compute. reflexivity. Qed.

(** An ingredient object the corpus lists twice is one object: a single
    reuse shows in both entries, and the sum over the list grows by 2. *)
Example listed_twice_counts_twice :
  let st := mkStore (mkSandwichCorpus [] ∅ [0%nat; 0%nat] 0) d0 1%nat in
  let st' := snd (fst (find_or_create0 "Upper bound g(x)" "bread" None 0%N f0_92 st w0)) in
  sum_usage (deref st) (ingredients (the_corpus st)) = 2
  /\ sum_usage (deref st') (ingredients (the_corpus st')) = 4.
Proof. vm_compute. split; reflexivity. Qed.

End IngredientSpec.
